(** * ai-todo-manager: the request handlers of the task API

    A shallow embedding of three route handlers of the repository and of
    the JavaScript primitives they rest on:

    - [ParseTodo]  : POST /api/ai/parse-todo   (src/unnamed/part_001)
    - [Summary]    : POST /api/ai/summary      (src/unnamed/part_002)
    - [TodoRoute]  : PUT and DELETE /api/todos/[id]
                     (src/app/api/todos/[id]/route.ts)

    Everything a handler reads from its surroundings is an argument of its
    embedding: the environment variable, the request body, the session,
    the rows the store returns, the clock and the outcome of the call to
    the text-completion provider. *)

From Stdlib Require Import String Ascii ZArith NArith QArith Qabs Qround Qpower.
From Stdlib Require Import List Bool Lia Lqa Permutation Sorted Floats.
Import ListNotations.

Set Warnings "-register-all".

Local Open Scope Z_scope.

(* ===================================================================== *)
(** * JavaScript values and the builtins the handlers call *)
(* ===================================================================== *)

Module JS.

(** A JavaScript string is a sequence of UTF-16 code units; [length] is
    the [.length] of the source. *)
Definition jsstr := list N.

Definition code_of (a : ascii) : N := N_of_ascii a.

(** Source literals are written as Rocq strings; the file is UTF-8, so a
    literal is decoded from UTF-8 to UTF-16 code units. *)
Fixpoint utf16_of_utf8 (bs : list N) : jsstr :=
  (match bs with
   | [] => []
   | b1 :: r1 =>
     if b1 <? 128 then b1 :: utf16_of_utf8 r1
     else if b1 <? 224 then
       match r1 with
       | b2 :: r2 => ((b1 mod 32) * 64 + b2 mod 64) :: utf16_of_utf8 r2
       | [] => []
       end
     else if b1 <? 240 then
       match r1 with
       | b2 :: b3 :: r3 =>
         ((b1 mod 16) * 4096 + (b2 mod 64) * 64 + b3 mod 64) :: utf16_of_utf8 r3
       | _ => []
       end
     else
       match r1 with
       | b2 :: b3 :: b4 :: r4 =>
         let cp := (b1 mod 8) * 262144 + (b2 mod 64) * 4096
                   + (b3 mod 64) * 64 + b4 mod 64 in
         let v := cp - 65536 in
         (55296 + v / 1024) :: (56320 + v mod 1024) :: utf16_of_utf8 r4
       | _ => []
       end
   end)%N.

Definition lit (s : string) : jsstr :=
  utf16_of_utf8 (map code_of (list_ascii_of_string s)).

(** [===] on strings. *)
Fixpoint str_eqb (a b : jsstr) : bool :=
  match a, b with
  | [], [] => true
  | x :: a', y :: b' => N.eqb x y && str_eqb a' b'
  | _, _ => false
  end.

(** ** Character classes of the regular expressions *)

Definition between (lo hi c : N) : bool := (N.leb lo c && N.leb c hi)%N.

(** [\d] *)
Definition is_digit (c : N) : bool := between 48 57 c.

(** [\w] (no [i] flag in the source's patterns): [A-Za-z0-9_]. *)
Definition is_word (c : N) : bool :=
  between 65 90 c || between 97 122 c || is_digit c || N.eqb c 95.

(** [\s], which is also the set that [String.prototype.trim] strips:
    WhiteSpace and LineTerminator of ECMA-262. *)
Definition is_space (c : N) : bool :=
  between 9 13 c || N.eqb c 32 || N.eqb c 160 || N.eqb c 5760
  || between 8192 8202 c || N.eqb c 8232 || N.eqb c 8233
  || N.eqb c 8239 || N.eqb c 8287 || N.eqb c 12288 || N.eqb c 65279.

(** ** String.prototype methods *)

Fixpoint trimStart (s : jsstr) : jsstr :=
  match s with
  | c :: r => if is_space c then trimStart r else s
  | [] => []
  end.

Definition trimEnd (s : jsstr) : jsstr := rev (trimStart (rev s)).

Definition trim (s : jsstr) : jsstr := trimEnd (trimStart s).

Fixpoint startsWith (p s : jsstr) : bool :=
  match p, s with
  | [], _ => true
  | x :: p', y :: s' => N.eqb x y && startsWith p' s'
  | _ :: _, [] => false
  end.

(** [s.includes(p)] *)
Fixpoint includes (s p : jsstr) : bool :=
  startsWith p s ||
  match s with
  | [] => false
  | _ :: r => includes r p
  end.

(** [s.substring(0, n)] for [n] within the string or beyond it. *)
Definition substring0 (n : nat) (s : jsstr) : jsstr := firstn n s.

(** [String(n)] for an integer. *)
Fixpoint digits_of_pos_fuel (fuel : nat) (n : N) (acc : jsstr) : jsstr :=
  match fuel with
  | O => acc
  | S f =>
    let acc' := (48 + n mod 10)%N :: acc in
    if (n <? 10)%N then acc' else digits_of_pos_fuel f (n / 10)%N acc'
  end.

Definition string_of_N (n : N) : jsstr :=
  digits_of_pos_fuel (S (N.to_nat (N.log2 n))) n [].

Definition string_of_Z (z : Z) : jsstr :=
  if z <? 0 then 45%N :: string_of_N (Z.to_N (- z)) else string_of_N (Z.to_N z).

(** ** JSON values *)

(** A number literal of a JSON text is kept as the rational it denotes.
    [JSON.parse] rounds it to the nearest double: a handler that looks
    at the number looks at [nearest_double] of it, and a number that is
    sent is sent as that double ([sent]). *)
Inductive json :=
| JNull
| JBool (b : bool)
| JNum (q : Q)
| JStr (s : jsstr)
| JArr (l : list json)
| JObj (kvs : list (jsstr * json)).

(** Own-property lookup of an object built by [JSON.parse]: of two members
    with one key the later one wins. [None] is [undefined]. *)
Fixpoint lookup_last (kvs : list (jsstr * json)) (k : jsstr) : option json :=
  match kvs with
  | [] => None
  | (k', v) :: r =>
    match lookup_last r k with
    | Some v' => Some v'
    | None => if str_eqb k' k then Some v else None
    end
  end.

(** [v.k] for a property name that no prototype defines (every name the
    handlers read is such a name); on [null] the access throws and the
    caller handles that case itself. *)
Definition get (v : json) (k : jsstr) : option json :=
  match v with
  | JObj kvs => lookup_last kvs k
  | _ => None
  end.

(** The double nearest to a rational is [0] exactly when the rational is at
    most half the least subnormal, [2^-1075], in absolute value. *)
Definition rounds_to_zero (q : Q) : bool :=
  Qle_bool (Qabs q) (1 # (2 ^ 1075)).

(** ToBoolean. [None] is [undefined]. *)
Definition truthy (v : option json) : bool :=
  match v with
  | None => false
  | Some JNull => false
  | Some (JBool b) => b
  | Some (JNum q) => negb (rounds_to_zero q)
  | Some (JStr s) => match s with [] => false | _ => true end
  | Some (JArr _) => true
  | Some (JObj _) => true
  end.

(** [a || b] *)
Definition or_else (a : option json) (b : json) : json :=
  match a with
  | Some v => if truthy a then v else b
  | None => b
  end.

(** ** JSON.parse

    The grammar of ECMA-404, read in one pass over the code units: a
    tokenizer with the lexical modes below, then a parser with an explicit
    stack of open arrays and objects. Both recurse on the input alone. *)

Inductive token :=
| TLBrace | TRBrace | TLBracket | TRBracket | TColon | TComma
| TStr (s : jsstr) | TNum (q : Q) | TTrue | TFalse | TNull.

Definition json_ws (c : N) : bool :=
  N.eqb c 32 || N.eqb c 9 || N.eqb c 10 || N.eqb c 13.

Fixpoint span_digits (s : jsstr) : jsstr * jsstr :=
  match s with
  | c :: r =>
    if is_digit c then let (ds, r') := span_digits r in (c :: ds, r')
    else ([], s)
  | [] => ([], [])
  end.

Definition Z_of_digits (ds : jsstr) : Z :=
  fold_left (fun a d => a * 10 + (Z.of_N d - 48)) ds 0.

Definition scale10 (m e : Z) : Q :=
  if 0 <=? e then (m * 10 ^ e) # 1 else m # (Z.to_pos (10 ^ (- e))).

(** number = [-] int [frac] [exp] *)
Definition number_of (cs : jsstr) : option Q :=
  let (neg, r0) := match cs with
                   | 45%N :: r => (true, r)
                   | _ => (false, cs)
                   end in
  let (ip, r1) := span_digits r0 in
  match ip with
  | [] => None
  | d :: ds =>
    if N.eqb d 48 && negb (Nat.eqb (length ds) 0) then None
    else
      let frac :=
        match r1 with
        | 46%N :: r =>
          let (fp, r') := span_digits r in
          match fp with [] => None | _ => Some (fp, r') end
        | _ => Some ([], r1)
        end in
      match frac with
      | None => None
      | Some (fp, r2) =>
        let expo :=
          match r2 with
          | [] => Some 0
          | e :: r =>
            if N.eqb e 101 || N.eqb e 69 then
              let (eneg, r') := match r with
                                | 45%N :: r' => (true, r')
                                | 43%N :: r' => (false, r')
                                | _ => (false, r)
                                end in
              let (ep, r'') := span_digits r' in
              match ep, r'' with
              | _ :: _, [] =>
                Some (if eneg then - Z_of_digits ep else Z_of_digits ep)
              | _, _ => None
              end
            else None
          end in
        match expo with
        | None => None
        | Some ex =>
          let m := Z_of_digits (ip ++ fp) in
          Some (scale10 (if neg then - m else m) (ex - Z.of_nat (length fp)))
        end
      end
  end.

Definition word_token (w : jsstr) : option token :=
  if str_eqb w (lit "true") then Some TTrue
  else if str_eqb w (lit "false") then Some TFalse
  else if str_eqb w (lit "null") then Some TNull
  else None.

Definition hexval (c : N) : option N :=
  (if is_digit c then Some (c - 48)
   else if between 97 102 c then Some (c - 87)
   else if between 65 70 c then Some (c - 55)
   else None)%N.

Definition unescape (c : N) : option N :=
  (if N.eqb c 34 then Some 34 else if N.eqb c 92 then Some 92
   else if N.eqb c 47 then Some 47 else if N.eqb c 98 then Some 8
   else if N.eqb c 102 then Some 12 else if N.eqb c 110 then Some 10
   else if N.eqb c 114 then Some 13 else if N.eqb c 116 then Some 9
   else None)%N.

Inductive lexmode :=
| L0                                (* between tokens *)
| LS (acc : jsstr)                  (* inside a string *)
| LE (acc : jsstr)                  (* after a backslash *)
| LU (acc : jsstr) (hs : list N)    (* inside \uXXXX *)
| LN (acc : jsstr)                  (* inside a number *)
| LW (acc : jsstr).                 (* inside true, false or null *)

Definition l0_step (c : N) : option (lexmode * list token) :=
  if json_ws c then Some (L0, [])
  else if N.eqb c 123 then Some (L0, [TLBrace])
  else if N.eqb c 125 then Some (L0, [TRBrace])
  else if N.eqb c 91 then Some (L0, [TLBracket])
  else if N.eqb c 93 then Some (L0, [TRBracket])
  else if N.eqb c 58 then Some (L0, [TColon])
  else if N.eqb c 44 then Some (L0, [TComma])
  else if N.eqb c 34 then Some (LS [], [])
  else if N.eqb c 45 || is_digit c then Some (LN [c], [])
  else if between 97 122 c then Some (LW [c], [])
  else None.

Definition number_char (c : N) : bool :=
  is_digit c || N.eqb c 43 || N.eqb c 45 || N.eqb c 46
  || N.eqb c 101 || N.eqb c 69.

(** [out] holds the tokens read so far, last one first. *)
Fixpoint lex (m : lexmode) (s : jsstr) (out : list token) : option (list token) :=
  match s with
  | [] =>
    match m with
    | L0 => Some (rev out)
    | LN acc =>
      match number_of (rev acc) with
      | Some q => Some (rev (TNum q :: out))
      | None => None
      end
    | LW acc =>
      match word_token (rev acc) with
      | Some t => Some (rev (t :: out))
      | None => None
      end
    | _ => None
    end
  | c :: r =>
    match m with
    | L0 =>
      match l0_step c with
      | Some (m', ts) => lex m' r (ts ++ out)
      | None => None
      end
    | LS acc =>
      if N.eqb c 34 then lex L0 r (TStr (rev acc) :: out)
      else if N.eqb c 92 then lex (LE acc) r out
      else if (c <? 32)%N then None
      else lex (LS (c :: acc)) r out
    | LE acc =>
      if N.eqb c 117 then lex (LU acc []) r out
      else match unescape c with
           | Some d => lex (LS (d :: acc)) r out
           | None => None
           end
    | LU acc hs =>
      match hexval c with
      | None => None
      | Some h =>
        match hs with
        | [h1; h2; h3] =>
          lex (LS ((h1 * 4096 + h2 * 256 + h3 * 16 + h)%N :: acc)) r out
        | _ => lex (LU acc (hs ++ [h])) r out
        end
      end
    | LN acc =>
      if number_char c then lex (LN (c :: acc)) r out
      else match number_of (rev acc), l0_step c with
           | Some q, Some (m', ts) => lex m' r (ts ++ TNum q :: out)
           | _, _ => None
           end
    | LW acc =>
      if between 97 122 c then lex (LW (c :: acc)) r out
      else match word_token (rev acc), l0_step c with
           | Some t, Some (m', ts) => lex m' r (ts ++ t :: out)
           | _, _ => None
           end
    end
  end.

(** An array or an object that is still open, with what it holds so far
    (last one first); an open object also holds the key whose value is
    being read. *)
Inductive frame :=
| FA (es : list json)
| FO (ms : list (jsstr * json)) (k : jsstr).

Inductive pstate :=
| PVal (st : list frame)                             (* a value starts here *)
| PArr0 (st : list frame)                            (* after [ *)
| PObj0 (st : list frame)                            (* after { *)
| PKey (ms : list (jsstr * json)) (st : list frame)  (* after a comma in an object *)
| PColon (ms : list (jsstr * json)) (k : jsstr) (st : list frame)
| PArrNext (es : list json) (st : list frame)        (* after an element *)
| PObjNext (ms : list (jsstr * json)) (st : list frame)
| PDone (v : json).

Definition close (v : json) (st : list frame) : pstate :=
  match st with
  | [] => PDone v
  | FA es :: st' => PArrNext (v :: es) st'
  | FO ms k :: st' => PObjNext ((k, v) :: ms) st'
  end.

Definition begin (t : token) (st : list frame) : option pstate :=
  match t with
  | TStr s => Some (close (JStr s) st)
  | TNum q => Some (close (JNum q) st)
  | TTrue => Some (close (JBool true) st)
  | TFalse => Some (close (JBool false) st)
  | TNull => Some (close JNull st)
  | TLBracket => Some (PArr0 st)
  | TLBrace => Some (PObj0 st)
  | _ => None
  end.

Definition pstep (p : pstate) (t : token) : option pstate :=
  match p, t with
  | PVal st, _ => begin t st
  | PArr0 st, TRBracket => Some (close (JArr []) st)
  | PArr0 st, _ => begin t (FA [] :: st)
  | PObj0 st, TRBrace => Some (close (JObj []) st)
  | PObj0 st, TStr k => Some (PColon [] k st)
  | PKey ms st, TStr k => Some (PColon ms k st)
  | PColon ms k st, TColon => Some (PVal (FO ms k :: st))
  | PArrNext es st, TComma => Some (PVal (FA es :: st))
  | PArrNext es st, TRBracket => Some (close (JArr (rev es)) st)
  | PObjNext ms st, TComma => Some (PKey ms st)
  | PObjNext ms st, TRBrace => Some (close (JObj (rev ms)) st)
  | _, _ => None
  end.

Fixpoint prun (p : pstate) (ts : list token) : option json :=
  match ts with
  | [] => match p with PDone v => Some v | _ => None end
  | t :: r =>
    match pstep p t with
    | Some p' => prun p' r
    | None => None
    end
  end.

(** [JSON.parse(s)]; [None] when it throws a SyntaxError. *)
Definition JSON_parse (s : jsstr) : option json :=
  match lex L0 s [] with
  | Some ts => prun (PVal []) ts
  | None => None
  end.

(** ** The patterns of the handlers *)

Fixpoint from_first (c : N) (s : jsstr) : option jsstr :=
  match s with
  | [] => None
  | x :: r => if N.eqb x c then Some s else from_first c r
  end.

(** [text.match(/\{[\s\S]*\}/)]: from the first opening brace to the last
    closing brace after it; [None] when the pattern does not match. *)
Definition match_braces (text : jsstr) : option jsstr :=
  match from_first 123 text with
  | Some (b :: r) =>
    match from_first 125 (rev r) with
    | Some body => Some (b :: rev body)
    | None => None
    end
  | _ => None
  end.

(** [/^\d{4}-\d{2}-\d{2}$/.test(s)] *)
Definition dateRegex (s : jsstr) : bool :=
  match s with
  | [y1; y2; y3; y4; h1; m1; m2; h2; d1; d2] =>
    is_digit y1 && is_digit y2 && is_digit y3 && is_digit y4 && N.eqb h1 45
    && is_digit m1 && is_digit m2 && N.eqb h2 45 && is_digit d1 && is_digit d2
  | _ => false
  end.

(** [/^([01]?[0-9]|2[0-3]):[0-5][0-9]$/.test(s)] *)
Definition timeRegex (s : jsstr) : bool :=
  match s with
  | [h; c; m1; m2] =>
    is_digit h && N.eqb c 58 && between 48 53 m1 && is_digit m2
  | [h1; h2; c; m1; m2] =>
    ((between 48 49 h1 && is_digit h2) || (N.eqb h1 50 && between 48 51 h2))
    && N.eqb c 58 && between 48 53 m1 && is_digit m2
  | _ => false
  end.

(** ** Array.prototype.sort

    The sort is stable (ECMA-262, since the 2019 edition). For a
    comparator that orders the elements consistently there is one stable
    sorted arrangement ([JSFacts.Array_sort_unique] below), and inserting
    the elements from the right builds it: an element goes before the
    first one it does not follow. *)
Fixpoint sort_insert {A} (cmp : A -> A -> Z) (x : A) (l : list A) : list A :=
  match l with
  | [] => [x]
  | y :: r => if cmp x y <=? 0 then x :: y :: r else y :: sort_insert cmp x r
  end.

Fixpoint Array_sort {A} (cmp : A -> A -> Z) (l : list A) : list A :=
  match l with
  | [] => []
  | x :: r => sort_insert cmp x (Array_sort cmp r)
  end.

(** ** Numbers *)

(** A Number: a finite double, given by the rational it is, an infinity
    or NaN. The sign of a zero is not kept: no handler looks at it. *)
Inductive number :=
| Finite (q : Q)
| Infinite (negative : bool)
| NaN.

(** [2^e] *)
Definition pow2 (e : Z) : Q :=
  if 0 <=? e then inject_Z (2 ^ e) else 1 # Z.to_pos (2 ^ (- e)).

(** [10^e] *)
Definition pow10 (e : Z) : Q :=
  if 0 <=? e then inject_Z (10 ^ e) else 1 # Z.to_pos (10 ^ (- e)).

(** [n / d] rounded to the nearest integer, to the even one of two
    equally near, for [0 <= n] and [0 < d]. *)
Definition round_half_even (n d : Z) : Z :=
  let m := n / d in
  match 2 * (n mod d) ?= d with
  | Lt => m
  | Gt => m + 1
  | Eq => if Z.even m then m else m + 1
  end.

(** The double nearest to [n / d] for positive [n] and [d] (IEEE 754
    binary64, round to nearest, ties to even): its value [m * 2^e] with
    [m <= 2^53], [None] when it is an infinity. *)
Definition nearest_double_pos (n d : Z) : option (Z * Z) :=
  let floor_scaled e := if 0 <=? e then n / (d * 2 ^ e) else (n * 2 ^ (- e)) / d in
  let e0 := Z.log2 n - Z.log2 d - 52 in
  (* 2^51 < n / d / 2^e0 < 2^53 *)
  let e1 := if floor_scaled e0 <? 2 ^ 52 then e0 - 1 else e0 in
  (* the exponent of a subnormal is -1074 *)
  let e := Z.max e1 (-1074) in
  let m := if 0 <=? e then round_half_even n (d * 2 ^ e)
           else round_half_even (n * 2 ^ (- e)) d in
  if (971 <? e) || ((e =? 971) && (2 ^ 53 <=? m)) then None else Some (m, e).

(** The Number that a numeric literal denoting [q] is read as. *)
Definition nearest_double (q : Q) : number :=
  match Qnum q with
  | Z0 => Finite 0
  | Zpos n =>
    match nearest_double_pos (Zpos n) (Zpos (Qden q)) with
    | Some (m, e) => Finite (Qred (inject_Z m * pow2 e))
    | None => Infinite false
    end
  | Zneg n =>
    match nearest_double_pos (Zpos n) (Zpos (Qden q)) with
    | Some (m, e) => Finite (Qred (- (inject_Z m * pow2 e)))
    | None => Infinite true
    end
  end.

(** [a < b] on Numbers: false when one of them is NaN. *)
Definition number_lt (a b : number) : bool :=
  match a, b with
  | NaN, _ | _, NaN => false
  | Finite x, Finite y => negb (Qle_bool y x)
  | Finite _, Infinite neg => negb neg
  | Infinite neg, Finite _ => neg
  | Infinite n1, Infinite n2 => n1 && negb n2
  end.

(** [Math.min(a, b)] and [Math.max(a, b)] *)
Definition Math_min (a b : number) : number :=
  match a, b with
  | NaN, _ | _, NaN => NaN
  | _, _ => if number_lt b a then b else a
  end.

Definition Math_max (a b : number) : number :=
  match a, b with
  | NaN, _ | _, NaN => NaN
  | _, _ => if number_lt a b then b else a
  end.

(** *** Number::toString (radix 10)

    The digits are the fewest that read back as the same double, and of
    these the nearest to it (ECMA-262, Number::toString, with the choice
    of note 2, which V8 makes). *)

(** The [n] with [10^(n-1) <= q < 10^n], for a positive rational: counted
    up from an underestimate, [log2 q * log10 2 - 1] rounded down. *)
Fixpoint decimal_exponent_from (fuel : nat) (n : Z) (q : Q) : Z :=
  match fuel with
  | O => n
  | S f => if Qle_bool (pow10 n) q then decimal_exponent_from f (n + 1) q else n
  end.

Definition decimal_exponent (q : Q) : Z :=
  let l := Z.log2 (Qnum q) - Z.log2 (Zpos (Qden q)) - 1 in
  decimal_exponent_from 8 (l * 30103 / 100000 - 1) q.

Definition reads_back (q : Q) (x : Q) : bool :=
  match nearest_double x with
  | Finite d => Qeq_bool d q
  | _ => false
  end.

(** The [s] of [k] digits with [s * 10^(n-k)] nearest to [q] among those
    that read back as [q], if there is one. *)
Definition digits_at (q : Q) (n k : Z) : option Z :=
  let scale := pow10 (n - k) in
  let lo := Qfloor (q / scale) in
  let hi := lo + 1 in
  match reads_back q (inject_Z lo * scale), reads_back q (inject_Z hi * scale) with
  | true, true =>
    let dl := (q - inject_Z lo * scale)%Q in
    let dh := (inject_Z hi * scale - q)%Q in
    if Qle_bool dl dh then
      if Qle_bool dh dl then Some (if Z.even lo then lo else hi) else Some lo
    else Some hi
  | true, false => Some lo
  | false, true => Some hi
  | false, false => None
  end.

Fixpoint shortest_from (fuel : nat) (q : Q) (n k : Z) : Z * Z :=
  match fuel with
  | O => (Qfloor (q / pow10 (n - k)), k)
  | S f =>
    match digits_at q n k with
    | Some s => (s, k)
    | None => shortest_from f q n (k + 1)
    end
  end.

Definition zeros (n : Z) : jsstr := repeat 48%N (Z.to_nat n).

Definition exponent_part (e : Z) : jsstr :=
  101%N :: (if e <? 0 then 45%N else 43%N) :: string_of_N (Z.to_N (Z.abs e)).

(** The text of the positive double [q]. *)
Definition positive_toString (q : Q) : jsstr :=
  let n0 := decimal_exponent q in
  let (s0, k0) := shortest_from 17 q n0 1 in
  (* [s0 = 10^k0] is the digit 1 one place higher *)
  let '(s, k, n) := if s0 =? 10 ^ k0 then (1, 1, n0 + 1) else (s0, k0, n0) in
  let ds := string_of_N (Z.to_N s) in
  if (k <=? n) && (n <=? 21) then ds ++ zeros (n - k)
  else if (0 <? n) && (n <=? 21) then
    firstn (Z.to_nat n) ds ++ 46%N :: skipn (Z.to_nat n) ds
  else if (-6 <? n) && (n <=? 0) then
    48%N :: 46%N :: zeros (- n) ++ ds
  else
    match ds with
    | [d] => d :: exponent_part (n - 1)
    | d :: r => d :: 46%N :: r ++ exponent_part (n - 1)
    | [] => []
    end.

Definition Number_toString (x : number) : jsstr :=
  match x with
  | NaN => lit "NaN"
  | Infinite neg => (if neg then [45%N] else []) ++ lit "Infinity"
  | Finite q =>
    match Qnum q with
    | Z0 => lit "0"
    | Zpos _ => positive_toString q
    | Zneg _ => 45%N :: positive_toString (- q)%Q
    end
  end.

(** *** StringToNumber: the StringNumericLiteral grammar *)

Definition digit_in (base : Z) (c : N) : option Z :=
  let v := if is_digit c then Some (Z.of_N c - 48)
           else if between 97 102 c then Some (Z.of_N c - 87)
           else if between 65 70 c then Some (Z.of_N c - 55)
           else None in
  match v with
  | Some d => if d <? base then Some d else None
  | None => None
  end.

Fixpoint integer_in (base : Z) (acc : Z) (s : jsstr) : option Z :=
  match s with
  | [] => Some acc
  | c :: r =>
    match digit_in base c with
    | Some d => integer_in base (acc * base + d) r
    | None => None
    end
  end.

(** DecimalDigits [.] DecimalDigits? ExponentPart? and the like *)
Definition unsigned_decimal (s : jsstr) : option Q :=
  let (ip, r1) := span_digits s in
  let (fp, r2) := match r1 with
                  | 46%N :: r => span_digits r
                  | _ => ([], r1)
                  end in
  match ip ++ fp with
  | [] => None
  | ds =>
    let expo :=
      match r2 with
      | [] => Some 0
      | e :: r =>
        if N.eqb e 101 || N.eqb e 69 then
          let (eneg, r') := match r with
                            | 45%N :: r' => (true, r')
                            | 43%N :: r' => (false, r')
                            | _ => (false, r)
                            end in
          let (ep, r'') := span_digits r' in
          match ep, r'' with
          | _ :: _, [] => Some (if eneg then - Z_of_digits ep else Z_of_digits ep)
          | _, _ => None
          end
        else None
      end in
    match expo with
    | Some ex => Some (scale10 (Z_of_digits ds) (ex - Z.of_nat (length fp)))
    | None => None
    end
  end.

Definition StringToNumber (s : jsstr) : number :=
  match trim s with
  | [] => Finite 0
  | 48%N :: p :: d :: ds =>
    let base := if N.eqb p 120 || N.eqb p 88 then Some 16
                else if N.eqb p 111 || N.eqb p 79 then Some 8
                else if N.eqb p 98 || N.eqb p 66 then Some 2
                else None in
    match base with
    | Some b =>
      match integer_in b 0 (d :: ds) with
      | Some z => nearest_double (inject_Z z)
      | None => NaN
      end
    | None =>
      match unsigned_decimal (48%N :: p :: d :: ds) with
      | Some q => nearest_double q
      | None => NaN
      end
    end
  | t =>
    let (neg, r) := match t with
                    | 45%N :: r => (true, r)
                    | 43%N :: r => (false, r)
                    | _ => (false, t)
                    end in
    if str_eqb r (lit "Infinity") then Infinite neg
    else match unsigned_decimal r with
         | Some q => nearest_double (if neg then (- q)%Q else q)
         | None => NaN
         end
  end.

(** ** Conversions of the values that JSON.parse builds *)

Definition has_own (kvs : list (jsstr * json)) (k : jsstr) : bool :=
  match lookup_last kvs k with
  | Some _ => true
  | None => false
  end.

(** ToString, which is also ToPrimitive on an array or an object. An
    array is joined with commas, with nothing for [null]; an object
    is [[object Object]]. [None]: the conversion throws a TypeError, which it
    does for an object with a member [toString] (no function, so the
    inherited [valueOf] is called, and returns the object itself). *)
Fixpoint ToString (v : json) : option jsstr :=
  match v with
  | JNull => Some (lit "null")
  | JBool b => Some (if b then lit "true" else lit "false")
  | JNum q => Some (Number_toString (nearest_double q))
  | JStr s => Some s
  | JArr l =>
    (fix join (l : list json) : option jsstr :=
       match l with
       | [] => Some []
       | x :: r =>
         match match x with JNull => Some [] | _ => ToString x end, join r with
         | Some a, Some b => Some (a ++ match r with [] => b | _ => 44%N :: b end)
         | _, _ => None
         end
       end) l
  | JObj kvs =>
    if has_own kvs (lit "toString") then None else Some (lit "[object Object]")
  end.

(** ToNumber; [None] as for [ToString]. *)
Definition ToNumber (v : json) : option number :=
  match v with
  | JNull => Some (Finite 0)
  | JBool b => Some (Finite (if b then 1 else 0))
  | JNum q => Some (nearest_double q)
  | JStr s => Some (StringToNumber s)
  | _ => option_map StringToNumber (ToString v)
  end.

(** ** JSON.stringify, as the receiver reads it back *)

Definition json_of_number (x : number) : json :=
  match x with
  | Finite q => JNum q
  | _ => JNull
  end.

(** An array index: a canonical numeric string below [2^32 - 1]. *)
Definition array_index (k : jsstr) : option Z :=
  match k with
  | [] => None
  | c :: r =>
    if forallb is_digit k && (negb (N.eqb c 48) || Nat.eqb (length r) 0)
       && Nat.leb (length k) 10 && (Z_of_digits k <? 2 ^ 32 - 1)
    then Some (Z_of_digits k) else None
  end.

(** The members of an object in the order of its own property keys: the
    array indices ascending, then the other names in the order in which
    they were first added; a name that was given twice keeps its last
    value. *)
Fixpoint first_added (kvs : list (jsstr * json)) (seen : list jsstr) : list jsstr :=
  match kvs with
  | [] => []
  | (k, _) :: r =>
    if existsb (str_eqb k) seen then first_added r seen
    else k :: first_added r (k :: seen)
  end.

Definition index_cmp (a b : jsstr) : Z :=
  match array_index a, array_index b with
  | Some x, Some y => x - y
  | Some _, None => -1
  | None, Some _ => 1
  | None, None => 0
  end.

Definition own_properties (kvs : list (jsstr * json)) : list (jsstr * json) :=
  flat_map (fun k => match lookup_last kvs k with
                     | Some v => [(k, v)]
                     | None => []
                     end)
           (Array_sort index_cmp (first_added kvs [])).

(** [JSON.parse(JSON.stringify(v))]: what a client reads of a value that
    a handler sends. A number that is no finite double is sent as
    [null]. *)
Fixpoint sent (v : json) : json :=
  match v with
  | JNum q => json_of_number (nearest_double q)
  | JArr l => JArr (map sent l)
  | JObj kvs => JObj (own_properties (map (fun kv => (fst kv, sent (snd kv))) kvs))
  | _ => v
  end.

(** Test texts are written with an apostrophe wherever the JSON text has
    a double quote. *)
Definition quoted (s : string) : jsstr :=
  map (fun c => if N.eqb c 39 then 34%N else c) (lit s).

End JS.

Import JS.

(* ===================================================================== *)
(** * POST /api/ai/parse-todo  (src/unnamed/part_001) *)
(* ===================================================================== *)

Module ParseTodo.

(** The members of the draft that the handler sends with
    [NextResponse.json(validatedData)], as the client reads them. *)
Record TaskDraft := {
  title : json;
  description : json;
  due_date : json;
  due_time : json;
  priority : json;
  status : json;
  tags : json
}.

(** What the handler answers: the draft, or
    [NextResponse.json({ error, code }, { status })]. *)
Inductive response :=
| Ok (d : TaskDraft)
| Fail (http : Z) (error : jsstr) (code : option jsstr).

(** [interface ParsedTodoData]: the members of the parsed reply that the
    handler reads. The interface gives them types, but the reply is
    whatever [JSON.parse] returned, so each member is any JSON value, or
    [None] for [undefined]. *)
Record ParsedTodoData := {
  data_title : option json;
  data_description : option json;
  data_due_date : option json;
  data_due_time : option json;
  data_priority : option json;
  data_tags : option json
}.

(** What one request does: the answer, and the preprocessed inputs that
    were sent to the model (none, or one). *)
Record run := {
  result : response;
  model_calls : list jsstr
}.

(** What [await request.json()] does: it throws ([Some msg] for an
    [Error] with that message, as for a body that is no JSON text) or it
    returns the parsed body. *)
Inductive request_json :=
| JsonThrows (msg : option jsstr)
| JsonValue (v : json).

(** What [generateText] does when it is called: it throws ([Some msg] for
    an [Error] with that message, [None] for any other thrown value) or
    it returns the model's text. *)
Inductive ai_result :=
| AiThrows (msg : option jsstr)
| AiText (text : jsstr).

(** The TypeErrors that the statements of the handler can throw on a
    request body or a reply of any shape. *)
Inductive type_error :=
| DestructureNull                             (* [const { input } = null] *)
| ReadOfNull (name : jsstr)                   (* [null.title] *)
| CreateProperty (name : jsstr) (on : json)   (* a member of a number, a string or a boolean is assigned to (strict mode) *)
| NotAFunction (callee : jsstr)               (* [data.title.substring] is [undefined] *)
| NotPrimitive.                               (* ToPrimitive of an object with a member [toString] *)

(** A computation that returns or throws. *)
Inductive step (A : Type) :=
| Returns (a : A)
| Throws (e : type_error).

Arguments Returns {A} a.
Arguments Throws {A} e.

Definition bind {A B} (m : step A) (f : A -> step B) : step B :=
  match m with
  | Returns a => f a
  | Throws e => Throws e
  end.

Notation "x <- m ;; f" := (bind m (fun x => f))
  (at level 61, m at next level, right associativity).

(** ** validateInput *)

Inductive validation :=
| Valid
| Invalid (error code : jsstr).

Definition meaningfulText (input : jsstr) : jsstr :=
  filter (fun c => negb (is_space c)) input.

(** [input] is [None] for [null] and [undefined]. *)
Definition validateInput (input : option jsstr) : validation :=
  match input with
  | None => Invalid (lit "입력 텍스트가 필요합니다.") (lit "MISSING_INPUT")
  | Some s =>
    if Nat.eqb (length s) 0 then
      Invalid (lit "내용을 입력해 주세요.") (lit "EMPTY_INPUT")
    else if Nat.eqb (length (meaningfulText s)) 0 then
      Invalid (lit "내용을 입력해 주세요.") (lit "INVALID_CONTENT")
    else if Nat.ltb (length (meaningfulText s)) 2 then
      Invalid (lit "입력 텍스트는 최소 2자 이상이어야 합니다.") (lit "TOO_SHORT")
    else if Nat.ltb 500 (length s) then
      Invalid (lit "입력 텍스트는 최대 500자까지 입력 가능합니다.") (lit "TOO_LONG")
    else Valid
  end.

(** ** Dates *)

(** Days from 1970-01-01 to the given day of the proleptic Gregorian
    calendar (ECMA-262 MakeDay, for a month in 1..12). *)
Definition days_from_civil (y m d : Z) : Z :=
  let y' := if m <=? 2 then y - 1 else y in
  let era := y' / 400 in
  let yoe := y' - era * 400 in
  let mp := (m + 9) mod 12 in
  let doy := (153 * mp + 2) / 5 + d - 1 in
  let doe := yoe * 365 + yoe / 4 - yoe / 100 + doy in
  era * 146097 + doe - 719468.

Definition num2 (a b : N) : Z := Z.of_N ((a - 48) * 10 + (b - 48)).

(** [Date.parse] of a string of the form dddd-dd-dd, as V8 reads the
    date-only form: month 01..12, day 01..31 (a day past the end of the
    month runs into the next one), midnight UTC, in milliseconds; [None]
    is NaN. *)
Definition Date_parse_ymd (s : jsstr) : option Z :=
  match s with
  | [y1; y2; y3; y4; _; m1; m2; _; d1; d2] =>
    let y := num2 y1 y2 * 100 + num2 y3 y4 in
    let m := num2 m1 m2 in
    let d := num2 d1 d2 in
    if dateRegex s && (1 <=? m) && (m <=? 12) && (1 <=? d) && (d <=? 31)
    then Some ((days_from_civil y m 1 + d - 1) * 86400000)
    else None
  | _ => None
  end.

(** [a < b] on two time values, false when one of them is NaN. *)
Definition time_lt (a b : option Z) : bool :=
  match a, b with
  | Some x, Some y => x <? y
  | _, _ => false
  end.

(** TimeClip of a Number: the time value of [new Date(x)]. *)
Definition TimeClip (x : number) : option Z :=
  match x with
  | Finite q =>
    if Qle_bool (Qabs q) (inject_Z 8640000000000000)
    then Some (Z.quot (Qnum q) (Zpos (Qden q)))
    else None
  | _ => None
  end.

Section Handler.

(** [String.prototype.toLowerCase]: the Unicode case mapping. *)
Variable toLowerCase : jsstr -> jsstr.

(** [Date.parse] on every string that is not of the form dddd-dd-dd: the
    other forms of the ECMA-262 date-time format and whatever else the
    engine accepts, read in the server's time zone. *)
Variable Date_parse_other : jsstr -> option Z.

(** The [message] that the engine gives to a TypeError. *)
Variable message : type_error -> jsstr.

Definition Date_parse (s : jsstr) : option Z :=
  if dateRegex s then Date_parse_ymd s else Date_parse_other s.

(** The time value of [new Date(v)]: a string is parsed, an array or an
    object is first turned into one, any other value into a Number. *)
Definition Date_of (v : json) : step (option Z) :=
  match v with
  | JStr s => Returns (Date_parse s)
  | JArr _ | JObj _ =>
    match ToString v with
    | Some s => Returns (Date_parse s)
    | None => Throws NotPrimitive
    end
  | _ =>
    match ToNumber v with
    | Some x => Returns (TimeClip x)
    | None => Throws NotPrimitive
    end
  end.

(** ** preprocessInput *)

(** [replace(/\s+/g, ' ')] *)
Fixpoint collapse_spaces (after_space : bool) (s : jsstr) : jsstr :=
  match s with
  | [] => []
  | c :: r =>
    if is_space c then
      if after_space then collapse_spaces true r
      else 32%N :: collapse_spaces true r
    else c :: collapse_spaces false r
  end.

(** [char.toUpperCase()] for a [\w] character. *)
Definition upper_word_char (c : N) : N :=
  if between 97 122 c then (c - 32)%N else c.

(** [replace(/\b\w/g, char => char.toUpperCase())] *)
Fixpoint capitalize (after_word : bool) (s : jsstr) : jsstr :=
  match s with
  | [] => []
  | c :: r =>
    (if is_word c && negb after_word then upper_word_char c else c)
      :: capitalize (is_word c) r
  end.

(** The characters that the last pattern of [preprocessInput] keeps. *)
Definition kept_char (c : N) : bool :=
  is_word c || is_space c
  || between 44032 55203 c        (* 가-힣 *)
  || between 12593 12622 c        (* ㄱ-ㅎ *)
  || between 12623 12643 c        (* ㅏ-ㅣ *)
  || existsb (N.eqb c) (lit ".,!?@#$%^&*()_+-=[]{}|;':\,.<>/?~`")
  || N.eqb c 34.                  (* the double quote *)

Definition preprocessInput (input : jsstr) : jsstr :=
  let processed := trim input in
  let processed := collapse_spaces false processed in
  let processed := capitalize false (toLowerCase processed) in
  filter kept_char processed.

(** ** postprocessData *)

(** ToNumber of a value that may be [undefined]. *)
Definition to_number (v : option json) : step number :=
  match v with
  | None => Returns NaN
  | Some x =>
    match ToNumber x with
    | Some n => Returns n
    | None => Throws NotPrimitive
    end
  end.

(** [v < n] and [v > n] for a number [n]. *)
Definition less_than (v : option json) (n : Q) : step bool :=
  x <- to_number v ;; Returns (number_lt x (Finite n)).

Definition greater_than (v : option json) (n : Q) : step bool :=
  x <- to_number v ;; Returns (number_lt (Finite n) x).

(** [v.length > n] and [v.length < n] for a truthy [v]: the length of a
    string or an array, the member [length] of an object, [undefined]
    for a number and for [true]. *)
Definition length_gt (v : json) (n : nat) : step bool :=
  match v with
  | JStr s => Returns (Nat.ltb n (length s))
  | JArr l => Returns (Nat.ltb n (length l))
  | JObj _ => greater_than (get v (lit "length")) (inject_Z (Z.of_nat n))
  | _ => Returns false
  end.

Definition length_lt (v : json) (n : nat) : step bool :=
  match v with
  | JStr s => Returns (Nat.ltb (length s) n)
  | JArr l => Returns (Nat.ltb (length l) n)
  | JObj _ => less_than (get v (lit "length")) (inject_Z (Z.of_nat n))
  | _ => Returns false
  end.

Definition clean_tags (l : list json) : list json :=
  firstn 3
    (map (fun t => match t with JStr s => JStr (trim s) | _ => t end)
       (filter (fun t => match t with
                         | JStr s => Nat.ltb 0 (length (trim s))
                         | _ => false
                         end) l)).

(** The two statements on [data.title]. *)
Definition shorten_title (t : option json) : step (option json) :=
  match t with
  | Some v =>
    if truthy t then
      long <- length_gt v 200 ;;
      if long then
        match v with
        | JStr s => Returns (Some (JStr (substring0 200 s ++ lit "...")))
        | _ => Throws (NotAFunction (lit "data.title.substring"))
        end
      else Returns t
    else Returns t
  | None => Returns t
  end.

Definition replace_short_title (t : option json) : step (option json) :=
  match t with
  | Some v =>
    if truthy t then
      short <- length_lt v 2 ;;
      Returns (if short then Some (JStr (lit "새 할 일")) else t)
    else Returns t
  | None => Returns t
  end.

(** The statement on [data.due_date]. A number, a string or a boolean
    has no member [due_date], and the assignment to it throws; an array
    has none either and takes the assignment. *)
Definition adjust_due_date (today : jsstr) (data : json) : step json :=
  let d := get data (lit "due_date") in
  match d with
  | Some v =>
    if truthy d then
      inputDate <- Date_of v ;;
      Returns (if time_lt inputDate (Date_parse today) then JStr today else v)
    else Returns (JStr today)
  | None =>
    match data with
    | JArr _ | JObj _ => Returns (JStr today)
    | _ => Throws (CreateProperty (lit "due_date") data)
    end
  end.

(** The statement on [data.priority]. *)
Definition adjust_priority (p : option json) : step (option json) :=
  if truthy p then
    low <- less_than p 1 ;;
    if low then Returns (Some (JNum 2))
    else
      high <- greater_than p 3 ;;
      Returns (if high then Some (JNum 2) else p)
  else Returns p.

(** The statement on [data.tags]. *)
Definition adjust_tags (t : option json) : json :=
  match t with
  | Some (JArr l) => JArr (clean_tags l)
  | _ => JArr []
  end.

(** [data] is what [JSON.parse] returned; reading a member of [null]
    throws. The result holds the members of [data] after the
    assignments. *)
Definition postprocessData (today : jsstr) (data : json) : step ParsedTodoData :=
  match data with
  | JNull => Throws (ReadOfNull (lit "title"))
  | _ =>
    title1 <- shorten_title (get data (lit "title")) ;;
    title2 <- replace_short_title title1 ;;
    due <- adjust_due_date today data ;;
    prio <- adjust_priority (get data (lit "priority")) ;;
    Returns {| data_title := title2;
               data_description := get data (lit "description");
               data_due_date := Some due;
               data_due_time := get data (lit "due_time");
               data_priority := prio;
               data_tags := Some (adjust_tags (get data (lit "tags"))) |}
  end.

(** ** POST *)

Definition any_includes (m : jsstr) (ps : list jsstr) : bool :=
  existsb (includes m) ps.

(** The [catch] block around the whole handler. *)
Definition on_throw (msg : option jsstr) : response :=
  match msg with
  | Some m =>
    if any_includes m [lit "quota"; lit "rate limit"; lit "429"] then
      Fail 429 (lit "AI 서비스 사용량이 초과되었습니다. 잠시 후 다시 시도해주세요.")
           (Some (lit "RATE_LIMIT_EXCEEDED"))
    else if any_includes m [lit "API_KEY"; lit "authentication"; lit "401"] then
      Fail 401 (lit "AI 서비스 인증에 실패했습니다.")
           (Some (lit "AUTHENTICATION_FAILED"))
    else if includes m (lit "JSON") then
      Fail 500 (lit "AI 응답을 처리할 수 없습니다. 다시 시도해주세요.")
           (Some (lit "PARSE_ERROR"))
    else if any_includes m [lit "network"; lit "timeout"; lit "fetch"] then
      Fail 500 (lit "네트워크 연결에 문제가 있습니다. 잠시 후 다시 시도해주세요.")
           (Some (lit "NETWORK_ERROR"))
    else
      Fail 500 (lit "AI 처리 중 오류가 발생했습니다. 잠시 후 다시 시도해주세요.")
           (Some (lit "INTERNAL_ERROR"))
  | None =>
    Fail 500 (lit "AI 처리 중 오류가 발생했습니다. 잠시 후 다시 시도해주세요.")
         (Some (lit "INTERNAL_ERROR"))
  end.

(** [re.test(v)]: the pattern is tried on the text of the value. *)
Definition regex_test (re : jsstr -> bool) (v : json) : step bool :=
  match ToString v with
  | Some s => Returns (re s)
  | None => Throws NotPrimitive
  end.

(** Step 5 of the handler: from the postprocessed reply to the members
    of the answer. *)
Definition validatedData (today processedInput : jsstr)
    (postprocessedData : ParsedTodoData) : step TaskDraft :=
  let title0 := or_else (data_title postprocessedData) (JStr (trim processedInput)) in
  let description0 := or_else (data_description postprocessedData) (JStr []) in
  let due0 := or_else (data_due_date postprocessedData) (JStr today) in
  let time0 := or_else (data_due_time postprocessedData) JNull in
  p <- to_number (Some (or_else (data_priority postprocessedData) (JNum 2))) ;;
  let priority0 := Math_max (Finite 1) (Math_min (Finite 3) p) in
  let tags0 := or_else (data_tags postprocessedData) (JArr []) in
  date_ok <- regex_test dateRegex due0 ;;
  let due1 := if date_ok then due0 else JStr today in
  time1 <- (if truthy (Some time0) then
              time_ok <- regex_test timeRegex time0 ;;
              Returns (if time_ok then time0 else JNull)
            else Returns time0) ;;
  Returns {| title := sent title0;
             description := sent description0;
             due_date := sent due1;
             due_time := sent time1;
             priority := json_of_number priority0;
             status := JStr (lit "pending");
             tags := sent tags0 |}.

(** [jsonMatch ? jsonMatch[0] : text] *)
Definition jsonString (text : jsstr) : jsstr :=
  match match_braces text with
  | Some m => m
  | None => text
  end.

(** [apiKey]: whether GOOGLE_GENERATIVE_AI_API_KEY is set. [body]: what
    [await request.json()] does. [today]:
    [new Date().toISOString().split('T')[0]]. [ai]: what [generateText]
    does if it is called. *)
Definition POST (apiKey : bool) (body : request_json) (today : jsstr)
    (ai : ai_result) : run :=
  if negb apiKey then
    {| result := Fail 500 (lit "Google AI API 키가 설정되지 않았습니다.") None;
       model_calls := [] |}
  else
    match body with
    | JsonThrows msg => {| result := on_throw msg; model_calls := [] |}
    | JsonValue JNull =>
      {| result := on_throw (Some (message DestructureNull)); model_calls := [] |}
    | JsonValue b =>
      match get b (lit "input") with
      | Some (JStr (c :: s)) =>
        let input : jsstr := c :: s in
        match validateInput (Some input) with
        | Invalid e code =>
          {| result := Fail 400 e (Some code); model_calls := [] |}
        | Valid =>
          let processedInput := preprocessInput input in
          {| model_calls := [processedInput];
             result :=
               match ai with
               | AiThrows msg => on_throw msg
               | AiText text =>
                 match JSON_parse (jsonString text) with
                 | None => Fail 500 (lit "AI 응답을 파싱할 수 없습니다.") None
                 | Some parsedData =>
                   match (postprocessedData <- postprocessData today parsedData ;;
                          validatedData today processedInput postprocessedData) with
                   | Returns d => Ok d
                   | Throws e => on_throw (Some (message e))
                   end
                 end
               end |}
        end
      | _ =>
        (* [!input || typeof input !== 'string'] *)
        {| result := Fail 400 (lit "입력 텍스트가 필요합니다.")
                          (Some (lit "MISSING_INPUT"));
           model_calls := [] |}
      end
    end.

End Handler.

(** [toLowerCase] on strings of ASCII and Hangul, used to run the handler
    on such inputs. *)
Definition toLowerCase_ascii (s : jsstr) : jsstr :=
  map (fun c => if between 65 90 c then (c + 32)%N else c) s.

(** An engine that reads no other date format than dddd-dd-dd. *)
Definition no_other_dates (s : jsstr) : option Z := None.

(** The messages of V8. *)
Definition typeof (v : json) : jsstr :=
  match v with
  | JNum _ => lit "number"
  | JStr _ => lit "string"
  | JBool _ => lit "boolean"
  | _ => lit "object"
  end.

Definition v8_message (e : type_error) : jsstr :=
  match e with
  | DestructureNull =>
    lit "Cannot destructure property 'input' of '(intermediate value)' as it is null."
  | ReadOfNull name =>
    lit "Cannot read properties of null (reading '" ++ name ++ lit "')"
  | CreateProperty name on =>
    lit "Cannot create property '" ++ name ++ lit "' on " ++ typeof on
    ++ lit " '" ++ match ToString on with Some s => s | None => [] end ++ lit "'"
  | NotAFunction callee => callee ++ lit " is not a function"
  | NotPrimitive => lit "Cannot convert object to primitive value"
  end.

Definition POST0 := POST toLowerCase_ascii no_other_dates v8_message.

End ParseTodo.

(* ===================================================================== *)
(** * POST /api/ai/summary  (src/unnamed/part_002) *)
(* ===================================================================== *)

Module Summary.

(** [CREATE TYPE todo_status AS ENUM ('pending', 'completed')] *)
Inductive todo_status := pending | completed.

Definition status_eqb (a b : todo_status) : bool :=
  match a, b with
  | pending, pending => true
  | completed, completed => true
  | _, _ => false
  end.

(** A row of the [todos] table as the store returns it. *)
Record Todo := {
  id : jsstr;
  user_id : jsstr;
  title : jsstr;
  description : option jsstr;
  due_date : option jsstr;
  status : todo_status;
  priority : Z;
  created_at : jsstr;
  updated_at : jsstr;
  tags : option (list jsstr)
}.

Record response := {
  http : Z;
  body : json
}.

Inductive ai_result :=
| AiThrows (msg : option jsstr)
| AiText (text : jsstr).

(** ** Numbers *)

(** An array length as a double; the conversion is exact for every
    length an array can have (below 2^32). *)
Definition float_of_nat (n : nat) : float :=
  PrimFloat.of_uint63 (Uint63.of_Z (Z.of_nat n)).

(** [Math.round(x)]: the integer nearest to [x], the upper one of two
    equally near. The argument is a finite double [±m·2^e] wherever the
    handler calls it (a quotient by a positive length, times 100). *)
Definition Math_round (x : float) : Z :=
  match Prim2SF x with
  | S754_finite s m e =>
    let v := if s then Z.neg m else Z.pos m in
    if 0 <=? e then Z.shiftl v e
    else (* floor (v·2^e + 1/2) *)
      Z.shiftr (2 * v + Z.shiftl 1 (- e)) (1 - e)
  | _ => 0
  end.

(** [Math.round((a / b) * 100)] on two array lengths, in double
    precision as the source computes it. *)
Definition percent (a b : nat) : Z :=
  Math_round (PrimFloat.mul (PrimFloat.div (float_of_nat a) (float_of_nat b)) 100%float).

(** [b > 0 ? Math.round((a / b) * 100) : 0] *)
Definition rate (a b : nat) : Z :=
  if Nat.ltb 0 b then percent a b else 0.

(** ** The lists derived from the rows *)

Definition is_completed (t : Todo) : bool := status_eqb (status t) completed.
Definition is_pending (t : Todo) : bool := status_eqb (status t) pending.

Definition completedTodos (todos : list Todo) : list Todo := filter is_completed todos.
Definition pendingTodos (todos : list Todo) : list Todo := filter is_pending todos.
Definition urgentTodos (todos : list Todo) : list Todo :=
  filter (fun t => priority t =? 1) todos.

Definition completionRate (todos : list Todo) : Z :=
  rate (length (completedTodos todos)) (length todos).

(** [{ title, priority, due_date, tags: todo.tags || [] }] *)
Definition item (t : Todo) : json :=
  JObj [ (lit "title", JStr (title t));
         (lit "priority", JNum (inject_Z (priority t)));
         (lit "due_date", match due_date t with
                          | Some d => JStr d
                          | None => JNull
                          end);
         (lit "tags", JArr (map JStr (match tags t with
                                      | Some l => l
                                      | None => []
                                      end))) ].

Definition by_priority (a b : Todo) : Z := priority a - priority b.

(** [pendingTodos.sort(...)] sorts the array in place: from here on
    [pendingTodos] is this sorted array, and [focusTasks] below filters
    it. *)
Definition sortedPending (todos : list Todo) : list Todo :=
  Array_sort by_priority (pendingTodos todos).

Definition remainingTodos (todos : list Todo) : list json :=
  map item (sortedPending todos).

Definition dueToday (today : jsstr) (t : Todo) : bool :=
  match due_date t with
  | Some d => str_eqb d today
  | None => false
  end.

Definition focus_order (today : jsstr) (a b : Todo) : Z :=
  if dueToday today a && negb (dueToday today b) then -1
  else if dueToday today b && negb (dueToday today a) then 1
  else priority a - priority b.

Section Handler.

(** [new Date(s).getTime()] for the timestamps of the rows; [None] is
    NaN. *)
Variable Date_parse : jsstr -> option Z.

(** [a <= b] and [a > b] on two time values, false when one is NaN. *)
Definition time_le (a b : option Z) : bool :=
  match a, b with
  | Some x, Some y => x <=? y
  | _, _ => false
  end.

Definition time_gt (a b : option Z) : bool :=
  match a, b with
  | Some x, Some y => y <? x
  | _, _ => false
  end.

Definition nonempty (s : jsstr) : bool :=
  match s with [] => false | _ => true end.

(** [now] is [Date.now()]. *)
Definition isDueSoon (now : Z) (t : Todo) : bool :=
  match due_date t with
  | Some d => nonempty d && time_le (Date_parse d) (Some (now + 2 * 24 * 60 * 60 * 1000))
  | None => false
  end.

Definition focus_filter (now : Z) (today : jsstr) (t : Todo) : bool :=
  let isHighPriority := priority t =? 1 in
  let isDueToday := dueToday today t in
  isHighPriority || isDueToday || isDueSoon now t.

Definition focusTodos (now : Z) (today : jsstr) (todos : list Todo) : list Todo :=
  firstn 5 (Array_sort (focus_order today)
              (filter (focus_filter now today) (sortedPending todos))).

Definition focusTasks (now : Z) (today : jsstr) (todos : list Todo) : list json :=
  map item (focusTodos now today todos).

Definition onTimeTodos (todos : list Todo) : list Todo :=
  filter (fun t =>
            match due_date t with
            | Some (c :: d) =>
              let completedDate :=
                if nonempty (updated_at t) then updated_at t else created_at t in
              time_le (Date_parse completedDate) (Date_parse (c :: d))
            | _ => true
            end) (completedTodos todos).

Definition deadlineComplianceRate (todos : list Todo) : Z :=
  rate (length (onTimeTodos todos)) (length (completedTodos todos)).

Definition postponedTodos (todos : list Todo) : list Todo :=
  filter (fun t =>
            match due_date t with
            | Some (c :: d) =>
              nonempty (updated_at t)
              && time_gt (Date_parse (updated_at t)) (Date_parse (created_at t))
              && negb (is_completed t)
              && time_gt (Date_parse (updated_at t)) (Date_parse (c :: d))
            | _ => false
            end) todos.

Definition postponementRate (todos : list Todo) : Z :=
  rate (length (postponedTodos todos)) (length todos).

(** The members of [analysisData] that reach the answer; the others only
    reach the prompt. *)
Record AnalysisData := {
  period_label : jsstr;
  totalTasks : Z;
  completedTasks : Z;
  a_completionRate : Z;
  completionRateChange : Z;
  a_deadlineComplianceRate : Z;
  a_postponementRate : Z
}.

Definition analysisData (is_today : bool) (todos previousTodos : list Todo) : AnalysisData :=
  {| period_label := if is_today then lit "오늘" else lit "이번 주";
     totalTasks := Z.of_nat (length todos);
     completedTasks := Z.of_nat (length (completedTodos todos));
     a_completionRate := completionRate todos;
     completionRateChange := completionRate todos - completionRate previousTodos;
     a_deadlineComplianceRate := deadlineComplianceRate todos;
     a_postponementRate := postponementRate todos |}.

(** ** The answer *)

Definition fail (st : Z) (error : jsstr) (code : option jsstr) : response :=
  {| http := st;
     body := JObj ((lit "error", JStr error)
                   :: match code with
                      | Some c => [(lit "code", JStr c)]
                      | None => []
                      end) |}.

(** The [catch] block around the whole handler. *)
Definition on_throw (msg : option jsstr) : response :=
  match msg with
  | Some m =>
    if existsb (includes m) [lit "quota"; lit "rate limit"; lit "429"] then
      fail 429 (lit "AI 서비스 사용량이 초과되었습니다. 잠시 후 다시 시도해주세요.")
           (Some (lit "RATE_LIMIT_EXCEEDED"))
    else if existsb (includes m) [lit "API_KEY"; lit "authentication"; lit "401"] then
      fail 401 (lit "AI 서비스 인증에 실패했습니다.")
           (Some (lit "AUTHENTICATION_FAILED"))
    else
      fail 500 (lit "AI 분석 중 오류가 발생했습니다. 잠시 후 다시 시도해주세요.")
           (Some (lit "INTERNAL_ERROR"))
  | None =>
    fail 500 (lit "AI 분석 중 오류가 발생했습니다. 잠시 후 다시 시도해주세요.")
         (Some (lit "INTERNAL_ERROR"))
  end.

(** The message of the TypeError that V8 throws for [parsedData.summary]
    when [parsedData] is [null]. *)
Definition null_access_message : jsstr :=
  lit "Cannot read properties of null (reading 'summary')".

Definition array_or (v : option json) (default : json) : json :=
  match v with
  | Some (JArr l) => JArr l
  | _ => default
  end.

(** [const validatedData = { ... }] for a [parsedData] that is not
    [null], as the handler holds it; [NextResponse.json] then sends it
    ([sent]). *)
Definition validatedData (a : AnalysisData) (remaining focus : list json)
    (parsedData : json) : json :=
  let num := string_of_Z in
  JObj [
    (lit "summary",
     or_else (get parsedData (lit "summary"))
       (JStr (period_label a ++ lit " 총 " ++ num (totalTasks a)
              ++ lit "개의 할 일 중 " ++ num (completedTasks a)
              ++ lit "개 완료 (" ++ num (a_completionRate a) ++ lit "%)")));
    (lit "urgentTasks", array_or (get parsedData (lit "urgentTasks")) (JArr []));
    (lit "remainingTodos", JArr remaining);
    (lit "focusTasks", JArr focus);
    (lit "completionAnalysis",
     or_else (get parsedData (lit "completionAnalysis"))
       (JObj [ (lit "rate", JStr (lit "완료율 " ++ num (a_completionRate a) ++ lit "%"));
               (lit "trend", JStr (if 0 <? completionRateChange a
                                   then lit "이전 기간 대비 향상"
                                   else lit "안정적인 수준 유지"));
               (lit "strengths", JStr (lit "꾸준한 진행을 보이고 있습니다")) ]));
    (lit "timeManagement",
     or_else (get parsedData (lit "timeManagement"))
       (JObj [ (lit "deadlineCompliance",
                JStr (lit "마감일 준수율 " ++ num (a_deadlineComplianceRate a) ++ lit "%"));
               (lit "postponementPattern",
                JStr (if 0 <? a_postponementRate a
                      then lit "일부 연기 발생" else lit "계획대로 진행"));
               (lit "productiveHours", JStr (lit "다양한 시간대에 고른 활동")) ]));
    (lit "productivityPatterns",
     or_else (get parsedData (lit "productivityPatterns"))
       (JObj [ (lit "bestPerformingAreas",
                JStr (lit "기본적인 할 일 관리를 잘하고 있습니다"));
               (lit "strugglingAreas",
                JStr (lit "더 많은 데이터로 패턴을 분석해보세요"));
               (lit "priorityEffectiveness",
                JStr (lit "우선순위 설정이 도움이 되고 있습니다")) ]));
    (lit "insights",
     array_or (get parsedData (lit "insights"))
       (JArr [JStr (lit "더 많은 할 일을 추가하시면 더 자세한 분석을 제공할 수 있습니다")]));
    (lit "recommendations",
     array_or (get parsedData (lit "recommendations"))
       (JArr [JStr (lit "꾸준히 할 일을 관리하고 있으니 계속 진행하세요")]));
    (lit "motivation",
     or_else (get parsedData (lit "motivation"))
       (JObj [ (lit "achievements",
                JStr (period_label a ++ lit " " ++ num (completedTasks a)
                      ++ lit "개의 할 일을 완료했습니다!"));
               (lit "encouragement", JStr (lit "꾸준한 노력이 보기 좋습니다"));
               (lit "nextSteps", JStr (lit "다음에도 이런 속도로 진행해보세요")) ]))
  ].

(** The answer for a period without rows. *)
Definition no_tasks (is_today : bool) : json :=
  JObj [
    (lit "summary", JStr (if is_today then lit "오늘 등록된 할 일이 없습니다."
                          else lit "이번 주 등록된 할 일이 없습니다."));
    (lit "urgentTasks", JArr []);
    (lit "insights", JArr [JStr (lit "새로운 할 일을 추가해보세요!")]);
    (lit "recommendations", JArr [JStr (lit "할 일을 추가하여 생산성을 높여보세요.")])
  ].

Definition jsonString (text : jsstr) : jsstr :=
  match match_braces text with
  | Some m => m
  | None => text
  end.

(** [period === 'today'], [period === 'week'], or neither. *)
Definition period_of (period : option json) : option bool :=
  match period with
  | Some (JStr s) =>
    if str_eqb s (lit "today") then Some true
    else if str_eqb s (lit "week") then Some false
    else None
  | _ => None
  end.

(** [apiKey]: whether GOOGLE_GENERATIVE_AI_API_KEY is set. [period]: the
    [period] member of the request body. [user]: the id of the session's
    user, [None] when there is no session or [getUser] fails. [current]
    and [previous]: the rows the store returns for the period and for the
    one before it, [None] when the query fails. [now] and [today]:
    [Date.now()] and [new Date().toISOString().split('T')[0]]. [ai]: what
    [generateText] does when it is called. *)
Definition POST (apiKey : bool) (period : option json) (user : option jsstr)
    (current previous : option (list Todo)) (now : Z) (today : jsstr)
    (ai : ai_result) : response :=
  if negb apiKey then
    fail 500 (lit "Google AI API 키가 설정되지 않았습니다.") None
  else
    match period_of period with
    | None =>
      fail 400 (lit "분석 기간이 필요합니다. (today 또는 week)")
           (Some (lit "INVALID_PERIOD"))
    | Some is_today =>
      match user with
      | None => fail 401 (lit "인증이 필요합니다.") None
      | Some _ =>
        match current, previous with
        | Some todos, Some previousTodos =>
          match todos with
          | [] => {| http := 200; body := no_tasks is_today |}
          | _ :: _ =>
            let a := analysisData is_today todos previousTodos in
            match ai with
            | AiThrows msg => on_throw msg
            | AiText text =>
              match JSON_parse (jsonString text) with
              | None =>
                fail 500 (lit "AI 응답을 파싱할 수 없습니다. 다시 시도해주세요.")
                     (Some (lit "PARSE_ERROR"))
              | Some JNull => on_throw (Some null_access_message)
              | Some parsedData =>
                {| http := 200;
                   body := sent (validatedData a (remainingTodos todos)
                                   (focusTasks now today todos) parsedData) |}
              end
            end
          end
        | _, _ =>
          fail 500 (lit "할 일 목록을 불러오는 중 오류가 발생했습니다.") None
        end
      end
    end.

End Handler.

(** A reader of the timestamps for running the handler: it reads the
    date-only form and nothing else. *)
Definition Date_parse0 (s : jsstr) : option Z := ParseTodo.Date_parse_ymd s.

Definition POST0 := POST Date_parse0.

(** [Date.parse] of a timestamp as the store writes a TIMESTAMPTZ column
    (schema.sql: [due_date TIMESTAMPTZ]), dddd-dd-ddTdd:dd:dd+00:00, and
    of the date-only form: milliseconds since the epoch. *)
Definition Date_parse_timestamp (s : jsstr) : option Z :=
  match s with
  | [y1; y2; y3; y4; a1; m1; m2; a2; d1; d2; t;
     h1; h2; c1; n1; n2; c2; s1; s2; p; z1; z2; c3; z3; z4] =>
    if N.eqb t 84 && N.eqb c1 58 && N.eqb c2 58
       && forallb is_digit [h1; h2; n1; n2; s1; s2]
       && str_eqb [p; z1; z2; c3; z3; z4] (lit "+00:00")
       && (ParseTodo.num2 h1 h2 <=? 23) && (ParseTodo.num2 n1 n2 <=? 59)
       && (ParseTodo.num2 s1 s2 <=? 59)
    then
      match ParseTodo.Date_parse_ymd [y1; y2; y3; y4; a1; m1; m2; a2; d1; d2] with
      | Some day =>
        Some (day + ParseTodo.num2 h1 h2 * 3600000
              + ParseTodo.num2 n1 n2 * 60000 + ParseTodo.num2 s1 s2 * 1000)
      | None => None
      end
    else None
  | _ => ParseTodo.Date_parse_ymd s
  end.

End Summary.

(* ===================================================================== *)
(** * PUT and DELETE /api/todos/[id]  (src/app/api/todos/[id]/route.ts) *)
(* ===================================================================== *)

Module TodoRoute.

(** A row of the [todos] table. The columns that PUT can write hold the
    JSON value last written. *)
Record TodoRow := {
  id : jsstr;
  user_id : jsstr;
  title : jsstr;
  description : json;
  due_date : json;
  status : json;
  priority : json;
  created_at : jsstr;
  updated_at : jsstr
}.

(** The table: its rows, [id] being the primary key. *)
Definition store := list TodoRow.

(** [interface TodoUpdateData]; [None] for a member that is not set. *)
Record TodoUpdateData := {
  u_title : option jsstr;
  u_description : option json;
  u_due_date : option json;
  u_status : option json;
  u_priority : option json
}.

Record response := {
  http : Z;
  body : json
}.

Definition error_body (msg : string) : json := JObj [(lit "error", JStr (lit msg))].

Definition row_json (r : TodoRow) : json :=
  JObj [ (lit "id", JStr (id r)); (lit "user_id", JStr (user_id r));
         (lit "title", JStr (title r)); (lit "description", description r);
         (lit "due_date", due_date r); (lit "status", status r);
         (lit "priority", priority r); (lit "created_at", JStr (created_at r));
         (lit "updated_at", JStr (updated_at r)) ].

(** ** The store adapter *)

(** [.eq('id', todoId).eq('user_id', user.id)] *)
Definition selected (todoId user : jsstr) (r : TodoRow) : bool :=
  str_eqb (id r) todoId && str_eqb (user_id r) user.

Definition set_default {A} (new : option A) (old : A) : A :=
  match new with
  | Some v => v
  | None => old
  end.

(** One row after [UPDATE ... SET]; the trigger [trigger_todos_updated_at]
    of schema.sql stamps it with the time of the statement. *)
Definition write (u : TodoUpdateData) (now : jsstr) (r : TodoRow) : TodoRow :=
  {| id := id r;
     user_id := user_id r;
     title := set_default (u_title u) (title r);
     description := set_default (u_description u) (description r);
     due_date := set_default (u_due_date u) (due_date r);
     status := set_default (u_status u) (status r);
     priority := set_default (u_priority u) (priority r);
     created_at := created_at r;
     updated_at := now |}.

(** What [.single()] gives back: the one row, or the error code. *)
Inductive single_result :=
| Single (row : TodoRow)
| SingleError (code : jsstr).

(** [refused] is the error with which the store turns the statement down
    as a whole, if it does (an id that is no uuid, a value that a column
    or a constraint does not take, no connection): nothing is written
    then. *)
Definition db_update (refused : option jsstr) (u : TodoUpdateData) (now : jsstr)
    (todoId user : jsstr) (s : store) : store * single_result :=
  match refused with
  | Some code => (s, SingleError code)
  | None =>
    (* [.update(updateData).eq(..).eq(..).select().single()]: one row has
       to come back, otherwise the statement is undone and the error is
       PGRST116 *)
    match filter (selected todoId user) s with
    | [r] =>
      (map (fun r => if selected todoId user r then write u now r else r) s,
       Single (write u now r))
    | _ => (s, SingleError (lit "PGRST116"))
    end
  end.

(** [.delete().eq(..).eq(..)]: the table afterwards and the error, if
    any. *)
Definition db_delete (refused : option jsstr) (todoId user : jsstr) (s : store)
    : store * option jsstr :=
  match refused with
  | Some code => (s, Some code)
  | None => (filter (fun r => negb (selected todoId user r)) s, None)
  end.

(** ** PUT *)

(** [x.trim()] on a value that is not [null] or [undefined]: it throws a
    TypeError unless [x] is a string. *)
Definition call_trim (v : json) : option jsstr :=
  match v with
  | JStr s => Some (trim s)
  | _ => None
  end.

Definition server_error : response :=
  {| http := 500; body := error_body "서버 오류가 발생했습니다." |}.

(** The members that [const { title, ... } = body] reads. *)
Definition member (body : json) (k : string) : option json := get body (lit k).

(** [updateData], or [None] when building it throws. *)
Definition updateData (body : json) : option TodoUpdateData :=
  let title := member body "title" in
  let description := member body "description" in
  let due_date := member body "due_date" in
  let t :=
    match title with
    | Some v => match call_trim v with
                | Some s => Some (Some s)
                | None => None
                end
    | None => Some None
    end in
  let d :=
    match description with
    | Some JNull => Some (Some JNull)
    | Some v =>
      match call_trim v with
      | Some [] => Some (Some JNull)
      | Some s => Some (Some (JStr s))
      | None => None
      end
    | None => Some None
    end in
  match t, d with
  | Some t', Some d' =>
    Some {| u_title := t';
            u_description := d';
            u_due_date := match due_date with
                          | Some v => Some (or_else (Some v) JNull)
                          | None => None
                          end;
            u_status := member body "status";
            u_priority := member body "priority" |}
  | _, _ => None
  end.

(** A statement sent to the store. *)
Inductive statement :=
| Update (u : TodoUpdateData) (todoId user : jsstr)
| Delete (todoId user : jsstr).

(** What one request does: the answer, the table afterwards, and the
    statements that were sent to the store. *)
Record run := {
  answer : response;
  table : store;
  issued : list statement
}.

Definition answer_only (r : response) (s : store) : run :=
  {| answer := r; table := s; issued := [] |}.

(** [user]: the id of the session's user, [None] without a session.
    [body]: what [request.json()] returns, [None] when it throws.
    [refused] and [now]: see [db_update]. *)
Definition PUT (todoId : jsstr) (user : option jsstr) (body : option json)
    (refused : option jsstr) (now : jsstr) (s : store) : run :=
  match user with
  | None => answer_only {| http := 401; body := error_body "인증이 필요합니다." |} s
  | Some uid =>
    match body with
    | None => answer_only server_error s
    | Some JNull => answer_only server_error s   (* destructuring [null] throws *)
    | Some b =>
      let title := member b "title" in
      (* [title !== undefined && (!title || title.trim().length === 0)],
         [None] when [title.trim] is no function *)
      let invalid_title :=
        match title with
        | None => Some false
        | Some v =>
          if negb (truthy (Some v)) then Some true
          else match call_trim v with
               | Some t => Some (Nat.eqb (length t) 0)
               | None => None
               end
        end in
      match invalid_title with
      | None => answer_only server_error s
      | Some true =>
        answer_only {| http := 400; body := error_body "할 일 제목은 필수입니다." |} s
      | Some false =>
        match updateData b with
        | None => answer_only server_error s
        | Some u =>
          let (s', res) := db_update refused u now todoId uid s in
          {| answer :=
               match res with
               | Single updatedTodo => {| http := 200; body := row_json updatedTodo |}
               | SingleError code =>
                 if str_eqb code (lit "PGRST116") then
                   {| http := 404;
                      body := error_body "할 일을 찾을 수 없거나 수정 권한이 없습니다." |}
                 else
                   {| http := 500;
                      body := error_body "할 일 수정 중 오류가 발생했습니다." |}
               end;
             table := s';
             issued := [Update u todoId uid] |}
        end
      end
    end
  end.

(** ** DELETE *)

Definition DELETE (todoId : jsstr) (user : option jsstr)
    (refused : option jsstr) (s : store) : run :=
  match user with
  | None => answer_only {| http := 401; body := error_body "인증이 필요합니다." |} s
  | Some uid =>
    let (s', error) := db_delete refused todoId uid s in
    {| answer :=
         match error with
         | Some _ =>
           {| http := 500; body := error_body "할 일 삭제 중 오류가 발생했습니다." |}
         | None =>
           {| http := 200;
              body := JObj [(lit "message",
                             JStr (lit "할 일이 성공적으로 삭제되었습니다."))] |}
         end;
       table := s';
       issued := [Delete todoId uid] |}
  end.

End TodoRoute.

(* ===================================================================== *)
(** * GET /api/todos/[id]  (src/app/api/todos/[id]/route.ts) *)
(* ===================================================================== *)

Module TodoRouteGet.

Import TodoRoute.

(** [.select('*').eq('id', todoId).eq('user_id', user.id).single()];
    [refused] as for [db_update]. *)
Definition db_select (refused : option jsstr) (todoId user : jsstr) (s : store)
    : single_result :=
  match refused with
  | Some code => SingleError code
  | None =>
    match filter (selected todoId user) s with
    | [r] => Single r
    | _ => SingleError (lit "PGRST116")
    end
  end.

(** GET /api/todos/[id] (route.ts lines 19-67). *)
Definition GET (todoId : jsstr) (user : option jsstr) (refused : option jsstr)
    (s : store) : response :=
  match user with
  | None => {| http := 401; body := error_body "인증이 필요합니다." |}
  | Some uid =>
    match db_select refused todoId uid s with
    | Single todo => {| http := 200; body := row_json todo |}
    | SingleError code =>
      if str_eqb code (lit "PGRST116") then
        {| http := 404; body := error_body "할 일을 찾을 수 없습니다." |}
      else
        {| http := 500; body := error_body "할 일 조회 중 오류가 발생했습니다." |}
    end
  end.

End TodoRouteGet.

(* ===================================================================== *)
(** * The [useTodos] hook  (src/contexts/auth-context.tsx) *)
(* ===================================================================== *)

(** The hook is run against the handlers of /api/todos/[id]: a request of
    the hook is answered by [PUT] or [DELETE] on the table of the
    server. *)
Module UseTodos.

Import TodoRoute.

(** [response.ok] *)
Definition ok (r : response) : bool := (200 <=? http r) && (http r <=? 299).

(** [apiRequest]: the body of the answer, [None] when it throws. *)
Definition apiRequest (r : response) : option json :=
  if ok r then Some (body r) else None.

(** [todo.id === todoId] for a [todo] other than [null], on which the
    source throws; the lists of the hook hold the objects that the server
    answered. *)
Definition has_id (todoId : jsstr) (todo : json) : bool :=
  match get todo (lit "id") with
  | Some (JStr i) => str_eqb i todoId
  | _ => false
  end.

(** [todo.status === 'completed'], for the [todo] that [find] returned. *)
Definition completed (todo : json) : bool :=
  match get todo (lit "status") with
  | Some (JStr st) => str_eqb st (lit "completed")
  | _ => false
  end.

(** The state of the hook, [todos], beside the table of the server. *)
Record world := {
  todos : list json;
  server : store
}.

Section Session.

(** The session of the browser, and what the store does with the
    statement of the request and when. *)
Variable user : option jsstr.
Variable refused : option jsstr.
Variable now : jsstr.

(** [updateTodo]: the todo of the answer, [None] for [null]. *)
Definition updateTodo (todoId : jsstr) (updates : json) (w : world)
    : option json * world :=
  let r := PUT todoId user (Some updates) refused now (server w) in
  match apiRequest (answer r) with
  | Some updatedTodo =>
    (Some updatedTodo,
     {| todos := map (fun todo => if has_id todoId todo then updatedTodo else todo)
                     (todos w);
        server := table r |})
  | None => (None, {| todos := todos w; server := table r |})
  end.

(** [toggleTodoStatus]: [false] when [find] gives no todo. [updateTodo]
    catches what it throws, so the [catch] here is never entered. *)
Definition toggleTodoStatus (todoId : jsstr) (w : world) : bool * world :=
  match find (has_id todoId) (todos w) with
  | None => (false, w)
  | Some todo =>
    let newStatus := if completed todo then lit "pending" else lit "completed" in
    (true, snd (updateTodo todoId (JObj [(lit "status", JStr newStatus)]) w))
  end.

(** [deleteTodo] *)
Definition deleteTodo (todoId : jsstr) (w : world) : bool * world :=
  let r := DELETE todoId user refused (server w) in
  match apiRequest (answer r) with
  | Some _ =>
    (true,
     {| todos := filter (fun todo => negb (has_id todoId todo)) (todos w);
        server := table r |})
  | None => (false, {| todos := todos w; server := table r |})
  end.

End Session.

End UseTodos.

(* ===================================================================== *)
(** * POST /api/ai/summary: the counts that only reach the prompt *)
(* ===================================================================== *)

Module SummaryAnalysis.

Import Summary.

(** [{ total, completed }] *)
Record Tally := {
  total : nat;
  completed_of : nat
}.

(** [priorityAnalysis] *)
Record PriorityAnalysis := {
  high : Tally;
  medium : Tally;
  low : Tally
}.

Definition tally (p : Z) (todos : list Todo) : Tally :=
  {| total := length (filter (fun t => priority t =? p) todos);
     completed_of :=
       length (filter (fun t => (priority t =? p) && is_completed t) todos) |}.

Definition priorityAnalysis (todos : list Todo) : PriorityAnalysis :=
  {| high := tally 1 todos; medium := tally 2 todos; low := tally 3 todos |}.

Section Handler.

Variable Date_parse : jsstr -> option Z.

(** The test of [overdueTodos] for one row; [today] is the time of the
    [new Date()] of that call. *)
Definition overdue (today : Z) (t : Todo) : bool :=
  match due_date t with
  | Some (c :: d) =>
    negb (is_completed t) && ParseTodo.time_lt (Date_parse (c :: d)) (Some today)
  | _ => false
  end.

(** [todos.filter(...)] from the row of index [i] on; [clock i] is the
    time at which the row of index [i] is tested. *)
Fixpoint overdue_from (clock : nat -> Z) (i : nat) (todos : list Todo) : list Todo :=
  match todos with
  | [] => []
  | t :: r =>
    if overdue (clock i) t then t :: overdue_from clock (S i) r
    else overdue_from clock (S i) r
  end.

Definition overdueTodos (clock : nat -> Z) (todos : list Todo) : list Todo :=
  overdue_from clock 0 todos.

End Handler.

End SummaryAnalysis.

(* ===================================================================== *)
(** * The summary card (src/components/ai/ai-summary-enhanced.tsx) and
      the tag field of the todo form (TodoForm, src/unnamed/part_000) *)
(* ===================================================================== *)

Module Components.

(** ** extractCompletionRate *)

(** [text.match(/(\d+)%/)]: the group of the leftmost match. At a
    position the pattern matches exactly when the longest run of digits
    there is not empty and a [%] follows it. *)
Fixpoint match_percent (text : jsstr) : option jsstr :=
  match text with
  | [] => None
  | _ :: r =>
    match span_digits text with
    | (d :: ds, 37%N :: _) => Some (d :: ds)
    | _ => match_percent r
    end
  end.

(** [parseInt] of a string of digits: the integer they denote (as a
    JavaScript number it is the nearest double, the same number below
    2^53). *)
Definition parseInt (digits : jsstr) : Z := Z_of_digits digits.

Definition extractCompletionRate (text : jsstr) : Z :=
  match match_percent text with
  | Some digits => parseInt digits
  | None => 0
  end.

(** [extractCompletionRate(summary.completionAnalysis?.rate || "0%")];
    [None] when [text.match] is no function. *)
Definition completionRate_shown (summary : json) : option Z :=
  let rate :=
    match get summary (lit "completionAnalysis") with
    | None => None
    | Some JNull => None
    | Some completionAnalysis => get completionAnalysis (lit "rate")
    end in
  match or_else rate (JStr (lit "0%")) with
  | JStr text => Some (extractCompletionRate text)
  | _ => None
  end.

(** ** The tag field *)

(** [s.split(',')] *)
Fixpoint split_comma (s : jsstr) : list jsstr :=
  match s with
  | [] => [[]]
  | c :: r =>
    if N.eqb c 44 then [] :: split_comma r
    else match split_comma r with
         | h :: t => (c :: h) :: t
         | [] => [[c]]
         end
  end.

(** [tags.join(', ')] *)
Fixpoint join (tags : list jsstr) : jsstr :=
  match tags with
  | [] => []
  | [t] => t
  | t :: r => t ++ lit ", " ++ join r
  end.

(** The [value] of the field for the tags of the form. *)
Definition value (tags : list jsstr) : jsstr := join tags.

(** The tags that [onChange] hands to the form for the text of the
    field. *)
Definition onChange (text : jsstr) : list jsstr :=
  firstn 3
    (filter (fun tag => Nat.ltb 0 (length tag))
       (map trim (split_comma text))).

End Components.

(* ===================================================================== *)
(** * Properties of the builtins *)
(* ===================================================================== *)

Module JSFacts.

Lemma str_eqb_eq a b : str_eqb a b = true <-> a = b.
Proof.
  revert b; induction a as [|x a IH]; intros [|y b]; simpl; split;
    try congruence; try reflexivity.
  - intros H. apply andb_true_iff in H as [H1 H2].
    apply N.eqb_eq in H1. apply IH in H2. congruence.
  - intros H. injection H as -> ->. rewrite N.eqb_refl. simpl. now apply IH.
Qed.

Lemma str_eqb_refl a : str_eqb a a = true.
Proof. now apply str_eqb_eq. Qed.

Lemma str_eqb_neq a b : str_eqb a b = false <-> a <> b.
Proof.
  split.
  - intros H E. apply str_eqb_eq in E. congruence.
  - intros H. destruct (str_eqb a b) eqn:E; [|reflexivity].
    apply str_eqb_eq in E. contradiction.
Qed.

(** ** trim *)

Lemma trimStart_head s c r : trimStart s = c :: r -> is_space c = false.
Proof.
  induction s as [|x s IH]; simpl; [discriminate|].
  destruct (is_space x) eqn:E; [exact IH|].
  intros H. injection H as <- _. exact E.
Qed.

Lemma trimStart_fixed c r : is_space c = false -> trimStart (c :: r) = c :: r.
Proof. intros H. simpl. now rewrite H. Qed.

Lemma trimStart_idem s : trimStart (trimStart s) = trimStart s.
Proof.
  destruct (trimStart s) as [|c r] eqn:E; [reflexivity|].
  apply trimStart_fixed. exact (trimStart_head _ _ _ E).
Qed.

Lemma trimStart_keeps_last x c :
  is_space c = false -> exists y, trimStart (x ++ [c]) = y ++ [c].
Proof.
  intros H. induction x as [|a x IH]; simpl.
  - rewrite H. now exists [].
  - destruct (is_space a); [exact IH|]. now exists (a :: x).
Qed.

Lemma trimEnd_keeps_head c r :
  is_space c = false -> exists r', trimEnd (c :: r) = c :: r'.
Proof.
  intros H. unfold trimEnd. simpl.
  destruct (trimStart_keeps_last (rev r) c H) as [y ->].
  exists (rev y). now rewrite rev_app_distr.
Qed.

Lemma trimEnd_idem s : trimEnd (trimEnd s) = trimEnd s.
Proof. unfold trimEnd. now rewrite rev_involutive, trimStart_idem. Qed.

(** A trimmed string is its own [trim]. *)
Theorem trim_idem s : trim (trim s) = trim s.
Proof.
  unfold trim at 2 3.
  destruct (trimStart s) as [|c r] eqn:E; [reflexivity|].
  pose proof (trimStart_head _ _ _ E) as Hc.
  destruct (trimEnd_keeps_head c r Hc) as [r' Hr].
  unfold trim. rewrite Hr, (trimStart_fixed c r' Hc), <- Hr.
  apply trimEnd_idem.
Qed.

Lemma trimStart_blank s : forallb is_space s = true -> trimStart s = [].
Proof.
  induction s as [|c s IH]; [reflexivity|].
  simpl. intros H. apply andb_true_iff in H as [Hc Hs]. rewrite Hc. now apply IH.
Qed.

(** A string of blanks trims to the empty string. *)
Lemma trim_blank s : forallb is_space s = true -> trim s = [].
Proof. intros H. unfold trim. now rewrite (trimStart_blank s H). Qed.

(** ** Array.prototype.sort *)

Section Sort.

Context {A : Type}.
Variable cmp : A -> A -> Z.

Lemma sort_insert_perm x l : Permutation (x :: l) (sort_insert cmp x l).
Proof.
  induction l as [|y l IH]; simpl; [reflexivity|].
  destruct (cmp x y <=? 0); [reflexivity|].
  rewrite perm_swap. now constructor.
Qed.

(** The sort rearranges the array and nothing else. *)
Lemma Array_sort_perm l : Permutation l (Array_sort cmp l).
Proof.
  induction l as [|x l IH]; simpl; [constructor|].
  rewrite <- sort_insert_perm. now constructor.
Qed.

Lemma Array_sort_length l : length (Array_sort cmp l) = length l.
Proof. symmetry. apply Permutation_length, Array_sort_perm. Qed.

Lemma Array_sort_Forall (P : A -> Prop) l : Forall P l -> Forall P (Array_sort cmp l).
Proof. intros H. eapply Permutation_Forall; [apply Array_sort_perm|exact H]. Qed.

(** Stability: elements that the comparator does not tell apart stay in
    the order they had. [P] picks out such a class of elements. *)
Lemma sort_insert_filter (P : A -> bool) x l :
  (forall a b, P a = true -> P b = true -> cmp a b <= 0) ->
  filter P (sort_insert cmp x l) = filter P (x :: l).
Proof.
  intros HP. induction l as [|y l IH]; [reflexivity|].
  simpl. destruct (cmp x y <=? 0) eqn:E; [reflexivity|].
  simpl in *. rewrite IH.
  destruct (P x) eqn:Px, (P y) eqn:Py; try reflexivity.
  apply Z.leb_gt in E. specialize (HP x y Px Py). lia.
Qed.

Lemma Array_sort_stable (P : A -> bool) l :
  (forall a b, P a = true -> P b = true -> cmp a b <= 0) ->
  filter P (Array_sort cmp l) = filter P l.
Proof.
  intros HP. induction l as [|x l IH]; [reflexivity|].
  simpl Array_sort. rewrite sort_insert_filter by exact HP.
  simpl. now rewrite IH.
Qed.

(** For a comparator that is a total preorder the result is sorted. *)
Hypothesis cmp_total : forall a b, cmp a b <= 0 \/ cmp b a <= 0.
Hypothesis cmp_trans : forall a b c, cmp a b <= 0 -> cmp b c <= 0 -> cmp a c <= 0.

Lemma sort_insert_sorted x l :
  StronglySorted (fun a b => cmp a b <= 0) l ->
  StronglySorted (fun a b => cmp a b <= 0) (sort_insert cmp x l).
Proof.
  induction l as [|y l IH]; intros Hs; simpl.
  - repeat constructor.
  - inversion Hs as [|? ? Hl Hy]; subst.
    destruct (cmp x y <=? 0) eqn:E.
    + apply Z.leb_le in E. constructor; [exact Hs|].
      constructor; [exact E|].
      eapply Forall_impl; [|exact Hy]. intros a Ha. eapply cmp_trans; eauto.
    + apply Z.leb_gt in E. constructor; [now apply IH|].
      eapply Permutation_Forall; [apply sort_insert_perm|].
      constructor; [|exact Hy].
      destruct (cmp_total y x); [assumption|lia].
Qed.

Lemma Array_sort_sorted l :
  StronglySorted (fun a b => cmp a b <= 0) (Array_sort cmp l).
Proof.
  induction l as [|x l IH]; simpl; [constructor|].
  now apply sort_insert_sorted.
Qed.

(** Two elements that the comparator does not tell apart. *)
Definition same_rank (x y : A) : bool := (cmp x y <=? 0) && (cmp y x <=? 0).

Lemma same_rank_refl x : same_rank x x = true.
Proof.
  unfold same_rank. destruct (cmp_total x x) as [H|H];
    apply Z.leb_le in H; now rewrite H.
Qed.

Lemma sorted_head_least x l y :
  StronglySorted (fun a b => cmp a b <= 0) (x :: l) -> In y (x :: l) -> cmp x y <= 0.
Proof.
  intros Hs [<-|Hin].
  - destruct (cmp_total x x); assumption.
  - inversion Hs as [|? ? _ Hx]; subst. rewrite Forall_forall in Hx. now apply Hx.
Qed.

Lemma sorted_classes_eq l1 l2 :
  StronglySorted (fun a b => cmp a b <= 0) l1 ->
  StronglySorted (fun a b => cmp a b <= 0) l2 ->
  (forall x, filter (same_rank x) l1 = filter (same_rank x) l2) ->
  l1 = l2.
Proof.
  intros H1. revert l2. induction H1 as [|a l1 Hs1 IH Ha]; intros l2 H2 Hf.
  - destruct l2 as [|b l2]; [reflexivity|].
    specialize (Hf b). simpl in Hf. rewrite same_rank_refl in Hf. discriminate.
  - destruct l2 as [|b l2].
    + specialize (Hf a). simpl in Hf. rewrite same_rank_refl in Hf. discriminate.
    + assert (Hs1' : StronglySorted (fun a b => cmp a b <= 0) (a :: l1))
        by (now constructor).
      assert (Hba : cmp b a <= 0).
      { apply (sorted_head_least b l2 a H2).
        pose proof (Hf a) as E. simpl in E. rewrite same_rank_refl in E.
        eapply (proj1 (filter_In (same_rank a) a (b :: l2))).
        simpl. rewrite <- E. now left. }
      assert (Hab : cmp a b <= 0).
      { apply (sorted_head_least a l1 b Hs1').
        pose proof (Hf b) as E. simpl filter at 2 in E. rewrite same_rank_refl in E.
        eapply (proj1 (filter_In (same_rank b) b (a :: l1))).
        rewrite E. now left. }
      assert (Hr : same_rank a b = true).
      { unfold same_rank. apply Z.leb_le in Hab, Hba. now rewrite Hab, Hba. }
      assert (Heq : a = b).
      { pose proof (Hf a) as E. simpl in E.
        rewrite same_rank_refl, Hr in E. now injection E. }
      subst b. f_equal. apply IH.
      * now inversion H2.
      * intros x. specialize (Hf x). simpl in Hf.
        destruct (same_rank x a); [now injection Hf|exact Hf].
Qed.

(** The result of the sort does not depend on the algorithm: a sorted
    arrangement that keeps the elements of every rank in the order they
    had is the one that [Array_sort] returns. *)
Theorem Array_sort_unique l l' :
  StronglySorted (fun a b => cmp a b <= 0) l' ->
  (forall x, filter (same_rank x) l' = filter (same_rank x) l) ->
  l' = Array_sort cmp l.
Proof.
  intros Hs Hf. apply sorted_classes_eq; [exact Hs|apply Array_sort_sorted|].
  intros x. rewrite Hf. symmetry. apply Array_sort_stable.
  intros a b Ha Hb. unfold same_rank in Ha, Hb.
  apply andb_true_iff in Ha as [_ Ha], Hb as [Hb _].
  apply Z.leb_le in Ha, Hb. eapply cmp_trans; eauto.
Qed.

End Sort.

(** In a sorted list an earlier element never follows a later one. *)
Lemma StronglySorted_nth_error {A} (R : A -> A -> Prop) l :
  StronglySorted R l ->
  forall i j a b, (i < j)%nat ->
    nth_error l i = Some a -> nth_error l j = Some b -> R a b.
Proof.
  induction 1 as [|x l Hs IH Hx]; intros i j a b Hij Hi Hj.
  - destruct i; discriminate.
  - destruct j as [|j]; [lia|]. simpl in Hj.
    destruct i as [|i]; simpl in Hi.
    + injection Hi as <-. rewrite Forall_forall in Hx.
      apply Hx. eapply nth_error_In; eauto.
    + apply (IH i j a b); [lia | exact Hi | exact Hj].
Qed.

Lemma firstn_In {A} (x : A) n l : In x (firstn n l) -> In x l.
Proof.
  revert n; induction l as [|y l IH]; intros [|n]; simpl; try tauto.
  intros [H|H]; [now left|right; eauto].
Qed.

Lemma StronglySorted_firstn {A} (R : A -> A -> Prop) n l :
  StronglySorted R l -> StronglySorted R (firstn n l).
Proof.
  intros H. revert n. induction H as [|x l Hs IH Hx]; intros [|n]; simpl;
    try constructor.
  - apply IH.
  - rewrite Forall_forall in *. intros y Hy. apply Hx.
    eapply firstn_In. exact Hy.
Qed.

(** ** Objects *)

Lemma lookup_last_absent kvs k :
  ~ In k (map fst kvs) -> lookup_last kvs k = None.
Proof.
  induction kvs as [|[k' v'] r IH]; [reflexivity|].
  simpl. intros H. rewrite IH by tauto.
  destruct (str_eqb k' k) eqn:E; [|reflexivity].
  apply str_eqb_eq in E. tauto.
Qed.

(** In an object whose keys differ, a member is what the lookup finds. *)
Lemma lookup_last_member kvs k v :
  NoDup (map fst kvs) -> In (k, v) kvs -> lookup_last kvs k = Some v.
Proof.
  induction kvs as [|[k' v'] r IH]; [contradiction|].
  simpl. intros Hnd [Heq|Hin]; inversion Hnd as [|? ? Hk Hr]; subst.
  - injection Heq as -> ->. rewrite (lookup_last_absent _ _ Hk).
    now rewrite str_eqb_refl.
  - now rewrite (IH Hr Hin).
Qed.

Fixpoint distinct (l : list jsstr) : bool :=
  match l with
  | [] => true
  | k :: r => negb (existsb (str_eqb k) r) && distinct r
  end.

Lemma distinct_NoDup l : distinct l = true -> NoDup l.
Proof.
  induction l as [|k r IH]; [constructor|].
  simpl. intros H. apply andb_true_iff in H as [Hk Hr].
  constructor; [|now apply IH].
  intros Hin. apply negb_true_iff in Hk.
  assert (existsb (str_eqb k) r = true); [|congruence].
  apply existsb_exists. exists k. split; [exact Hin|apply str_eqb_refl].
Qed.

(** ** The text of a Number *)



(** A character of a number written without an exponent. *)
Definition plain_char (c : N) : bool := is_digit c || N.eqb c 46.







Lemma plain_number_char c : plain_char c = true -> number_char c = true.
Proof.
  unfold plain_char, number_char. intros H.
  apply orb_true_iff in H as [H|H]; rewrite H; repeat rewrite orb_true_r; reflexivity.
Qed.









(** ** What is sent *)

Lemma sent_strings l : map sent (map JStr l) = map JStr l.
Proof. induction l as [|s l IH]; [reflexivity|]. simpl. now rewrite IH. Qed.

Lemma lookup_last_app (a b : list (jsstr * json)) k :
  lookup_last (a ++ b) k
  = match lookup_last b k with
    | Some v => Some v
    | None => lookup_last a k
    end.
Proof.
  induction a as [|[k' v'] a IH]; simpl.
  - now destruct (lookup_last b k).
  - rewrite IH. now destruct (lookup_last b k).
Qed.

Lemma existsb_str_eqb k l : existsb (str_eqb k) l = true <-> In k l.
Proof.
  rewrite existsb_exists. split.
  - intros (x & Hx & E). apply str_eqb_eq in E. now subst.
  - intros H. exists k. split; [exact H|apply str_eqb_refl].
Qed.

Lemma first_added_spec kvs : forall seen k,
  In k (first_added kvs seen) <-> In k (map fst kvs) /\ ~ In k seen.
Proof.
  induction kvs as [|[k0 v0] r IH]; intros seen k; cbn [first_added map fst In].
  - tauto.
  - destruct (existsb (str_eqb k0) seen) eqn:E.
    + apply existsb_str_eqb in E. rewrite IH. split; [tauto|].
      intros [[->|H] Hn]; tauto.
    + assert (Hn0 : ~ In k0 seen).
      { intros H. apply existsb_str_eqb in H. congruence. }
      cbn [In]. rewrite IH. cbn [In]. split.
      * intros [->|[H Hn]]; tauto.
      * intros [[->|H] Hn]; [now left|].
        destruct (str_eqb k0 k) eqn:Ek; [apply str_eqb_eq in Ek; now left|].
        apply str_eqb_neq in Ek. right. tauto.
Qed.

Lemma first_added_NoDup kvs : forall seen, NoDup (first_added kvs seen).
Proof.
  induction kvs as [|[k0 v0] r IH]; intros seen; cbn [first_added].
  - constructor.
  - destruct (existsb (str_eqb k0) seen); [apply IH|].
    constructor; [|apply IH]. rewrite first_added_spec. cbn [In]. tauto.
Qed.

Lemma flat_map_lookup (f : jsstr -> option json) ks k :
  NoDup ks ->
  lookup_last (flat_map (fun k => match f k with
                                  | Some v => [(k, v)]
                                  | None => []
                                  end) ks) k
  = if existsb (str_eqb k) ks then f k else None.
Proof.
  induction 1 as [|k0 r Hk0 Hr IH]; [reflexivity|].
  cbn [flat_map existsb]. rewrite lookup_last_app, IH.
  destruct (existsb (str_eqb k) r) eqn:Er.
  - rewrite orb_true_r. destruct (f k) as [v|] eqn:Ef; [reflexivity|].
    apply existsb_str_eqb in Er.
    assert (Hne : str_eqb k0 k = false)
      by (apply str_eqb_neq; intros ->; contradiction).
    destruct (f k0); cbn [lookup_last]; [rewrite Hne|]; reflexivity.
  - rewrite orb_false_r. destruct (str_eqb k k0) eqn:E.
    + apply str_eqb_eq in E. subst k0.
      destruct (f k); cbn [lookup_last]; [rewrite str_eqb_refl|]; reflexivity.
    + assert (Hne : str_eqb k0 k = false).
      { apply str_eqb_neq. intros ->. rewrite str_eqb_refl in E. discriminate. }
      destruct (f k0); cbn [lookup_last]; [rewrite Hne|]; reflexivity.
Qed.

(** The order of the keys does not change what a name stands for. *)
Lemma own_properties_lookup kvs k :
  lookup_last (own_properties kvs) k = lookup_last kvs k.
Proof.
  unfold own_properties.
  pose proof (Array_sort_perm index_cmp (first_added kvs [])) as Hperm.
  rewrite flat_map_lookup
    by (eapply Permutation_NoDup; [exact Hperm|apply first_added_NoDup]).
  destruct (existsb (str_eqb k) (Array_sort index_cmp (first_added kvs []))) eqn:E;
    [reflexivity|].
  symmetry. apply lookup_last_absent. intros Hin.
  assert (In k (Array_sort index_cmp (first_added kvs []))).
  { eapply Permutation_in; [exact Hperm|]. apply first_added_spec. tauto. }
  apply existsb_str_eqb in H. congruence.
Qed.

Lemma lookup_last_sent kvs k :
  lookup_last (map (fun kv => (fst kv, sent (snd kv))) kvs) k
  = option_map sent (lookup_last kvs k).
Proof.
  induction kvs as [|[k' v'] r IH]; [reflexivity|].
  cbn [map lookup_last fst snd]. rewrite IH.
  destruct (lookup_last r k); [reflexivity|].
  now destruct (str_eqb k' k).
Qed.

(** A member of what is sent is what is sent of the member. *)
Lemma get_sent v k : get (sent v) k = option_map sent (get v k).
Proof.
  destruct v as [|b|q|s|l|kvs]; try reflexivity.
  - cbn [sent]. now destruct (nearest_double q).
  - cbn [sent get]. now rewrite own_properties_lookup, lookup_last_sent.
Qed.

Lemma json_null_dec (v : json) : {v = JNull} + {v <> JNull}.
Proof. destruct v; [now left|right; discriminate..]. Qed.

(** ** Integers among the doubles *)

Lemma round_half_even_1 n : round_half_even n 1 = n.
Proof. unfold round_half_even. now rewrite Z.mod_1_r, Z.div_1_r. Qed.

(** An integer below [2^53] is a double. *)
Lemma nearest_double_pos_integer n :
  0 < n < 2 ^ 53 ->
  exists k, 0 <= k /\ nearest_double_pos n 1 = Some (n * 2 ^ k, - k).
Proof.
  intros Hn. unfold nearest_double_pos. cbv zeta.
  change (Z.log2 1) with 0.
  assert (Hl : 0 <= Z.log2 n <= 52).
  { split; [apply Z.log2_nonneg|].
    apply Z.lt_succ_r. apply Z.log2_lt_pow2; [lia|exact (proj2 Hn)]. }
  destruct (Z.log2_spec n ltac:(lia)) as [Hlo _].
  set (k := 52 - Z.log2 n).
  replace (Z.log2 n - 0 - 52) with (- k) by (unfold k; lia).
  assert (Hk : 0 <= k <= 52) by (unfold k; lia).
  assert (Hbig : 2 ^ 52 <= n * 2 ^ k).
  { replace 52 with (Z.log2 n + k) at 1 by (unfold k; lia).
    rewrite Z.pow_add_r by lia. apply Z.mul_le_mono_nonneg_r; [|exact Hlo].
    apply Z.pow_nonneg. lia. }
  assert (Hsmall : n * 2 ^ k < 2 ^ 53).
  { destruct (Z.log2_spec n ltac:(lia)) as [_ Hhi].
    replace 53 with (Z.succ (Z.log2 n) + k) by (unfold k; lia).
    rewrite Z.pow_add_r by lia. apply Z.mul_lt_mono_pos_r; [|exact Hhi].
    apply Z.pow_pos_nonneg; lia. }
  exists k. split; [lia|].
  assert (Hfloor : (if 0 <=? - k then n / (1 * 2 ^ (- k)) else n * 2 ^ (- - k) / 1)
                   = n * 2 ^ k).
  { destruct (Z.leb_spec 0 (- k)).
    - assert (k = 0) as -> by lia. simpl. rewrite Z.div_1_r. lia.
    - rewrite Z.opp_involutive. apply Z.div_1_r. }
  rewrite Hfloor.
  destruct (Z.ltb_spec (n * 2 ^ k) (2 ^ 52)); [lia|].
  rewrite Z.max_l by lia.
  assert (Hm : (if 0 <=? - k then round_half_even n (1 * 2 ^ (- k))
                else round_half_even (n * 2 ^ (- - k)) 1) = n * 2 ^ k).
  { destruct (Z.leb_spec 0 (- k)).
    - assert (k = 0) as -> by lia. simpl. rewrite round_half_even_1. lia.
    - rewrite Z.opp_involutive. apply round_half_even_1. }
  rewrite Hm.
  destruct (Z.ltb_spec 971 (- k)); [lia|].
  destruct (Z.eqb_spec (- k) 971); [lia|]. reflexivity.
Qed.

Lemma scaled_integer n k :
  0 <= k -> (inject_Z (n * 2 ^ k) * pow2 (- k) == inject_Z n)%Q.
Proof.
  intros Hk. unfold pow2.
  assert (Hp : 0 < 2 ^ k) by (apply Z.pow_pos_nonneg; lia).
  destruct (Z.leb_spec 0 (- k)).
  - assert (k = 0) as -> by lia. simpl. unfold Qeq. simpl. lia.
  - rewrite Z.opp_involutive. unfold Qeq, Qmult, inject_Z. simpl Qnum. simpl Qden.
    rewrite Z2Pos.id by exact Hp. lia.
Qed.

Lemma Qred_integer n : Qred (inject_Z n) = inject_Z n.
Proof.
  unfold Qred, inject_Z.
  generalize (Z.ggcd_gcd n 1) (Z.ggcd_correct_divisors n 1).
  destruct (Z.ggcd n 1) as (g, (a, b)). simpl fst. simpl snd. rewrite Z.gcd_1_r.
  intros -> [Ha Hb]. replace a with n by lia. replace b with 1 by lia. reflexivity.
Qed.

Lemma nearest_double_integer p :
  Z.abs p < 2 ^ 53 -> nearest_double (inject_Z p) = Finite (inject_Z p).
Proof.
  intros Hp. unfold nearest_double. cbn [Qnum Qden inject_Z].
  destruct p as [|n|n]; [reflexivity| |].
  - destruct (nearest_double_pos_integer (Zpos n) ltac:(lia)) as (k & Hk & ->).
    f_equal. rewrite <- (Qred_integer (Zpos n)). apply Qred_complete.
    now apply scaled_integer.
  - destruct (nearest_double_pos_integer (Zpos n) ltac:(lia)) as (k & Hk & ->).
    f_equal. rewrite <- (Qred_integer (Zneg n)). apply Qred_complete.
    rewrite (scaled_integer (Zpos n) k Hk). reflexivity.
Qed.

Lemma sent_integer p :
  Z.abs p < 2 ^ 53 -> sent (JNum (inject_Z p)) = JNum (inject_Z p).
Proof. intros H. cbn [sent]. now rewrite nearest_double_integer. Qed.

End JSFacts.

(* ===================================================================== *)
(** * Doubles: the operations of [Summary.percent] *)
(* ===================================================================== *)

Module FloatFacts.

Import SpecFloat.

(** ** The number of binary digits *)

Lemma digits2_pos_bounds p :
  2 ^ (Zpos (digits2_pos p) - 1) <= Zpos p < 2 ^ Zpos (digits2_pos p).
Proof.
  induction p as [p IH|p IH|]; cbn [digits2_pos].
  - rewrite Pos2Z.inj_succ.
    replace (Z.succ (Zpos (digits2_pos p)) - 1) with (Z.succ (Zpos (digits2_pos p) - 1)) by lia.
    rewrite !Z.pow_succ_r by lia. lia.
  - rewrite Pos2Z.inj_succ.
    replace (Z.succ (Zpos (digits2_pos p)) - 1) with (Z.succ (Zpos (digits2_pos p) - 1)) by lia.
    rewrite !Z.pow_succ_r by lia. lia.
  - cbn. lia.
Qed.

Lemma Zdigits2_bounds m :
  0 < m -> 2 ^ (Zdigits2 m - 1) <= m < 2 ^ Zdigits2 m.
Proof. destruct m as [|p|p]; try lia. intros _. apply digits2_pos_bounds. Qed.

Lemma Zdigits2_pos m : 0 < m -> 0 < Zdigits2 m.
Proof. destruct m; simpl; lia. Qed.

Lemma Zdigits2_unique m k :
  0 < m -> 2 ^ (k - 1) <= m < 2 ^ k -> Zdigits2 m = k.
Proof.
  intros Hm [Hlo Hhi]. pose proof (Zdigits2_bounds m Hm) as [Dlo Dhi].
  pose proof (Zdigits2_pos m Hm) as Hd.
  assert (Hk : 0 < k).
  { destruct (Z_lt_le_dec 0 k) as [|Hle]; [assumption|]. exfalso.
    destruct (Z.eq_dec k 0) as [->|Hne]; [simpl in Hhi; lia|].
    rewrite Z.pow_neg_r in Hhi by lia. lia. }
  destruct (Z.lt_trichotomy (Zdigits2 m) k) as [H|[H|H]]; [|exact H|].
  - assert (2 ^ Zdigits2 m <= 2 ^ (k - 1)) by (apply Z.pow_le_mono_r; lia). lia.
  - assert (2 ^ k <= 2 ^ (Zdigits2 m - 1)) by (apply Z.pow_le_mono_r; lia). lia.
Qed.

(** ** Shifting a mantissa to the right *)

Lemma shr_1_m mrs :
  0 <= shr_m mrs -> shr_m (shr_1 mrs) = shr_m mrs / 2.
Proof.
  destruct mrs as [m r s]. cbn [shr_m]. intros Hm.
  destruct m as [|[p|p|]|p]; cbn [shr_1 shr_m]; try reflexivity; try lia.
  - rewrite Pos2Z.inj_xI. apply (Z.div_unique _ _ _ 1); lia.
  - rewrite Pos2Z.inj_xO. apply (Z.div_unique _ _ _ 0); lia.
Qed.

Lemma iter_shr_1_m p : forall mrs,
  0 <= shr_m mrs ->
  shr_m (iter_pos shr_1 p mrs) = shr_m mrs / 2 ^ Zpos p.
Proof.
  assert (Hnn : forall a k, 0 <= a -> 0 <= k -> 0 <= a / 2 ^ k).
  { intros a k Ha Hk. apply Z.div_pos; [exact Ha|]. apply Z.pow_pos_nonneg; lia. }
  assert (Hdd : forall a j k, 0 <= j -> 0 <= k -> a / 2 ^ j / 2 ^ k = a / 2 ^ (j + k)).
  { intros a j k Hj Hk. rewrite Z.pow_add_r by lia.
    assert (0 < 2 ^ j) by (apply Z.pow_pos_nonneg; lia).
    assert (0 < 2 ^ k) by (apply Z.pow_pos_nonneg; lia).
    apply Z.div_div; lia. }
  induction p as [p IH|p IH|]; intros mrs Hm; cbn [iter_pos].
  - rewrite IH.
    + rewrite IH by (rewrite shr_1_m by exact Hm; apply Z.div_pos; lia).
      rewrite shr_1_m by exact Hm.
      change (shr_m mrs / 2) with (shr_m mrs / 2 ^ 1).
      rewrite !Hdd by lia. f_equal. f_equal. lia.
    + rewrite IH by (rewrite shr_1_m by exact Hm; apply Z.div_pos; lia).
      apply Hnn; [|lia]. rewrite shr_1_m by exact Hm. apply Z.div_pos; lia.
  - rewrite IH.
    + rewrite IH by exact Hm. rewrite Hdd by lia. f_equal. f_equal. lia.
    + rewrite IH by exact Hm. apply Hnn; lia.
  - rewrite shr_1_m by exact Hm. reflexivity.
Qed.

Lemma shr_m_e mrs e n :
  0 <= shr_m mrs -> 0 <= n ->
  shr_m (fst (shr mrs e n)) = shr_m mrs / 2 ^ n /\ snd (shr mrs e n) = e + n.
Proof.
  intros Hm Hn. destruct n as [|p|p]; cbn [shr fst snd]; [|split|lia].
  - rewrite Z.div_1_r. split; [reflexivity|lia].
  - now apply iter_shr_1_m.
  - reflexivity.
Qed.

Lemma shr_m_of_loc m l : shr_m (shr_record_of_loc m l) = m.
Proof. destruct l as [|[| |]]; reflexivity. Qed.

Lemma round_nearest_even_cases m l :
  round_nearest_even m l = m \/ round_nearest_even m l = m + 1.
Proof.
  destruct l as [|[| |]]; cbn [round_nearest_even]; try tauto.
  destruct (Z.even m); tauto.
Qed.

(** ** Rounding to 53 digits, for a result in the normal range *)

Lemma binary_round_aux_normal sx mx ex lx :
  let d := Zdigits2 mx in
  let e0 := d + ex - 53 in
  0 < mx -> 53 <= d -> -1074 <= e0 -> e0 < 971 ->
  exists m e m1,
    binary_round_aux prec emax sx mx ex lx = S754_finite sx m e
    /\ mx / 2 ^ (d - 53) <= m1 <= mx / 2 ^ (d - 53) + 1
    /\ (lx = loc_Exact -> d = 53 -> m1 = mx)
    /\ e0 <= e <= e0 + 1
    /\ Zpos m * 2 ^ (e - e0) = m1
    /\ 2 ^ 52 <= Zpos m < 2 ^ 53.
Proof.
  intros d e0 Hmx Hd Hlo Hhi.
  pose proof (Zdigits2_bounds mx Hmx) as [Dlo Dhi]. fold d in Dlo, Dhi.
  set (n := d - 53).
  assert (Hfexp : fexp prec emax (d + ex) = e0).
  { unfold fexp, SpecFloat.emin, prec, emax. unfold e0. lia. }
  assert (Hpow : 2 ^ (d - 1) = 2 ^ 52 * 2 ^ n /\ 2 ^ d = 2 ^ 53 * 2 ^ n).
  { split; rewrite <- Z.pow_add_r by (unfold n; lia); f_equal; unfold n; lia. }
  destruct Hpow as [P1 P2].
  assert (Hn : 0 < 2 ^ n) by (apply Z.pow_pos_nonneg; unfold n; lia).
  set (m' := mx / 2 ^ n).
  assert (Hm' : 2 ^ 52 <= m' < 2 ^ 53).
  { unfold m'. split.
    - apply Z.div_le_lower_bound; [exact Hn|]. lia.
    - apply Z.div_lt_upper_bound; [exact Hn|]. lia. }
  unfold binary_round_aux, shr_fexp. fold d. rewrite Hfexp.
  replace (e0 - ex) with n by (unfold e0, n; lia).
  pose proof (shr_m_e (shr_record_of_loc mx lx) ex n) as Hs.
  rewrite shr_m_of_loc in Hs. specialize (Hs ltac:(lia) ltac:(unfold n; lia)).
  destruct (shr (shr_record_of_loc mx lx) ex n) as [mrs' e'] eqn:Eshr.
  cbn [fst snd] in Hs. destruct Hs as [Hm He]. fold m' in Hm.
  replace (ex + n) with e0 in He by (unfold e0, n; lia). subst e'.
  set (m1 := round_nearest_even (shr_m mrs') (loc_of_shr_record mrs')).
  assert (Hm1 : m1 = m' \/ m1 = m' + 1)
    by (unfold m1; rewrite <- Hm; apply round_nearest_even_cases).
  assert (Hexact : lx = loc_Exact -> d = 53 -> m1 = mx).
  { intros -> Hd53. unfold m1.
    assert (n = 0) as Hn0 by (unfold n; lia). rewrite Hn0 in Eshr.
    cbn in Eshr. injection Eshr as <-. reflexivity. }
  assert (Hm1r : 2 ^ 52 <= m1 <= 2 ^ 53) by lia.
  destruct (Z_lt_le_dec m1 (2 ^ 53)) as [Hlt|Hge].
  - assert (Hd1 : Zdigits2 m1 = 53) by (apply Zdigits2_unique; simpl; lia).
    rewrite Hd1.
    replace (fexp prec emax (53 + e0) - e0) with 0
      by (unfold fexp, SpecFloat.emin, prec, emax; lia).
    cbn [shr]. rewrite shr_m_of_loc.
    destruct m1 as [|q|q] eqn:Eq; [simpl in Hm1r; lia| |lia].
    replace (e0 <=? emax - prec) with true
      by (symmetry; apply Z.leb_le; unfold emax, prec; lia).
    exists q, e0, (Zpos q). split; [reflexivity|].
    split; [change (mx / 2 ^ (d - 53)) with m'; lia|]. split; [exact Hexact|].
    split; [lia|]. split; [rewrite Z.sub_diag; simpl; lia|]. lia.
  - assert (E53 : m1 = 2 ^ 53) by lia.
    assert (Hd1 : Zdigits2 m1 = 54) by (rewrite E53; reflexivity).
    rewrite Hd1.
    replace (fexp prec emax (54 + e0) - e0) with 1
      by (unfold fexp, SpecFloat.emin, prec, emax; lia).
    rewrite E53. cbn [shr shr_record_of_loc iter_pos].
    change (shr_m (shr_1 {| shr_m := 2 ^ 53; shr_r := false; shr_s := false |}))
      with (2 ^ 52).
    change (2 ^ 52) with (Zpos 4503599627370496) at 1.
    cbv iota.
    replace (e0 + 1 <=? emax - prec) with true
      by (symmetry; apply Z.leb_le; unfold emax, prec; lia).
    exists 4503599627370496%positive, (e0 + 1), (2 ^ 53).
    split; [reflexivity|]. split; [change (mx / 2 ^ (d - 53)) with m'; lia|].
    split; [rewrite <- E53; exact Hexact|]. split; [lia|].
    split; [replace (e0 + 1 - e0) with 1 by lia; reflexivity|]. simpl; lia.
Qed.


(** ** The double_value of a double *)

Local Open Scope Q_scope.

Definition double_value (m : positive) (e : Z) : Q := inject_Z (Zpos m) * 2 ^ e.

Lemma pow2_pos e : 0 < 2 ^ e.
Proof. apply Qpower_0_lt. reflexivity. Qed.

Lemma pow2_add a b : 2 ^ (a + b) == 2 ^ a * 2 ^ b.
Proof. apply Qpower_plus. discriminate. Qed.

Lemma pow2_inject k : (0 <= k)%Z -> inject_Z (2 ^ k) == 2 ^ k.
Proof. intros H. now rewrite Zpower_Qpower. Qed.

Lemma inject_le a b : (a <= b)%Z -> inject_Z a <= inject_Z b.
Proof. intros H. now rewrite <- Zle_Qle. Qed.

Lemma inject_sub a b : inject_Z (a - b) == inject_Z a - inject_Z b.
Proof.
  unfold Z.sub, Qminus. now rewrite inject_Z_plus, inject_Z_opp.
Qed.

Lemma inject_lt a b : (a < b)%Z -> inject_Z a < inject_Z b.
Proof. intros H. now rewrite <- Zlt_Qlt. Qed.

(** The double that [binary_round_aux] returns for a real [X] of which
    [mx * 2^ex] is the truncation lies within one unit in the last place
    [w] of [X]. *)
Lemma binary_round_aux_value sx mx ex lx (X : Q) :
  let d := Zdigits2 mx in
  let e0 := (d + ex - 53)%Z in
  (0 < mx)%Z -> (53 <= d)%Z -> (-1074 <= e0)%Z -> (e0 < 971)%Z ->
  inject_Z mx * 2 ^ ex <= X -> X < inject_Z (mx + 1) * 2 ^ ex ->
  exists m e w,
    binary_round_aux prec emax sx mx ex lx = S754_finite sx m e
    /\ 0 < w /\ 2 ^ 52 * w <= double_value m e
    /\ X - w <= double_value m e /\ double_value m e <= X + w
    /\ (lx = loc_Exact -> d = 53%Z -> double_value m e == inject_Z mx * 2 ^ ex)
    /\ (e0 <= e <= e0 + 1)%Z
    /\ (2 ^ 52 <= Zpos m < 2 ^ 53)%Z.
Proof.
  intros d e0 Hmx Hd Hlo Hhi HX1 HX2.
  destruct (binary_round_aux_normal sx mx ex lx Hmx Hd Hlo Hhi)
    as (m & e & m1 & E & Hm1 & Hexact & He & Hval & Hm).
  change (Zdigits2 mx) with d in Hm1, Hexact, He, Hval.
  change (d + ex - 53)%Z with e0 in He, Hval.
  exists m, e, (2 ^ e0). split; [exact E|]. split; [apply pow2_pos|].
  set (j := (d - 53)%Z) in *.
  assert (Hj : (0 <= j)%Z) by (unfold j; lia).
  assert (HJ : (0 < 2 ^ j)%Z) by (apply Z.pow_pos_nonneg; lia).
  set (q := (mx / 2 ^ j)%Z) in *.
  assert (Hq : (q * 2 ^ j <= mx < (q + 1) * 2 ^ j)%Z).
  { unfold q. pose proof (Z.mul_div_le mx (2 ^ j) HJ).
    pose proof (Z.mul_succ_div_gt mx (2 ^ j) HJ). lia. }
  pose proof (Zdigits2_bounds mx Hmx) as [Dlo _]. fold d in Dlo.
  assert (Hq52 : (2 ^ 52 <= q)%Z).
  { unfold q. apply Z.div_le_lower_bound; [exact HJ|].
    replace (d - 1)%Z with (j + 52)%Z in Dlo by (unfold j; lia).
    rewrite Z.pow_add_r in Dlo by lia. lia. }
  assert (Hv : double_value m e == inject_Z m1 * 2 ^ e0).
  { unfold double_value. rewrite <- Hval. rewrite inject_Z_mult.
    rewrite pow2_inject by lia. rewrite <- Qmult_assoc, <- pow2_add.
    replace (e - e0 + e0)%Z with e by lia. reflexivity. }
  assert (Hw : 2 ^ e0 == inject_Z (2 ^ j) * 2 ^ ex).
  { rewrite pow2_inject by lia. rewrite <- pow2_add.
    replace (j + ex)%Z with e0 by (unfold j, e0; lia). reflexivity. }
  pose proof (pow2_pos ex) as Hex. pose proof (pow2_pos e0) as He0.
  assert (Hlow : inject_Z q * 2 ^ e0 <= X).
  { rewrite Hw, Qmult_assoc, <- inject_Z_mult.
    eapply Qle_trans; [|exact HX1].
    apply Qmult_le_compat_r; [apply inject_le; lia|now apply Qlt_le_weak]. }
  assert (Hupp : X <= inject_Z (q + 1) * 2 ^ e0).
  { rewrite Hw, Qmult_assoc, <- inject_Z_mult.
    eapply Qle_trans; [apply Qlt_le_weak; exact HX2|].
    apply Qmult_le_compat_r; [apply inject_le; lia|now apply Qlt_le_weak]. }
  rewrite inject_Z_plus in Hupp.
  assert (H1 : inject_Z q * 2 ^ e0 <= inject_Z m1 * 2 ^ e0)
    by (apply Qmult_le_compat_r; [apply inject_le; lia|now apply Qlt_le_weak]).
  assert (H2 : inject_Z m1 * 2 ^ e0 <= inject_Z (q + 1) * 2 ^ e0)
    by (apply Qmult_le_compat_r; [apply inject_le; lia|now apply Qlt_le_weak]).
  rewrite inject_Z_plus in H2.
  assert (H3 : 2 ^ 52 * 2 ^ e0 <= inject_Z q * 2 ^ e0).
  { apply Qmult_le_compat_r; [|now apply Qlt_le_weak].
    rewrite <- (pow2_inject 52) by lia. apply inject_le. exact Hq52. }
  change (inject_Z 1) with 1 in *.
  split; [rewrite Hv; lra|]. split; [rewrite Hv; lra|]. split; [rewrite Hv; lra|].
  split; [|split; assumption].
  intros Hl Hd53. rewrite Hv, (Hexact Hl Hd53).
  replace e0 with ex by (unfold e0; lia). reflexivity.
Qed.


Lemma value_pos m e : 0 < double_value m e.
Proof.
  unfold double_value. apply Qmult_lt_0_compat; [reflexivity|apply pow2_pos].
Qed.

(** ** An array length as a double *)

Lemma iter_xO k p : (Zpos (Pos.iter xO p k) = Zpos p * 2 ^ Zpos k)%Z.
Proof.
  induction k as [|k IH] using Pos.peano_ind.
  - cbn [Pos.iter]. rewrite Pos2Z.inj_xO. change (2 ^ 1)%Z with 2%Z. lia.
  - rewrite Pos.iter_succ, Pos2Z.inj_xO, IH, Pos2Z.inj_succ, Z.pow_succ_r by lia.
    lia.
Qed.

Lemma shl_align_small p :
  let d := Zpos (digits2_pos p) in
  (d <= 53)%Z ->
  exists mz, shl_align p 0 (d - 53) = (mz, (d - 53)%Z)
             /\ (Zpos mz = Zpos p * 2 ^ (53 - d))%Z.
Proof.
  intros d Hd. unfold shl_align. rewrite Z.sub_0_r.
  destruct (d - 53)%Z as [|k|k] eqn:E; [|lia|].
  - exists p. split; [reflexivity|].
    replace (53 - d)%Z with 0%Z by lia. simpl. lia.
  - exists (Pos.iter xO p k). split; [reflexivity|].
    rewrite iter_xO. f_equal. f_equal. lia.
Qed.

Lemma float_of_nat_value k :
  (0 < k)%nat -> (Z.of_nat k < 2 ^ 53)%Z ->
  exists m e,
    Prim2SF (Summary.float_of_nat k) = S754_finite false m e
    /\ (2 ^ 52 <= Zpos m < 2 ^ 53)%Z /\ (-52 <= e <= 1)%Z
    /\ double_value m e == inject_Z (Z.of_nat k).
Proof.
  intros Hk Hlt. unfold Summary.float_of_nat.
  rewrite of_uint63_spec, Uint63.of_Z_spec.
  rewrite Z.mod_small by (split; [lia|]; apply Z.lt_trans with (2 ^ 53)%Z;
                          [exact Hlt|reflexivity]).
  destruct (Z.of_nat k) as [|p|p] eqn:Ep; [lia| |lia].
  cbn [binary_normalize]. unfold binary_round.
  pose proof (digits2_pos_bounds p) as [Dlo Dhi].
  set (d := Zpos (digits2_pos p)) in *.
  assert (Hd : (1 <= d <= 53)%Z).
  { split; [unfold d; lia|].
    destruct (Z_le_gt_dec d 53) as [|Hgt]; [assumption|].
    assert (2 ^ 53 <= 2 ^ (d - 1))%Z by (apply Z.pow_le_mono_r; lia). lia. }
  assert (Hf : fexp prec emax (d + 0) = (d - 53)%Z)
    by (unfold fexp, SpecFloat.emin, prec, emax; lia).
  rewrite Hf.
  destruct (shl_align_small p (proj2 Hd)) as (mz & Hs & Hmz).
  fold d in Hs. rewrite Hs.
  fold d in Hmz.
  assert (Hpow : (2 ^ (d - 1) * 2 ^ (53 - d) = 2 ^ 52
                  /\ 2 ^ d * 2 ^ (53 - d) = 2 ^ 53)%Z).
  { split; rewrite <- Z.pow_add_r by lia; f_equal; lia. }
  assert (Hmzr : (2 ^ 52 <= Zpos mz < 2 ^ 53)%Z).
  { assert (0 < 2 ^ (53 - d))%Z by (apply Z.pow_pos_nonneg; lia). nia. }
  assert (Hdz : Zdigits2 (Zpos mz) = 53%Z)
    by (apply Zdigits2_unique; [lia|exact Hmzr]).
  destruct (binary_round_aux_value false (Zpos mz) (d - 53) loc_Exact
              (inject_Z (Zpos mz) * 2 ^ (d - 53)))
    as (m & e & w & E & _ & _ & _ & _ & Hex & He & Hm).
  - lia.
  - rewrite Hdz. lia.
  - rewrite Hdz. lia.
  - rewrite Hdz. lia.
  - apply Qle_refl.
  - apply Qmult_lt_compat_r; [apply pow2_pos|apply inject_lt; lia].
  - rewrite Hdz in He. exists m, e. split; [exact E|]. split; [exact Hm|].
    split; [lia|]. rewrite (Hex eq_refl Hdz), Hmz, inject_Z_mult.
    rewrite pow2_inject by lia. rewrite <- Qmult_assoc, <- pow2_add.
    replace (53 - d + (d - 53))%Z with 0%Z by lia.
    change (2 ^ 0) with 1. apply Qmult_1_r.
Qed.

(** ** Division and multiplication *)

Lemma Zdigits2_53 m : (2 ^ 52 <= Zpos m < 2 ^ 53)%Z -> Zdigits2 (Zpos m) = 53%Z.
Proof. intros H. apply Zdigits2_unique; [lia|exact H]. Qed.

Lemma SFdiv_value m1 e1 m2 e2 :
  (2 ^ 52 <= Zpos m1 < 2 ^ 53)%Z -> (2 ^ 52 <= Zpos m2 < 2 ^ 53)%Z ->
  (-60 <= e1 <= 10)%Z -> (-60 <= e2 <= 10)%Z ->
  exists m e w,
    SFdiv prec emax (S754_finite false m1 e1) (S754_finite false m2 e2)
    = S754_finite false m e
    /\ 0 < w /\ 2 ^ 52 * w <= double_value m e
    /\ double_value m1 e1 / double_value m2 e2 - w <= double_value m e
    /\ double_value m e <= double_value m1 e1 / double_value m2 e2 + w
    /\ (2 ^ 52 <= Zpos m < 2 ^ 53)%Z /\ (-130 <= e <= 30)%Z.
Proof.
  intros Hm1 Hm2 He1 He2. cbn [SFdiv xorb]. unfold SFdiv_core_binary.
  rewrite (Zdigits2_53 m1 Hm1), (Zdigits2_53 m2 Hm2).
  set (e' := (e1 - e2 - 53)%Z).
  replace (Z.min (fexp prec emax (53 + e1 - (53 + e2))) (e1 - e2)) with e'
    by (unfold fexp, SpecFloat.emin, prec, emax, e'; lia).
  replace (e1 - e2 - e')%Z with 53%Z by (unfold e'; lia).
  cbv iota. rewrite Z.shiftl_mul_pow2 by lia.
  set (m' := (Zpos m1 * 2 ^ 53)%Z).
  assert (Hq : Z.div_eucl m' (Zpos m2) = ((m' / Zpos m2)%Z, (m' mod Zpos m2)%Z)).
  { unfold Z.div, Z.modulo. now destruct (Z.div_eucl m' (Zpos m2)). }
  rewrite Hq. set (q := (m' / Zpos m2)%Z).
  assert (Hqm : (q * Zpos m2 <= m' < (q + 1) * Zpos m2)%Z).
  { unfold q. pose proof (Z.mul_div_le m' (Zpos m2) ltac:(lia)).
    pose proof (Z.mul_succ_div_gt m' (Zpos m2) ltac:(lia)). lia. }
  assert (Hqr : (2 ^ 52 <= q < 2 ^ 54)%Z).
  { unfold q. split.
    - apply Z.div_le_lower_bound; [lia|]. unfold m'. nia.
    - apply Z.div_lt_upper_bound; [lia|]. unfold m'.
      change (2 ^ 54)%Z with (2 * 2 ^ 53)%Z. nia. }
  assert (Hq0 : (0 < q)%Z) by (simpl in Hqr; lia).
  pose proof (Zdigits2_bounds q Hq0) as [Dlo Dhi].
  assert (Hd : (53 <= Zdigits2 q <= 54)%Z).
  { split.
    - destruct (Z_le_gt_dec 53 (Zdigits2 q)) as [|Hgt]; [assumption|].
      assert (2 ^ Zdigits2 q <= 2 ^ 52)%Z by (apply Z.pow_le_mono_r; lia). lia.
    - destruct (Z_le_gt_dec (Zdigits2 q) 54) as [|Hgt]; [assumption|].
      assert (2 ^ 54 <= 2 ^ (Zdigits2 q - 1))%Z by (apply Z.pow_le_mono_r; lia). lia. }
  set (X := double_value m1 e1 / double_value m2 e2).
  pose proof (value_pos m2 e2) as Hv2.
  assert (HX : X * double_value m2 e2 == double_value m1 e1).
  { unfold X. field. intros H. rewrite H in Hv2. now apply Qlt_irrefl in Hv2. }
  assert (Hscale : forall a : Z,
             inject_Z a * 2 ^ e' * double_value m2 e2
             == inject_Z (a * Zpos m2) * 2 ^ (e1 - 53)).
  { intros a. unfold double_value. rewrite inject_Z_mult.
    replace (e1 - 53)%Z with (e' + e2)%Z by (unfold e'; lia).
    rewrite pow2_add. ring. }
  assert (Hm' : inject_Z m' * 2 ^ (e1 - 53) == double_value m1 e1).
  { unfold m', double_value. rewrite inject_Z_mult, pow2_inject by lia.
    rewrite <- Qmult_assoc, <- pow2_add.
    replace (53 + (e1 - 53))%Z with e1 by lia. reflexivity. }
  pose proof (pow2_pos (e1 - 53)) as Hp.
  destruct (binary_round_aux_value false q e' (new_location (Zpos m2) (m' mod Zpos m2)) X)
    as (m & e & w & E & Hw & H52 & Hlo & Hhi & _ & He & Hm); try lia.
  - apply (Qmult_le_r _ _ (double_value m2 e2) Hv2). rewrite Hscale, HX, <- Hm'.
    apply Qmult_le_compat_r; [apply inject_le; lia|now apply Qlt_le_weak].
  - apply (Qmult_lt_r _ _ (double_value m2 e2) Hv2). rewrite Hscale, HX, <- Hm'.
    apply Qmult_lt_compat_r; [exact Hp|apply inject_lt; lia].
  - exists m, e, w. repeat split; try assumption; unfold e' in He; lia.
Qed.

Lemma SFmul_100_value m e :
  (2 ^ 52 <= Zpos m < 2 ^ 53)%Z -> (-130 <= e <= 30)%Z ->
  exists m' e' w,
    SFmul prec emax (S754_finite false m e) (Prim2SF 100%float)
    = S754_finite false m' e'
    /\ 0 < w /\ 2 ^ 52 * w <= double_value m' e'
    /\ double_value m e * 100 - w <= double_value m' e'
    /\ double_value m' e' <= double_value m e * 100 + w
    /\ (2 ^ 52 <= Zpos m' < 2 ^ 53)%Z.
Proof.
  intros Hm He.
  change (Prim2SF 100%float) with (S754_finite false 7036874417766400 (-46)).
  cbn [SFmul xorb]. rewrite Pos2Z.inj_mul.
  set (P := (Zpos m * 7036874417766400)%Z).
  assert (HP : (2 ^ 104 <= P < 2 ^ 106)%Z).
  { unfold P. change 7036874417766400%Z with (100 * 2 ^ 46)%Z.
    change (2 ^ 104)%Z with (2 ^ 52 * 2 ^ 52)%Z.
    change (2 ^ 106)%Z with (2 ^ 53 * 2 ^ 53)%Z.
    change (2 ^ 46)%Z with 70368744177664%Z.
    change (2 ^ 52)%Z with 4503599627370496%Z in *.
    change (2 ^ 53)%Z with 9007199254740992%Z in *. lia. }
  assert (HP0 : (0 < P)%Z) by (simpl in HP; lia).
  pose proof (Zdigits2_bounds P HP0) as [Dlo Dhi].
  assert (Hd : (105 <= Zdigits2 P <= 106)%Z).
  { split.
    - destruct (Z_le_gt_dec 105 (Zdigits2 P)) as [|Hgt]; [assumption|].
      assert (2 ^ Zdigits2 P <= 2 ^ 104)%Z by (apply Z.pow_le_mono_r; lia). lia.
    - destruct (Z_le_gt_dec (Zdigits2 P) 106) as [|Hgt]; [assumption|].
      assert (2 ^ 106 <= 2 ^ (Zdigits2 P - 1))%Z by (apply Z.pow_le_mono_r; lia). lia. }
  assert (HX : double_value m e * 100 == inject_Z P * 2 ^ (e + -46)).
  { unfold double_value, P. rewrite inject_Z_mult, pow2_add.
    assert (E100 : 100 == inject_Z 7036874417766400 * 2 ^ (-46)) by reflexivity.
    rewrite E100. ring. }
  destruct (binary_round_aux_value false P (e + -46) loc_Exact (double_value m e * 100))
    as (m' & e' & w & E & Hw & H52 & Hlo & Hhi & _ & _ & Hm'); try lia.
  - rewrite HX. apply Qle_refl.
  - rewrite HX. apply Qmult_lt_compat_r; [apply pow2_pos|apply inject_lt; lia].
  - exists m', e', w. repeat split; try assumption; lia.
Qed.

(** ** Math.round *)

Lemma Math_round_value x m e :
  Prim2SF x = S754_finite false m e ->
  (2 ^ 52 <= Zpos m)%Z -> double_value m e < 2 ^ 52 ->
  Summary.Math_round x = Qfloor (double_value m e + (1 # 2)).
Proof.
  intros Hx Hm Hv. unfold Summary.Math_round. rewrite Hx.
  destruct (Z.leb_spec 0 e) as [He|He].
  - exfalso. apply (Qlt_irrefl (2 ^ 52)). eapply Qle_lt_trans; [|exact Hv].
    unfold double_value. rewrite <- (Qmult_1_r (2 ^ 52)).
    apply Qmult_le_compat_nonneg.
    + split; [discriminate|]. rewrite <- (pow2_inject 52) by lia.
      now apply inject_le.
    + split; [discriminate|]. change 1 with (2 ^ 0).
      apply Qpower_le_compat_l; [exact He|discriminate].
  - set (k := (- e)%Z). assert (Hk : (0 < k)%Z) by (unfold k; lia).
    rewrite Z.shiftl_1_l, Z.shiftr_div_pow2 by lia.
    rewrite Zdiv_Qdiv. apply Qfloor_comp.
    replace (1 - e)%Z with (k + 1)%Z by (unfold k; lia).
    rewrite inject_Z_plus, inject_Z_mult, !pow2_inject by lia.
    unfold double_value. replace e with (- k)%Z by (unfold k; lia).
    rewrite Qpower_opp, pow2_add. change (2 ^ 1) with 2.
    change (inject_Z 2) with 2.
    pose proof (pow2_pos k) as Hp. field.
    intros H. rewrite H in Hp. now apply Qlt_irrefl in Hp.
Qed.

End FloatFacts.

(* ===================================================================== *)
(** * Properties of POST /api/ai/parse-todo *)
(* ===================================================================== *)

Module ParseTodoProps.

Import ParseTodo JSFacts.





(** The status and the code of the errors that the endpoint answers
    after the input has passed its checks; the last one, for a reply that
    [JSON.parse] rejects, has no code. *)
Definition upstream_failures : list (Z * option jsstr) :=
  [ (429, Some (lit "RATE_LIMIT_EXCEEDED"));
    (401, Some (lit "AUTHENTICATION_FAILED"));
    (500, Some (lit "PARSE_ERROR"));
    (500, Some (lit "NETWORK_ERROR"));
    (500, Some (lit "INTERNAL_ERROR"));
    (500, None) ].

Ltac listed :=
  cbn [In];
  repeat match goal with
         | |- ?x = ?x \/ _ => left; reflexivity
         | |- _ \/ _ => right
         end.

(** ** validateInput *)

Lemma validateInput_null :
  validateInput None
  = Invalid (lit "입력 텍스트가 필요합니다.") (lit "MISSING_INPUT").
Proof. reflexivity. Qed.

Lemma validateInput_empty :
  validateInput (Some [])
  = Invalid (lit "내용을 입력해 주세요.") (lit "EMPTY_INPUT").
Proof. reflexivity. Qed.

Lemma meaningfulText_blank s : forallb is_space s = true -> meaningfulText s = [].
Proof.
  induction s as [|c s IH]; simpl; [reflexivity|].
  intros H. apply andb_true_iff in H as [Hc Hs]. rewrite Hc. simpl. now apply IH.
Qed.

Lemma validateInput_blank c s :
  forallb is_space (c :: s) = true ->
  validateInput (Some (c :: s : jsstr))
  = Invalid (lit "내용을 입력해 주세요.") (lit "INVALID_CONTENT").
Proof.
  intros H. unfold validateInput.
  rewrite (meaningfulText_blank _ H). reflexivity.
Qed.

Lemma validateInput_valid s :
  (2 <= length (meaningfulText s))%nat -> (length s <= 500)%nat ->
  validateInput (Some s) = Valid /\ exists c r, s = c :: r.
Proof.
  intros H2 H500. unfold validateInput.
  destruct s as [|c r]; [simpl in H2; lia|].
  split; [|eauto].
  replace (Nat.eqb (length (c :: r)) 0) with false by reflexivity.
  destruct (Nat.eqb_spec (length (meaningfulText (c :: r))) 0); [lia|].
  destruct (Nat.ltb_spec (length (meaningfulText (c :: r))) 2); [lia|].
  destruct (Nat.ltb_spec 500 (length (c :: r))); [lia|].
  reflexivity.
Qed.

(** ** Computations that return *)

Lemma bind_Returns {A B} (m : step A) (f : A -> step B) b :
  bind m f = Returns b -> exists a, m = Returns a /\ f a = Returns b.
Proof. destruct m as [a|e]; simpl; [eauto|discriminate]. Qed.

Ltac returns H :=
  let a := fresh "a" in
  let Ha := fresh "Ha" in
  apply bind_Returns in H as (a & Ha & H).

(** ** Numbers *)


Lemma Qle_bool_false a b : Qle_bool a b = false -> (b < a)%Q.
Proof.
  intros H. apply Qnot_le_lt. intros Hle.
  apply Qle_bool_iff in Hle. congruence.
Qed.


Lemma number_lt_true a b : number_lt (Finite a) (Finite b) = true -> (a < b)%Q.
Proof.
  cbn [number_lt]. intros H. apply negb_true_iff in H. now apply Qle_bool_false.
Qed.



(** ** The statements of [postprocessData] *)

Section Handler.

Variable toLowerCase : jsstr -> jsstr.
Variable Date_parse_other : jsstr -> option Z.
Variable message : type_error -> jsstr.

Local Abbreviation POST := (ParseTodo.POST toLowerCase Date_parse_other message).
Local Abbreviation postprocessData := (ParseTodo.postprocessData Date_parse_other).
Local Abbreviation adjust_due_date := (ParseTodo.adjust_due_date Date_parse_other).
Local Abbreviation preprocessInput := (ParseTodo.preprocessInput toLowerCase).
Local Abbreviation Date_parse := (ParseTodo.Date_parse Date_parse_other).
Local Abbreviation Date_of := (ParseTodo.Date_of Date_parse_other).

(** A title that is not truthy stays. *)
Lemma title_falsy t :
  truthy t = false ->
  (t1 <- shorten_title t ;; replace_short_title t1) = Returns t.
Proof.
  intros H. unfold shorten_title, replace_short_title.
  destruct t as [v|]; [|reflexivity]. rewrite H. cbn [bind]. now rewrite H.
Qed.




(** What the statement on [data.due_date] leaves there: today, or the
    model's value when [new Date] of it is not before today. *)
Lemma adjust_due_date_inv today data due :
  adjust_due_date today data = Returns due ->
  due = JStr today
  \/ exists tv, get data (lit "due_date") = Some due
                /\ truthy (Some due) = true
                /\ Date_of due = Returns tv
                /\ time_lt tv (Date_parse today) = false.
Proof.
  unfold ParseTodo.adjust_due_date. cbv zeta.
  destruct (get data (lit "due_date")) as [v|].
  - destruct (truthy (Some v)) eqn:Etr; [|intros H; injection H as <-; now left].
    intros H. returns H.
    destruct (time_lt a (Date_parse today)) eqn:El; injection H as <-; [now left|].
    right. exists a. repeat split; assumption.
  - destruct data; intros H; try discriminate H; injection H as <-; now left.
Qed.

(** What the statement on [data.priority] leaves there. *)
Lemma adjust_priority_inv p r :
  adjust_priority p = Returns r ->
  (truthy p = false /\ r = p)
  \/ r = Some (JNum 2)
  \/ exists x n, p = Some x /\ r = Some x /\ truthy (Some x) = true
                 /\ ToNumber x = Some n
                 /\ number_lt n (Finite 1) = false
                 /\ number_lt (Finite 3) n = false.
Proof.
  unfold adjust_priority. destruct (truthy p) eqn:Etr;
    [|intros H; injection H as <-; now left].
  destruct p as [x|]; [|discriminate Etr].
  unfold less_than, greater_than, to_number.
  destruct (ToNumber x) as [n|] eqn:En; [|discriminate].
  cbn [bind].
  destruct (number_lt n (Finite 1)) eqn:E1;
    [intros H; injection H as <-; right; now left|].
  destruct (number_lt (Finite 3) n) eqn:E3;
    intros H; injection H as <-; right; [now left|].
  right. exists x, n. repeat split; try assumption; reflexivity.
Qed.

Lemma cleaned_strings l :
  exists strs,
    map (fun t => match t with JStr s => JStr (trim s) | _ => t end)
        (filter (fun t => match t with
                          | JStr s => Nat.ltb 0 (length (trim s))
                          | _ => false
                          end) l)
    = map JStr strs
    /\ Forall (fun s => trim s = s /\ s <> []) strs.
Proof.
  induction l as [|t l (strs & IH & HF)]; [now exists []|].
  simpl. destruct t as [| | |s| |]; try (exists strs; now split).
  destruct (Nat.ltb_spec 0 (length (trim s))) as [Hpos|]; [|exists strs; now split].
  exists (trim s :: strs). simpl. rewrite IH. split; [reflexivity|].
  constructor; [|exact HF]. split; [apply trim_idem|].
  intros E. rewrite E in Hpos. simpl in Hpos. lia.
Qed.


(** The members after [postprocessData]. *)
Lemma postprocessData_inv today data p :
  postprocessData today data = Returns p ->
  data <> JNull
  /\ (t1 <- shorten_title (get data (lit "title")) ;; replace_short_title t1)
     = Returns (data_title p)
  /\ (exists due, data_due_date p = Some due
                  /\ adjust_due_date today data = Returns due)
  /\ adjust_priority (get data (lit "priority")) = Returns (data_priority p)
  /\ data_description p = get data (lit "description")
  /\ data_due_time p = get data (lit "due_time")
  /\ data_tags p = Some (adjust_tags (get data (lit "tags"))).
Proof.
  intros H.
  assert (Hnn : data <> JNull) by (intros ->; discriminate H).
  split; [exact Hnn|].
  assert (H' : (title1 <- shorten_title (get data (lit "title")) ;;
                title2 <- replace_short_title title1 ;;
                due <- adjust_due_date today data ;;
                prio <- adjust_priority (get data (lit "priority")) ;;
                Returns {| data_title := title2;
                           data_description := get data (lit "description");
                           data_due_date := Some due;
                           data_due_time := get data (lit "due_time");
                           data_priority := prio;
                           data_tags := Some (adjust_tags (get data (lit "tags"))) |})
               = Returns p).
  { destruct data; [contradiction| | | | |]; exact H. }
  clear H.
  apply bind_Returns in H' as (t1 & Ht1 & H').
  apply bind_Returns in H' as (t2 & Ht2 & H').
  apply bind_Returns in H' as (due & Hdue & H').
  apply bind_Returns in H' as (prio & Hprio & H').
  injection H' as <-.
  cbn [data_title data_description data_due_date data_due_time data_priority
       data_tags].
  split; [rewrite Ht1; exact Ht2|].
  split; [eauto|]. repeat split; assumption.
Qed.


(** ** The checks before the model is called *)

(** The handler on a body that is not [null]. *)
Lemma POST_body b today ai :
  b <> JNull ->
  POST true (JsonValue b) today ai
  = match get b (lit "input") with
    | Some (JStr (c :: s)) =>
      match validateInput (Some (c :: s : jsstr)) with
      | Invalid e code =>
        {| result := Fail 400 e (Some code); model_calls := [] |}
      | Valid =>
        {| model_calls := [preprocessInput (c :: s)];
           result :=
             match ai with
             | AiThrows msg => on_throw msg
             | AiText text =>
               match JSON_parse (jsonString text) with
               | None => Fail 500 (lit "AI 응답을 파싱할 수 없습니다.") None
               | Some parsedData =>
                 match (postprocessedData <- postprocessData today parsedData ;;
                        validatedData today (preprocessInput (c :: s))
                                      postprocessedData) with
                 | Returns d => Ok d
                 | Throws e => on_throw (Some (message e))
                 end
               end
             end |}
      end
    | _ =>
      {| result := Fail 400 (lit "입력 텍스트가 필요합니다.")
                        (Some (lit "MISSING_INPUT"));
         model_calls := [] |}
    end.
Proof. intros H. destruct b; [contradiction| | | | |]; reflexivity. Qed.

Lemma get_not_null b k v : get b k = Some v -> b <> JNull.
Proof. intros H ->. discriminate H. Qed.

(** C2. For the empty string the endpoint answers 400 before any model
    call, but with the code MISSING_INPUT: the handler's first check
    [!input] already holds for it, so the EMPTY_INPUT that [validateInput]
    gives for the empty string is never sent. *)
Theorem POST_empty_string_is_MISSING_INPUT today ai :
  POST true (JsonValue (JObj [(lit "input", JStr [])])) today ai
  = {| result := Fail 400 (lit "입력 텍스트가 필요합니다.")
                      (Some (lit "MISSING_INPUT"));
       model_calls := [] |}
  /\ validateInput (Some [])
     = Invalid (lit "내용을 입력해 주세요.") (lit "EMPTY_INPUT").
Proof. split; reflexivity. Qed.

Lemma POST_blank b c s today ai :
  get b (lit "input") = Some (JStr (c :: s)) ->
  forallb is_space (c :: s) = true ->
  POST true (JsonValue b) today ai
  = {| result := Fail 400 (lit "내용을 입력해 주세요.")
                      (Some (lit "INVALID_CONTENT"));
       model_calls := [] |}.
Proof.
  intros Hb H. rewrite (POST_body _ _ _ (get_not_null _ _ _ Hb)), Hb.
  now rewrite (validateInput_blank c s H).
Qed.

(** ** From the parsed reply to the answer *)

Lemma on_throw_codes msg :
  exists st e c, on_throw msg = Fail st e (Some c)
                 /\ In (st, Some c) upstream_failures /\ st <> 400.
Proof.
  unfold on_throw. destruct msg as [m|].
  - repeat match goal with |- context [if ?b then _ else _] => destruct b end;
      do 3 eexists; (split; [reflexivity|]);
      (split; [unfold upstream_failures; listed|discriminate]).
  - do 3 eexists. split; [reflexivity|].
    split; [unfold upstream_failures; listed|discriminate].
Qed.










End Handler.

(** ** The handler run on concrete requests *)

Definition today0 : jsstr := lit "2025-06-15".



(** The request body [{ "input": input }]. *)
Definition request (input : jsstr) : request_json :=
  JsonValue (JObj [(lit "input", JStr input)]).




(** A reply that is no JSON text. *)
Definition prose_reply : jsstr := lit "할 일을 이해하지 못했습니다.".

Definition answer (input : jsstr) (reply : jsstr) : response :=
  result (POST0 true (request input) today0 (AiText reply)).






End ParseTodoProps.

(* ===================================================================== *)
(** * Properties of POST /api/ai/summary *)
(* ===================================================================== *)

Module SummaryProps.

Import Summary JSFacts.

(** The members of a SummaryReport. *)
Definition report_fields : list jsstr :=
  [ lit "summary"; lit "urgentTasks"; lit "remainingTodos"; lit "focusTasks";
    lit "completionAnalysis"; lit "timeManagement"; lit "productivityPatterns";
    lit "insights"; lit "recommendations"; lit "motivation" ].

(** The members that the handler takes from the model's reply. *)
Definition model_fields : list jsstr :=
  [ lit "summary"; lit "urgentTasks"; lit "completionAnalysis";
    lit "timeManagement"; lit "productivityPatterns"; lit "insights";
    lit "recommendations"; lit "motivation" ].

(** The members of the answer for a period without rows. *)
Definition no_tasks_fields : list jsstr :=
  [ lit "summary"; lit "urgentTasks"; lit "insights"; lit "recommendations" ].

(** [100 * c / t] rounded to the nearest integer, the upper one of two
    equally near: [floor (100 * c / t + 1/2)]. *)
Definition half_up (c t : Z) : Z := (200 * c + t) / (2 * t).

(** ** remainingTodos and focusTasks *)

Lemma by_priority_total a b : by_priority a b <= 0 \/ by_priority b a <= 0.
Proof. unfold by_priority. lia. Qed.

Lemma by_priority_trans a b c :
  by_priority a b <= 0 -> by_priority b c <= 0 -> by_priority a c <= 0.
Proof. unfold by_priority. lia. Qed.

Lemma focus_order_total today a b :
  focus_order today a b <= 0 \/ focus_order today b a <= 0.
Proof.
  unfold focus_order.
  destruct (dueToday today a), (dueToday today b); simpl; lia.
Qed.

Lemma focus_order_trans today a b c :
  focus_order today a b <= 0 -> focus_order today b c <= 0 ->
  focus_order today a c <= 0.
Proof.
  unfold focus_order.
  destruct (dueToday today a), (dueToday today b), (dueToday today c); simpl; lia.
Qed.

Lemma dueToday_true today t : dueToday today t = true <-> due_date t = Some today.
Proof.
  unfold dueToday. destruct (due_date t) as [d|]; [|split; discriminate].
  rewrite str_eqb_eq. split; congruence.
Qed.

Lemma dueToday_false today t : dueToday today t = false <-> due_date t <> Some today.
Proof.
  rewrite <- dueToday_true. destruct (dueToday today t); split; congruence.
Qed.

Lemma is_pending_true t : is_pending t = true <-> status t = pending.
Proof. unfold is_pending. destruct (status t); simpl; split; congruence. Qed.

Lemma in_sortedPending t todos :
  In t (sortedPending todos) -> In t todos /\ status t = pending.
Proof.
  unfold sortedPending, pendingTodos. intros H.
  apply (Permutation_in _ (Permutation_sym (Array_sort_perm _ _))) in H.
  apply filter_In in H as [Hin Hp]. split; [exact Hin|now apply is_pending_true].
Qed.

(** The members of an entry of [remainingTodos] and [focusTasks] are
    those of its row. *)
Definition entry_of (t : Todo) (e : json) : Prop :=
  get e (lit "title") = Some (JStr (title t))
  /\ get e (lit "priority") = Some (JNum (inject_Z (priority t)))
  /\ get e (lit "due_date") = Some (match due_date t with
                                    | Some d => JStr d
                                    | None => JNull
                                    end)
  /\ get e (lit "tags") = Some (JArr (map JStr (match tags t with
                                                | Some l => l
                                                | None => []
                                                end))).

Lemma item_entry t : entry_of t (item t).
Proof. repeat split; reflexivity. Qed.

Lemma entries_of_items l : Forall2 entry_of l (map item l).
Proof.
  induction l as [|t l IH]; [constructor|].
  constructor; [apply item_entry|exact IH].
Qed.

Lemma StronglySorted_map {A B} (f : A -> B) (R : A -> A -> Prop)
    (S : B -> B -> Prop) l :
  (forall a b, R a b -> S (f a) (f b)) ->
  StronglySorted R l -> StronglySorted S (map f l).
Proof.
  intros HRS H. induction H as [|x l Hs IH Hx]; [constructor|].
  cbn [map]. constructor; [exact IH|].
  apply Forall_forall. intros y Hy. apply in_map_iff in Hy as (a & <- & Ha).
  apply HRS. rewrite Forall_forall in Hx. now apply Hx.
Qed.

(** C8. [remainingTodos] has one entry for each pending row and no
    other, with the title, the priority, the due date and the tags of
    the row; the entries stand in an order that is ascending in priority
    and that keeps rows of one priority in the order in which they
    came. *)
Theorem remainingTodos_sorted_stable (todos : list Todo) :
  remainingTodos todos = map item (sortedPending todos)
  /\ Permutation (filter is_pending todos) (sortedPending todos)
  /\ StronglySorted (fun a b => priority a <= priority b) (sortedPending todos)
  /\ (forall p,
        filter (fun t => priority t =? p) (sortedPending todos)
        = filter (fun t => priority t =? p) (filter is_pending todos))
  /\ Forall2 entry_of (sortedPending todos) (remainingTodos todos)
  /\ StronglySorted
       (fun a b => exists p q, get a (lit "priority") = Some (JNum (inject_Z p))
                               /\ get b (lit "priority") = Some (JNum (inject_Z q))
                               /\ p <= q)
       (remainingTodos todos).
Proof.
  assert (Hsorted : StronglySorted (fun a b => priority a <= priority b)
                      (sortedPending todos)).
  { pose proof (Array_sort_sorted by_priority by_priority_total by_priority_trans
                  (pendingTodos todos)) as H.
    unfold sortedPending. induction H as [|x l Hs IH Hx]; constructor.
    + exact IH.
    + eapply Forall_impl; [|exact Hx]. unfold by_priority. intros; lia. }
  split; [reflexivity|]. split; [apply Array_sort_perm|].
  split; [exact Hsorted|]. split; [|split].
  - intros p. unfold sortedPending, pendingTodos. apply Array_sort_stable.
    intros a b Ha Hb. apply Z.eqb_eq in Ha, Hb. unfold by_priority. lia.
  - apply entries_of_items.
  - unfold remainingTodos. eapply StronglySorted_map; [|exact Hsorted].
    intros a b Hab. exists (priority a), (priority b).
    split; [apply item_entry|]. split; [apply item_entry|exact Hab].
Qed.

(** ** completionRate *)

Section Percent.

Import FloatFacts.
Local Open Scope Q_scope.

Lemma percent_of_none t :
  (0 < t)%nat -> (Z.of_nat t < 2 ^ 53)%Z -> percent 0 t = 0%Z.
Proof.
  intros Ht Hlt. destruct (float_of_nat_value t Ht Hlt) as (m & e & E & _).
  unfold percent, Math_round.
  rewrite FloatAxioms.mul_spec, FloatAxioms.div_spec, E.
  change (Prim2SF (float_of_nat 0)) with (S754_zero false).
  reflexivity.
Qed.

(** The rounding of the quotient and of the product moves the result by
    less than [2^-40]; the exact value [100 * c / t + 1/2] is a multiple
    of [1 / (2 * t)], and [2 * t] is below [2^33]. *)
Theorem percent_spec (c t : nat) :
  (c <= t)%nat -> (0 < t)%nat -> (Z.of_nat t < 2 ^ 32)%Z ->
  percent c t = half_up (Z.of_nat c) (Z.of_nat t)
  \/ (percent c t = (half_up (Z.of_nat c) (Z.of_nat t) - 1)%Z
      /\ ((200 * Z.of_nat c + Z.of_nat t) mod (2 * Z.of_nat t) = 0)%Z).
Proof.
  intros Hct Ht Hlt.
  assert (Hlt53 : (Z.of_nat t < 2 ^ 53)%Z)
    by (apply Z.lt_trans with (2 ^ 32)%Z; [exact Hlt|reflexivity]).
  destruct c as [|c'].
  { left. rewrite (percent_of_none t Ht Hlt53). unfold half_up.
    symmetry. apply Z.div_small. lia. }
  set (c := S c') in *.
  assert (Hc : (0 < c)%nat) by (unfold c; lia).
  destruct (float_of_nat_value c Hc ltac:(lia)) as (m1 & e1 & E1 & Hm1 & He1 & V1).
  destruct (float_of_nat_value t Ht Hlt53) as (m2 & e2 & E2 & Hm2 & He2 & V2).
  destruct (SFdiv_value m1 e1 m2 e2 Hm1 Hm2 ltac:(lia) ltac:(lia))
    as (m & e & w1 & Ed & Hw1 & H52a & Hlo1 & Hhi1 & Hm & He).
  destruct (SFmul_100_value m e Hm He)
    as (m' & e' & w2 & Em & Hw2 & H52b & Hlo2 & Hhi2 & Hm').
  set (zc := Z.of_nat c) in *. set (zt := Z.of_nat t) in *.
  assert (Hzt : (0 < zt)%Z) by (unfold zt; lia).
  assert (Hzc : (0 < zc <= zt)%Z) by (unfold zc, zt; lia).
  set (X := double_value m1 e1 / double_value m2 e2) in *.
  assert (Hit : 0 < inject_Z zt) by (apply (inject_lt 0); exact Hzt).
  assert (HX : X * inject_Z zt == inject_Z zc).
  { unfold X. rewrite V1, V2. field. intros H. rewrite H in Hit.
    now apply Qlt_irrefl in Hit. }
  assert (HX1 : X <= 1).
  { apply (Qmult_le_r _ _ (inject_Z zt) Hit). rewrite HX, Qmult_1_l.
    apply inject_le. lia. }
  assert (HX0 : 0 <= X).
  { apply (Qmult_le_r _ _ (inject_Z zt) Hit). rewrite HX, Qmult_0_l.
    apply (inject_le 0). lia. }
  set (y := double_value m' e') in *. set (v := double_value m e) in *.
  assert (P52 : 2 ^ 52 == 4503599627370496) by reflexivity.
  rewrite P52 in H52a, H52b.
  assert (Hy : y < 4503599627370496) by lra.
  assert (Hround : percent c t = Qfloor (y + (1 # 2))).
  { unfold percent. apply Math_round_value.
    - rewrite FloatAxioms.mul_spec, FloatAxioms.div_spec, E1, E2. unfold SF64mul, SF64div.
      rewrite Ed. exact Em.
    - lia.
    - fold y. rewrite P52. exact Hy. }
  set (N := (200 * zc + zt)%Z). set (D := (2 * zt)%Z).
  assert (HD : (0 < D < 2 ^ 33)%Z)
    by (unfold D; change (2 ^ 33)%Z with (2 * 2 ^ 32)%Z; lia).
  set (H := (N / D)%Z). set (rho := (N mod D)%Z).
  assert (Hdm : (N = D * H + rho /\ 0 <= rho < D)%Z).
  { unfold H, rho. split; [apply Z.div_mod; lia|apply Z.mod_pos_bound; lia]. }
  destruct Hdm as [HN Hrho].
  assert (HiD : 0 < inject_Z D) by (apply (inject_lt 0); lia).
  set (g := 1 / inject_Z D).
  assert (Hg : g * inject_Z D == 1).
  { unfold g. field. intros E. rewrite E in HiD. now apply Qlt_irrefl in HiD. }
  assert (Hg33 : 1 # 8589934592 <= g).
  { apply (Qmult_le_r _ _ (inject_Z D) HiD). rewrite Hg.
    assert (inject_Z D <= 8589934592) by (apply (inject_le D 8589934592); simpl in HD; lia).
    lra. }
  (* the exact double_value *)
  assert (Hu : 100 * X + (1 # 2) == inject_Z H + inject_Z rho * g).
  { apply (Qmult_inj_r _ _ (inject_Z D)); [intros E; rewrite E in HiD;
                                            now apply Qlt_irrefl in HiD|].
    transitivity (inject_Z N).
    - unfold N, D. rewrite inject_Z_plus, !inject_Z_mult.
      change (inject_Z 200) with 200. change (inject_Z 2) with 2.
      rewrite <- HX. ring.
    - rewrite HN, inject_Z_plus, inject_Z_mult.
      rewrite Qmult_plus_distr_l, <- Qmult_assoc, Hg. ring. }
  assert (Hf1 : inject_Z rho * g <= 1 - g).
  { apply (Qmult_le_r _ _ (inject_Z D) HiD).
    rewrite <- Qmult_assoc, Hg.
    setoid_replace ((1 - g) * inject_Z D) with (inject_Z D - 1)
      by (rewrite <- Hg at 2; ring).
    rewrite Qmult_1_r. change 1 with (inject_Z 1) at 1.
    unfold Qminus. rewrite <- inject_Z_opp, <- inject_Z_plus.
    apply inject_le. lia. }
  assert (Hf0 : (1 <= rho)%Z -> g <= inject_Z rho * g).
  { intros Hr. rewrite <- (Qmult_1_l g) at 1.
    apply Qmult_le_compat_r; [apply (inject_le 1); exact Hr|].
    apply Qle_trans with (1 # 8589934592); [discriminate|exact Hg33]. }
  pose proof (Qfloor_le (y + (1 # 2))) as HR1.
  pose proof (Qlt_floor (y + (1 # 2))) as HR2.
  rewrite <- Hround in HR1, HR2. rewrite inject_Z_plus in HR2.
  change (inject_Z 1) with 1 in HR2.
  set (R := percent c t) in *.
  assert (Hfnn : 0 <= inject_Z rho * g).
  { apply Qmult_le_0_compat; [apply (inject_le 0); lia|].
    apply Qle_trans with (1 # 8589934592); [discriminate|exact Hg33]. }
  assert (Hup : inject_Z R < inject_Z (H + 1)).
  { rewrite inject_Z_plus. change (inject_Z 1) with 1. lra. }
  assert (Hdown : inject_Z (H - 2) < inject_Z R).
  { rewrite inject_sub. change (inject_Z 2) with 2. lra. }
  rewrite <- Zlt_Qlt in Hup, Hdown.
  unfold half_up. fold N D H rho.
  destruct (Z.eq_dec R H) as [EH|NH]; [now left|right].
  split; [lia|].
  destruct (Z.eq_dec rho 0) as [E0|N0]; [exact E0|exfalso].
  specialize (Hf0 ltac:(lia)).
  assert (Hge : inject_Z (H - 1) < inject_Z R).
  { rewrite inject_sub. change (inject_Z 1) with 1. lra. }
  rewrite <- Zlt_Qlt in Hge. lia.
Qed.

End Percent.

Lemma completed_le_total (todos : list Todo) :
  (length (completedTodos todos) <= length todos)%nat.
Proof. apply filter_length_le. Qed.

Lemma all_completed (todos : list Todo) :
  Forall (fun x => status x = completed) todos -> completedTodos todos = todos.
Proof.
  unfold completedTodos. induction 1 as [|x l Hx Hl IH]; [reflexivity|].
  simpl. unfold is_completed at 1. rewrite Hx. simpl. now rewrite IH.
Qed.

(** C9, as the handler computes it. [completionRate] is 0 for no rows.
    For the rows of an array (fewer than 2^32) it is the half-up rounding
    of 100 × completed / total, or one less than that when the exact
    quotient lies halfway between two integers (the quotient and the
    product are rounded to doubles before [Math.round] sees them); it is
    70 for 7 of 10 rows completed and 100 when every row is completed. *)
Theorem completionRate_rounding (todos : list Todo) :
  (todos = [] -> completionRate todos = 0)
  /\ (Z.of_nat (length todos) < 2 ^ 32 -> todos <> [] ->
      completionRate todos
      = half_up (Z.of_nat (length (completedTodos todos))) (Z.of_nat (length todos))
      \/ (completionRate todos
          = half_up (Z.of_nat (length (completedTodos todos)))
                    (Z.of_nat (length todos)) - 1
          /\ (200 * Z.of_nat (length (completedTodos todos))
              + Z.of_nat (length todos)) mod (2 * Z.of_nat (length todos)) = 0))
  /\ (length todos = 10%nat -> length (completedTodos todos) = 7%nat ->
      completionRate todos = 70)
  /\ (Z.of_nat (length todos) < 2 ^ 32 -> todos <> [] ->
      Forall (fun x => status x = completed) todos ->
      completionRate todos = 100).
Proof.
  assert (Hmain : Z.of_nat (length todos) < 2 ^ 32 -> todos <> [] ->
            completionRate todos
            = half_up (Z.of_nat (length (completedTodos todos))) (Z.of_nat (length todos))
            \/ (completionRate todos
                = half_up (Z.of_nat (length (completedTodos todos)))
                          (Z.of_nat (length todos)) - 1
                /\ (200 * Z.of_nat (length (completedTodos todos))
                    + Z.of_nat (length todos)) mod (2 * Z.of_nat (length todos)) = 0)).
  { intros Hb Hne. unfold completionRate, rate.
    assert (Hpos : (1 <= length todos)%nat)
      by (destruct todos; [contradiction|simpl; lia]).
    destruct (Nat.ltb_spec 0 (length todos)); [|lia].
    apply percent_spec; [apply completed_le_total|lia|exact Hb]. }
  split; [intros ->; reflexivity|]. split; [exact Hmain|]. split.
  - intros H10 H7. unfold completionRate. rewrite H10, H7. vm_compute. reflexivity.
  - intros Hb Hne Hall. specialize (Hmain Hb Hne).
    rewrite (all_completed todos Hall) in Hmain.
    assert (Hpos : 0 < Z.of_nat (length todos))
      by (destruct todos; [contradiction|simpl length; lia]).
    set (t := Z.of_nat (length todos)) in *.
    assert (Hh : half_up t t = 100).
    { unfold half_up. symmetry. apply (Z.div_unique _ _ 100 t); lia. }
    assert (Hm : (200 * t + t) mod (2 * t) = t).
    { symmetry. apply (Z.mod_unique _ _ 100 t); lia. }
    destruct Hmain as [H|[_ H]]; [now rewrite H|lia].
Qed.

Section Handler.

Variable Date_parse : jsstr -> option Z.

Local Abbreviation focusTodos := (Summary.focusTodos Date_parse).
Local Abbreviation focusTasks := (Summary.focusTasks Date_parse).
Local Abbreviation isDueSoon := (Summary.isDueSoon Date_parse).
Local Abbreviation focus_filter := (Summary.focus_filter Date_parse).
Local Abbreviation POST := (Summary.POST Date_parse).
Local Abbreviation analysisData := (Summary.analysisData Date_parse).

Lemma focusTodos_sorted now today todos :
  StronglySorted (fun a b => focus_order today a b <= 0) (focusTodos now today todos).
Proof.
  unfold Summary.focusTodos. apply StronglySorted_firstn.
  apply Array_sort_sorted; [apply focus_order_total|apply focus_order_trans].
Qed.

(** In terms of the handler's own tests: [focusTasks] has at most 5
    entries; each comes from a pending row that has priority 1, or whose
    [due_date] is the string [today], or that is due at most two days
    from now; and of two entries of one priority, the one whose
    [due_date] is the string [today] stands before the other. *)
Lemma focusTasks_spec (now : Z) (today : jsstr) (todos : list Todo) :
  (length (focusTasks now today todos) <= 5)%nat
  /\ focusTasks now today todos = map item (focusTodos now today todos)
  /\ Forall (fun t => In t todos /\ status t = pending
                      /\ (priority t = 1 \/ due_date t = Some today
                          \/ isDueSoon now t = true))
            (focusTodos now today todos)
  /\ forall i j a b,
       nth_error (focusTodos now today todos) i = Some a ->
       nth_error (focusTodos now today todos) j = Some b ->
       priority a = priority b ->
       due_date a = Some today -> due_date b <> Some today ->
       (i < j)%nat.
Proof.
  split; [|split; [reflexivity|split]].
  - unfold Summary.focusTasks, Summary.focusTodos.
    rewrite length_map. apply firstn_le_length.
  - apply Forall_forall. intros t Ht. unfold Summary.focusTodos in Ht.
    apply firstn_In in Ht.
    apply (Permutation_in _ (Permutation_sym (Array_sort_perm _ _))) in Ht.
    apply filter_In in Ht as [Hin Hf].
    destruct (in_sortedPending _ _ Hin) as [Ht1 Ht2].
    split; [exact Ht1|]. split; [exact Ht2|].
    unfold Summary.focus_filter in Hf. cbv zeta in Hf.
    apply orb_true_iff in Hf as [Hf|Hf]; [apply orb_true_iff in Hf as [Hf|Hf]|].
    + left. now apply Z.eqb_eq.
    + right. left. now apply dueToday_true.
    + right. right. exact Hf.
  - intros i j a b Hi Hj _ Ha Hb.
    apply dueToday_true in Ha. apply dueToday_false in Hb.
    destruct (Nat.lt_trichotomy i j) as [Hlt|[Heq|Hgt]]; [exact Hlt| |].
    + subst j. rewrite Hi in Hj. injection Hj as <-. congruence.
    + pose proof (StronglySorted_nth_error _ _ (focusTodos_sorted now today todos)
                    j i b a Hgt Hj Hi) as H.
      unfold focus_order in H. rewrite Ha, Hb in H. simpl in H. lia.
Qed.

(** ** The members of the answer *)

Ltac each_field H :=
  unfold report_fields, model_fields, no_tasks_fields in H; simpl In in H;
  repeat (destruct H as [H|H]; [subst|]); [..|contradiction].

Ltac find_member :=
  cbn [In];
  repeat match goal with
         | |- (?k, _) = (?k, _) \/ _ => left; reflexivity
         | |- _ \/ _ => right
         end.

Lemma report_fields_distinct : NoDup report_fields.
Proof. apply distinct_NoDup. vm_compute. reflexivity. Qed.

Lemma no_tasks_fields_distinct : NoDup no_tasks_fields.
Proof. apply distinct_NoDup. vm_compute. reflexivity. Qed.

Lemma validatedData_fields a r f v k :
  In k report_fields -> get (validatedData a r f v) k <> None.
Proof.
  intros H. unfold validatedData. cbn [get].
  each_field H;
    (erewrite lookup_last_member;
     [discriminate|exact report_fields_distinct|find_member]).
Qed.

(** A member that the reply lacks gets the value it has for a reply
    without members. *)
Lemma validatedData_default a r f v k :
  In k model_fields -> get v k = None ->
  get (validatedData a r f v) k = get (validatedData a r f (JObj [])) k.
Proof.
  intros H Hk. unfold validatedData. cbn [get].
  each_field H;
    (erewrite !lookup_last_member;
     [|exact report_fields_distinct|find_member
      |exact report_fields_distinct|find_member]);
    rewrite Hk; reflexivity.
Qed.

(** The defaults are strings, lists of strings and objects of strings:
    they are sent as they are. *)
Lemma defaults_sent a r f k :
  In k model_fields ->
  option_map sent (get (validatedData a r f (JObj [])) k)
  = get (validatedData a r f (JObj [])) k.
Proof.
  intros H. unfold validatedData. cbn [get].
  each_field H;
    (erewrite lookup_last_member;
     [|exact report_fields_distinct|find_member]);
    reflexivity.
Qed.

Lemma sent_fields a r f v k :
  In k report_fields -> get (sent (validatedData a r f v)) k <> None.
Proof.
  intros H. rewrite get_sent. pose proof (validatedData_fields a r f v k H) as Hn.
  destruct (get (validatedData a r f v) k); [discriminate|contradiction].
Qed.

Lemma sent_default a r f v k :
  In k model_fields -> get v k = None ->
  get (sent (validatedData a r f v)) k = get (validatedData a r f (JObj [])) k.
Proof.
  intros H Hk. rewrite get_sent, (validatedData_default a r f v k H Hk).
  now apply defaults_sent.
Qed.

Lemma no_tasks_has is_today k :
  get (no_tasks is_today) k <> None <-> In k no_tasks_fields.
Proof.
  split.
  - unfold no_tasks, no_tasks_fields. cbn [get lookup_last]. simpl In.
    destruct (str_eqb (lit "recommendations") k) eqn:E1;
      [apply str_eqb_eq in E1; tauto|].
    destruct (str_eqb (lit "insights") k) eqn:E2;
      [apply str_eqb_eq in E2; tauto|].
    destruct (str_eqb (lit "urgentTasks") k) eqn:E3;
      [apply str_eqb_eq in E3; tauto|].
    destruct (str_eqb (lit "summary") k) eqn:E4;
      [apply str_eqb_eq in E4; tauto|].
    intros H. now contradiction H.
  - intros H. unfold no_tasks. cbn [get].
    each_field H;
      (erewrite lookup_last_member;
       [discriminate|exact no_tasks_fields_distinct|find_member]).
Qed.

Lemma on_throw_http msg :
  http (on_throw msg) = 429 \/ http (on_throw msg) = 401 \/ http (on_throw msg) = 500.
Proof.
  unfold on_throw. destruct msg as [m|]; [|tauto].
  repeat match goal with |- context [if ?b then _ else _] => destruct b end;
    simpl; tauto.
Qed.

(** C1, as the handler has it. For a request with a period, a session and
    rows: when the model's reply contains no JSON that [JSON.parse]
    accepts, the endpoint answers 500 with the code PARSE_ERROR; when the
    reply parses to a value other than [null], the endpoint answers 200
    with every member of the SummaryReport, and a member that the reply
    lacks has the default computed from the rows. *)
Theorem POST_reply_reconciled period is_today u t todos previousTodos now today text :
  period_of period = Some is_today ->
  match JSON_parse (jsonString text) with
  | None =>
    POST true period (Some u) (Some (t :: todos)) (Some previousTodos)
         now today (AiText text)
    = fail 500 (lit "AI 응답을 파싱할 수 없습니다. 다시 시도해주세요.")
           (Some (lit "PARSE_ERROR"))
  | Some JNull => True
  | Some v =>
    let resp := POST true period (Some u) (Some (t :: todos)) (Some previousTodos)
                     now today (AiText text) in
    let defaults := validatedData (analysisData is_today (t :: todos) previousTodos)
                      (remainingTodos (t :: todos))
                      (focusTasks now today (t :: todos)) (JObj []) in
    http resp = 200
    /\ (forall k, In k report_fields -> get (body resp) k <> None)
    /\ (forall k, In k model_fields -> get v k = None ->
                  get (body resp) k = get defaults k)
  end.
Proof.
  intros Hp. unfold Summary.POST. simpl negb. cbv iota. rewrite Hp.
  destruct (JSON_parse (jsonString text)) as [v|]; [|reflexivity].
  destruct v; try exact I; cbv zeta; cbn [http body];
    (split; [reflexivity|]);
    (split; [intros k; apply sent_fields|intros k; apply sent_default]).
Qed.

(** C6, as the handler has it. A 200 answer of the endpoint holds every
    member of the SummaryReport when the period has rows; when it has
    none, the answer holds [summary], [urgentTasks], [insights] and
    [recommendations] and no other member. *)
Theorem POST_success_fields apiKey period user current previous now today ai :
  http (POST apiKey period user current previous now today ai) = 200 ->
  exists todos, current = Some todos
    /\ (todos <> [] ->
        forall k, In k report_fields ->
          get (body (POST apiKey period user current previous now today ai)) k
          <> None)
    /\ (todos = [] ->
        forall k,
          get (body (POST apiKey period user current previous now today ai)) k
          <> None
          <-> In k no_tasks_fields).
Proof.
  unfold Summary.POST.
  destruct apiKey; simpl negb; cbv iota; [|discriminate].
  destruct (period_of period) as [is_today|]; [|discriminate].
  destruct user as [u|]; [|discriminate].
  destruct current as [todos|]; [|discriminate].
  destruct previous as [previousTodos|]; [|discriminate].
  destruct todos as [|t todos].
  - intros _. exists []. split; [reflexivity|]. split; [congruence|].
    intros _ k. cbn [body]. apply no_tasks_has.
  - intros H. exists (t :: todos). split; [reflexivity|].
    split; [|discriminate]. intros _.
    destruct ai as [msg|text].
    + destruct (on_throw_http msg) as [E|[E|E]]; rewrite E in H; discriminate.
    + destruct (JSON_parse (jsonString text)) as [v|]; [|discriminate].
      destruct v;
        try (intros k; cbn [body]; apply sent_fields).
      destruct (on_throw_http (Some null_access_message)) as [E|[E|E]];
        rewrite E in H; discriminate.
Qed.

End Handler.

(** ** The handler run on concrete requests *)

Definition row (n : string) (s : todo_status) (p : Z) : Todo :=
  {| id := lit n; user_id := lit "user-1"; title := lit n;
     description := None; due_date := None; status := s; priority := p;
     created_at := lit "2025-06-15T01:00:00+00:00";
     updated_at := lit "2025-06-15T02:00:00+00:00";
     tags := None |}.

Definition today0 : jsstr := lit "2025-06-15".
Definition now0 : Z := 1749981600000.
Definition period0 : option json := Some (JStr (lit "today")).
Definition user0 : option jsstr := Some (lit "user-1").
Definition rows0 : list Todo := [row "a" pending 2; row "b" completed 1].

(** Two pending rows of priority 2 as the store returns them, with
    [due_date] a timestamp: the first is due tomorrow morning, the second
    today in the evening. *)
Definition due_tomorrow : Todo :=
  {| id := lit "b"; user_id := lit "user-1"; title := lit "내일 마감";
     description := None; due_date := Some (lit "2025-06-16T09:00:00+00:00");
     status := pending; priority := 2;
     created_at := lit "2025-06-14T01:00:00+00:00";
     updated_at := lit "2025-06-14T01:00:00+00:00";
     tags := None |}.

Definition due_today : Todo :=
  {| id := lit "a"; user_id := lit "user-1"; title := lit "오늘 마감";
     description := None; due_date := Some (lit "2025-06-15T18:00:00+00:00");
     status := pending; priority := 2;
     created_at := lit "2025-06-14T02:00:00+00:00";
     updated_at := lit "2025-06-14T02:00:00+00:00";
     tags := None |}.

(** 40 rows, 23 of them completed, and 10 rows, 7 of them completed. *)
Definition rows40 : list Todo :=
  repeat (row "done" completed 2) 23 ++ repeat (row "open" pending 2) 17.

Definition rows10 : list Todo :=
  repeat (row "done" completed 2) 7 ++ repeat (row "open" pending 2) 3.

(** A reply that is prose. *)
Definition prose_reply : jsstr := lit "Sorry, I cannot analyse these tasks.".

(** C1 does not hold as the specification states it: for a reply that holds no JSON the endpoint
    answers 500 with the code PARSE_ERROR, not a report. *)
Lemma prose_reply_is_PARSE_ERROR :
  JSON_parse (jsonString prose_reply) = None
  /\ POST0 true period0 user0 (Some rows0) (Some []) now0 today0 (AiText prose_reply)
     = fail 500 (lit "AI 응답을 파싱할 수 없습니다. 다시 시도해주세요.")
            (Some (lit "PARSE_ERROR"))
  /\ http (POST0 true period0 user0 (Some rows0) (Some []) now0 today0
             (AiText prose_reply)) <> 200.
Proof.
  split; [vm_compute; reflexivity|].
  split; [vm_compute; reflexivity|vm_compute; discriminate].
Qed.

Lemma POST_reply_reconciled_witness :
  period_of period0 = Some true
  /\ match JSON_parse (jsonString prose_reply) with
     | None =>
       POST0 true period0 (Some (lit "user-1")) (Some rows0) (Some [])
             now0 today0 (AiText prose_reply)
       = fail 500 (lit "AI 응답을 파싱할 수 없습니다. 다시 시도해주세요.")
              (Some (lit "PARSE_ERROR"))
     | Some JNull => True
     | Some v =>
       let resp := POST0 true period0 (Some (lit "user-1")) (Some rows0) (Some [])
                         now0 today0 (AiText prose_reply) in
       let defaults := validatedData (analysisData Date_parse0 true rows0 [])
                         (remainingTodos rows0)
                         (focusTasks Date_parse0 now0 today0 rows0) (JObj []) in
       http resp = 200
       /\ (forall k, In k report_fields -> get (body resp) k <> None)
       /\ (forall k, In k model_fields -> get v k = None ->
                     get (body resp) k = get defaults k)
     end.
Proof.
  assert (Hp : period_of period0 = Some true) by reflexivity.
  split; [exact Hp|].
  exact (POST_reply_reconciled Date_parse0 period0 true (lit "user-1")
           (row "a" pending 2) [row "b" completed 1] [] now0 today0
           prose_reply Hp).
Defined.

(** C6 does not hold as the specification states it: for a period without rows the endpoint answers
    200 with four members; [focusTasks], among others, is not there. *)
Lemma no_rows_no_focusTasks :
  http (POST0 true period0 user0 (Some []) (Some []) now0 today0 (AiText prose_reply))
  = 200
  /\ get (body (POST0 true period0 user0 (Some []) (Some []) now0 today0
                  (AiText prose_reply))) (lit "focusTasks") = None
  /\ In (lit "focusTasks") report_fields.
Proof.
  split; [reflexivity|]. split; [vm_compute; reflexivity|].
  unfold report_fields. simpl. tauto.
Qed.

Lemma POST_success_fields_witness :
  http (POST0 true period0 user0 (Some rows0) (Some []) now0 today0
          (AiText (quoted "{'summary': 'ok'}"))) = 200
  /\ exists todos, Some rows0 = Some todos
       /\ (todos <> [] ->
           forall k, In k report_fields ->
             get (body (POST0 true period0 user0 (Some rows0) (Some []) now0 today0
                          (AiText (quoted "{'summary': 'ok'}")))) k
             <> None)
       /\ (todos = [] ->
           forall k,
             get (body (POST0 true period0 user0 (Some rows0) (Some []) now0 today0
                          (AiText (quoted "{'summary': 'ok'}")))) k
             <> None
             <-> In k no_tasks_fields).
Proof.
  assert (H : http (POST0 true period0 user0 (Some rows0) (Some []) now0 today0
                      (AiText (quoted "{'summary': 'ok'}"))) = 200)
    by (vm_compute; reflexivity).
  split; [exact H|].
  exact (POST_success_fields Date_parse0 true period0 user0 (Some rows0) (Some [])
           now0 today0 (AiText (quoted "{'summary': 'ok'}")) H).
Defined.

(** C7. The handler tests [todo.due_date === today], where [today] is a
    date of ten characters ([toISOString().split('T')[0]]) and the
    [due_date] of a stored row is a timestamp: the test fails for every
    such row, and the order of [focusTasks] is the order of the
    priorities alone. Of two pending rows of priority 2, the one due
    tomorrow stored before the one due today, both are listed, and the
    one due today is listed second. *)
Theorem focusTasks_due_today_comes_second :
  (forall today t,
     length today = 10%nat ->
     (forall d, due_date t = Some d -> length d <> 10%nat) ->
     dueToday today t = false)
  /\ (forall today a b,
        dueToday today a = false -> dueToday today b = false ->
        focus_order today a b = priority a - priority b)
  /\ length today0 = 10%nat
  /\ Date_parse_timestamp (lit "2025-06-15T00:00:00+00:00") = Some (now0 - 10 * 3600000)
  /\ option_map (@length N) (due_date due_today) = Some 25%nat
  /\ firstn 10 (lit "2025-06-15T18:00:00+00:00") = today0
  /\ status due_today = pending /\ status due_tomorrow = pending
  /\ priority due_today = priority due_tomorrow
  /\ dueToday today0 due_today = false
  /\ focus_filter Date_parse_timestamp now0 today0 due_today = true
  /\ focusTodos Date_parse_timestamp now0 today0 [due_tomorrow; due_today]
     = [due_tomorrow; due_today]
  /\ focusTasks Date_parse_timestamp now0 today0 [due_tomorrow; due_today]
     = [JObj [(lit "title", JStr (lit "내일 마감")); (lit "priority", JNum 2);
              (lit "due_date", JStr (lit "2025-06-16T09:00:00+00:00"));
              (lit "tags", JArr [])];
        JObj [(lit "title", JStr (lit "오늘 마감")); (lit "priority", JNum 2);
              (lit "due_date", JStr (lit "2025-06-15T18:00:00+00:00"));
              (lit "tags", JArr [])]]
  /\ get (body (POST Date_parse_timestamp true period0 user0
                  (Some [due_tomorrow; due_today]) (Some []) now0 today0
                  (AiText (lit "{}"))))
         (lit "focusTasks")
     = Some (JArr (focusTasks Date_parse_timestamp now0 today0
                     [due_tomorrow; due_today])).
Proof.
  split.
  { intros today t Hlen Hd. unfold dueToday.
    destruct (due_date t) as [d|] eqn:E; [|reflexivity].
    apply str_eqb_neq. intros ->. now apply (Hd today). }
  split.
  { intros today a b Ha Hb. unfold focus_order. now rewrite Ha, Hb. }
  repeat match goal with |- _ /\ _ => split end; vm_compute; reflexivity.
Qed.

(** C9 does not hold as the specification states it: of 40 rows with 23 completed the exact rate is
    57.5, which rounds half-up to 58; the handler's double-precision
    product is just below 57.5 and [Math.round] gives 57. *)
Lemma completionRate_23_of_40 :
  length rows40 = 40%nat
  /\ length (completedTodos rows40) = 23%nat
  /\ half_up 23 40 = 58
  /\ completionRate rows40 = 57.
Proof. repeat split; vm_compute; reflexivity. Qed.

Lemma completionRate_rounding_witness :
  Z.of_nat (length rows10) < 2 ^ 32
  /\ rows10 <> []
  /\ (completionRate rows10
      = half_up (Z.of_nat (length (completedTodos rows10))) (Z.of_nat (length rows10))
      \/ (completionRate rows10
          = half_up (Z.of_nat (length (completedTodos rows10)))
                    (Z.of_nat (length rows10)) - 1
          /\ (200 * Z.of_nat (length (completedTodos rows10))
              + Z.of_nat (length rows10)) mod (2 * Z.of_nat (length rows10)) = 0)).
Proof.
  assert (H : Z.of_nat (length rows10) < 2 ^ 32) by (vm_compute; reflexivity).
  assert (Hne : rows10 <> []) by discriminate.
  split; [exact H|]. split; [exact Hne|].
  exact (proj1 (proj2 (completionRate_rounding rows10)) H Hne).
Defined.

End SummaryProps.

(* ===================================================================== *)
(** * Properties of PUT and DELETE /api/todos/[id] *)
(* ===================================================================== *)

Module TodoRouteProps.

Import TodoRoute JSFacts.

Lemma filter_none {A} (f : A -> bool) l :
  filter f l = [] -> filter (fun x => negb (f x)) l = l.
Proof.
  induction l as [|x l IH]; [reflexivity|].
  simpl. destruct (f x); [discriminate|]. simpl. intros H. now rewrite IH.
Qed.

(** PUT for an id that selects no row of the user: 404, and the table is
    as it was. *)
Lemma PUT_unselected todoId uid b u now s :
  b <> JNull ->
  member b "title" = None ->
  updateData b = Some u ->
  filter (selected todoId uid) s = [] ->
  PUT todoId (Some uid) (Some b) None now s
  = {| answer := {| http := 404;
                    body := error_body "할 일을 찾을 수 없거나 수정 권한이 없습니다." |};
       table := s;
       issued := [Update u todoId uid] |}.
Proof.
  intros Hb Ht Hu Hf. unfold PUT.
  destruct b; try contradiction; cbv zeta; rewrite Ht, Hu;
    unfold db_update; rewrite Hf; reflexivity.
Qed.

(** DELETE for an id that selects no row of the user: the table is as it
    was, and the answer is 200. *)
Lemma DELETE_unselected todoId uid s :
  filter (selected todoId uid) s = [] ->
  DELETE todoId (Some uid) None s
  = {| answer := {| http := 200;
                    body := JObj [(lit "message",
                                   JStr (lit "할 일이 성공적으로 삭제되었습니다."))] |};
       table := s;
       issued := [Delete todoId uid] |}.
Proof.
  intros Hf. unfold DELETE, db_delete. now rewrite (filter_none _ _ Hf).
Qed.

(** C10, as the handler has it. A PUT whose body has a [title] that is
    empty or all blanks sends no statement to the store and leaves the
    table as it was, whoever sends it and whatever the store would have
    answered; for a user with a session the answer is 400, and without a
    session it is 401, since the handler checks the session first. *)
Theorem PUT_blank_title todoId b title now s :
  member b "title" = Some (JStr title) ->
  forallb is_space title = true ->
  (forall user refused,
     table (PUT todoId user (Some b) refused now s) = s
     /\ issued (PUT todoId user (Some b) refused now s) = [])
  /\ (forall uid refused,
        answer (PUT todoId (Some uid) (Some b) refused now s)
        = {| http := 400; body := error_body "할 일 제목은 필수입니다." |})
  /\ (forall refused,
        answer (PUT todoId None (Some b) refused now s)
        = {| http := 401; body := error_body "인증이 필요합니다." |}).
Proof.
  intros Ht Hblank.
  assert (H : forall uid refused,
             PUT todoId (Some uid) (Some b) refused now s
             = answer_only {| http := 400;
                              body := error_body "할 일 제목은 필수입니다." |} s).
  { intros uid refused. unfold PUT.
    destruct b; try discriminate. cbv zeta. rewrite Ht.
    destruct title as [|c r]; [reflexivity|].
    cbn [truthy negb call_trim]. now rewrite (trim_blank _ Hblank). }
  split; [|split].
  - intros [uid|] refused; [rewrite H|]; split; reflexivity.
  - intros uid refused. now rewrite H.
  - intros refused. reflexivity.
Qed.

(** ** The handlers run on a concrete table *)

Definition alice : jsstr := lit "a1a1a1a1-0000-4000-8000-000000000001".
Definition bob : jsstr := lit "b2b2b2b2-0000-4000-8000-000000000002".

Definition todo_of_alice : jsstr := lit "11111111-1111-4111-8111-111111111111".
Definition todo_of_bob : jsstr := lit "22222222-2222-4222-8222-222222222222".
Definition todo_of_nobody : jsstr := lit "33333333-3333-4333-8333-333333333333".

Definition todo (i owner : jsstr) (t : string) : TodoRow :=
  {| id := i; user_id := owner; title := lit t;
     description := JNull; due_date := JNull;
     status := JStr (lit "pending"); priority := JNum 2;
     created_at := lit "2025-06-14T09:00:00+00:00";
     updated_at := lit "2025-06-14T09:00:00+00:00" |}.

Definition table0 : store :=
  [todo todo_of_alice alice "장보기"; todo todo_of_bob bob "보고서 제출"].

Definition deleted : response :=
  {| http := 200;
     body := JObj [(lit "message", JStr (lit "할 일이 성공적으로 삭제되었습니다."))] |}.

(** C5. DELETE with an id that no row has, or with the id of another
    user's row, leaves the table as it was but answers 200 with the
    message of a successful deletion, where the specification has 404;
    PUT with the same ids answers 404. *)
Theorem DELETE_of_unowned_id_answers_200 :
  DELETE todo_of_nobody (Some alice) None table0
  = {| answer := deleted; table := table0;
       issued := [Delete todo_of_nobody alice] |}
  /\ DELETE todo_of_bob (Some alice) None table0
     = {| answer := deleted; table := table0;
          issued := [Delete todo_of_bob alice] |}
  /\ http (answer (PUT todo_of_bob (Some alice)
                       (Some (JObj [(lit "status", JStr (lit "completed"))]))
                       None (lit "2025-06-15T10:00:00+00:00") table0)) = 404
  /\ table (PUT todo_of_bob (Some alice)
                (Some (JObj [(lit "status", JStr (lit "completed"))]))
                None (lit "2025-06-15T10:00:00+00:00") table0) = table0.
Proof. repeat split; vm_compute; reflexivity. Qed.

Definition blank_title : json := JObj [(lit "title", JStr (lit "   "))].

(** C10 does not hold as the specification states it: a PUT with a
    blank title that comes without a session is answered 401, not 400. *)
Lemma PUT_blank_title_without_session :
  member blank_title "title" = Some (JStr (lit "   "))
  /\ forallb is_space (lit "   ") = true
  /\ answer (PUT todo_of_alice None (Some blank_title) None
                 (lit "2025-06-15T10:00:00+00:00") table0)
     = {| http := 401; body := error_body "인증이 필요합니다." |}
  /\ http (answer (PUT todo_of_alice None (Some blank_title) None
                       (lit "2025-06-15T10:00:00+00:00") table0)) <> 400.
Proof.
  split; [vm_compute; reflexivity|]. split; [vm_compute; reflexivity|].
  split; [reflexivity|]. vm_compute. discriminate.
Qed.

Lemma PUT_blank_title_witness :
  member blank_title "title" = Some (JStr (lit "   "))
  /\ forallb is_space (lit "   ") = true
  /\ (forall user refused,
        table (PUT todo_of_alice user (Some blank_title) refused
                   (lit "2025-06-15T10:00:00+00:00") table0) = table0
        /\ issued (PUT todo_of_alice user (Some blank_title) refused
                       (lit "2025-06-15T10:00:00+00:00") table0) = [])
  /\ (forall uid refused,
        answer (PUT todo_of_alice (Some uid) (Some blank_title) refused
                    (lit "2025-06-15T10:00:00+00:00") table0)
        = {| http := 400; body := error_body "할 일 제목은 필수입니다." |})
  /\ (forall refused,
        answer (PUT todo_of_alice None (Some blank_title) refused
                    (lit "2025-06-15T10:00:00+00:00") table0)
        = {| http := 401; body := error_body "인증이 필요합니다." |}).
Proof.
  assert (H1 : member blank_title "title" = Some (JStr (lit "   ")))
    by (vm_compute; reflexivity).
  assert (H2 : forallb is_space (lit "   ") = true) by (vm_compute; reflexivity).
  split; [exact H1|]. split; [exact H2|].
  exact (PUT_blank_title todo_of_alice blank_title (lit "   ")
           (lit "2025-06-15T10:00:00+00:00") table0 H1 H2).
Defined.

End TodoRouteProps.

(* ===================================================================== *)
(** * GET, PUT and DELETE /api/todos/[id] on the table *)
(* ===================================================================== *)

Module TodoRouteFacts.

Import TodoRoute TodoRouteGet JSFacts.

(** The table after an accepted UPDATE. *)
Definition updated (u : TodoUpdateData) (now todoId uid : jsstr) (s : store) : store :=
  map (fun r => if selected todoId uid r then write u now r else r) s.

(** A title with a character that is no blank. *)
Definition visible_title (r : TodoRow) : Prop := trim (title r) <> [].

(** A description as PUT writes it: [null], or a trimmed string that is
    not empty. *)
Definition clean_description (d : json) : Prop :=
  match d with
  | JNull => True
  | JStr t => t <> [] /\ trim t = t
  | _ => False
  end.

(** ** Selection *)

(** The statuses with which PUT turns a request down. *)
Definition refusal (status : Z) : Prop := In status [400; 401; 404; 500].

Lemma refusal_not_200 z : refusal z -> z <> 200.
Proof. unfold refusal. simpl. intros [<-|[<-|[<-|[<-|[]]]]]; discriminate. Qed.

Ltac refused_request :=
  left; split; [reflexivity | unfold refusal; cbn; auto 6].

Lemma selected_true todoId uid r :
  selected todoId uid r = true <-> id r = todoId /\ user_id r = uid.
Proof.
  unfold selected. rewrite andb_true_iff, !str_eqb_eq. tauto.
Qed.

Lemma filter_updated u now todoId uid s :
  filter (selected todoId uid) (updated u now todoId uid s)
  = map (write u now) (filter (selected todoId uid) s).
Proof.
  unfold updated. induction s as [|r s IH]; [reflexivity|].
  simpl. destruct (selected todoId uid r) eqn:E.
  - change (selected todoId uid (write u now r)) with (selected todoId uid r).
    rewrite E. simpl. now rewrite IH.
  - rewrite E. exact IH.
Qed.

(** ** What a PUT can do *)

Lemma db_update_inv refused u now todoId uid s :
  (exists code, db_update refused u now todoId uid s = (s, SingleError code))
  \/ (refused = None
      /\ exists r, filter (selected todoId uid) s = [r]
           /\ db_update refused u now todoId uid s
              = (updated u now todoId uid s, Single (write u now r))).
Proof.
  unfold db_update. destruct refused as [code|]; [left; eauto|].
  destruct (filter (selected todoId uid) s) as [|r [|r' l]]; [left; eauto| |left; eauto].
  right. split; [reflexivity|]. exists r. split; reflexivity.
Qed.

(** The title and the description that [updateData] takes from a body. *)
Lemma updateData_title b u :
  updateData b = Some u ->
  match member b "title" with
  | Some v => exists t, call_trim v = Some t /\ u_title u = Some t
  | None => u_title u = None
  end.
Proof.
  unfold updateData. cbv zeta.
  destruct (member b "title") as [v|].
  - destruct (call_trim v) as [t|]; [|discriminate].
    destruct (match member b "description" with
              | Some JNull => _ | Some _ => _ | None => _ end); [|discriminate].
    intros H. injection H as <-. eauto.
  - destruct (match member b "description" with
              | Some JNull => _ | Some _ => _ | None => _ end); [|discriminate].
    intros H. injection H as <-. reflexivity.
Qed.

Lemma updateData_description b u :
  updateData b = Some u ->
  match u_description u with
  | Some d => clean_description d
  | None => True
  end.
Proof.
  unfold updateData. cbv zeta.
  destruct (match member b "title" with Some _ => _ | None => _ end); [|discriminate].
  destruct (member b "description") as [d|].
  - destruct d; cbn [call_trim]; try discriminate.
    + intros H. injection H as <-. exact I.
    + destruct (trim s) as [|c l] eqn:E.
      * intros H. injection H as <-. exact I.
      * intros H. injection H as <-. cbn [u_description clean_description].
        split; [discriminate|]. rewrite <- E. apply trim_idem.
  - intros H. injection H as <-. exact I.
Qed.

Lemma json_is_null (b : json) : b = JNull \/ b <> JNull.
Proof. destruct b; (now left) || (right; discriminate). Qed.

(** Either the table is as it was and the answer is not 200, or one row
    of the user was selected and rewritten and the answer is that row. *)
Lemma PUT_inv todoId user body refused now s :
  (table (PUT todoId user body refused now s) = s
   /\ refusal (http (answer (PUT todoId user body refused now s))))
  \/ exists uid b u r,
       user = Some uid /\ body = Some b /\ refused = None
       /\ updateData b = Some u
       /\ match u_title u with
          | Some t => t <> [] /\ trim t = t
          | None => True
          end
       /\ filter (selected todoId uid) s = [r]
       /\ PUT todoId user body refused now s
          = {| answer := {| http := 200; body := row_json (write u now r) |};
               table := updated u now todoId uid s;
               issued := [Update u todoId uid] |}.
Proof.
  destruct user as [uid|]; [|refused_request].
  destruct body as [b|]; [|refused_request].
  assert (Hput : b <> JNull ->
    PUT todoId (Some uid) (Some b) refused now s
    = match match member b "title" with
            | None => Some false
            | Some v =>
              if negb (truthy (Some v)) then Some true
              else match call_trim v with
                   | Some t => Some (Nat.eqb (length t) 0)
                   | None => None
                   end
            end with
      | None => answer_only server_error s
      | Some true =>
        answer_only {| http := 400; body := error_body "할 일 제목은 필수입니다." |} s
      | Some false =>
        match updateData b with
        | None => answer_only server_error s
        | Some u =>
          let (s', res) := db_update refused u now todoId uid s in
          {| answer :=
               match res with
               | Single updatedTodo => {| http := 200; body := row_json updatedTodo |}
               | SingleError code =>
                 if str_eqb code (lit "PGRST116") then
                   {| http := 404;
                      body := error_body "할 일을 찾을 수 없거나 수정 권한이 없습니다." |}
                 else
                   {| http := 500;
                      body := error_body "할 일 수정 중 오류가 발생했습니다." |}
               end;
             table := s';
             issued := [Update u todoId uid] |}
        end
      end).
  { intros Hb. destruct b; try reflexivity. contradiction. }
  destruct (json_is_null b) as [->|Hb];
    [refused_request|].
  rewrite (Hput Hb). clear Hput.
  pose proof (updateData_title b) as Ht.
  destruct (member b "title") as [v|].
  - destruct (negb (truthy (Some v))); [refused_request|].
    destruct (call_trim v) as [t0|] eqn:Ec;
      [|refused_request].
    destruct (Nat.eqb_spec (length t0) 0) as [|Hlen];
      [refused_request|].
    destruct (updateData b) as [u|] eqn:Eu;
      [|refused_request].
    destruct (Ht u eq_refl) as (t & Ht1 & Ht2).
    assert (Hgood : t <> [] /\ trim t = t).
    { injection Ht1 as <-. split.
      - intros E. rewrite E in Hlen. now apply Hlen.
      - destruct v; try discriminate. cbn [call_trim] in Ec.
        injection Ec as <-. apply trim_idem. }
    destruct (db_update_inv refused u now todoId uid s)
      as [[code ->]|(-> & r & Hf & ->)].
    + left. split; [reflexivity|]. cbn [answer].
      destruct (str_eqb code (lit "PGRST116")); unfold refusal; cbn; auto 6.
    + right. exists uid, b, u, r. rewrite Ht2.
      repeat split; try reflexivity; try assumption; apply Hgood.
  - destruct (updateData b) as [u|] eqn:Eu;
      [|refused_request].
    destruct (db_update_inv refused u now todoId uid s)
      as [[code ->]|(-> & r & Hf & ->)].
    + left. split; [reflexivity|]. cbn [answer].
      destruct (str_eqb code (lit "PGRST116")); unfold refusal; cbn; auto 6.
    + right. exists uid, b, u, r. rewrite (Ht u eq_refl).
      repeat split; try reflexivity; assumption.
Qed.

(** X1. A PUT that does not answer 200 (no session, a body that cannot
    be read, a blank title, no row of the user with that id, a refusal of
    the store) leaves the table exactly as it was. *)
Theorem PUT_failure_changes_nothing todoId user body refused now s :
  http (answer (PUT todoId user body refused now s)) <> 200 ->
  table (PUT todoId user body refused now s) = s.
Proof.
  intros H.
  destruct (PUT_inv todoId user body refused now s)
    as [[Ht _]|(uid & b & u & r & _ & _ & _ & _ & _ & _ & E)]; [exact Ht|].
  rewrite E in H. now contradiction H.
Qed.

(** X2. PUT never adds or removes a row and never changes the [id],
    [user_id] or [created_at] of one; a row that is not the user's row
    with the requested id stays as it was, whatever the body holds. *)
Theorem PUT_frame todoId user body refused now s :
  length (table (PUT todoId user body refused now s)) = length s
  /\ forall i r,
       nth_error s i = Some r ->
       exists r',
         nth_error (table (PUT todoId user body refused now s)) i = Some r'
         /\ id r' = id r /\ user_id r' = user_id r /\ created_at r' = created_at r
         /\ ((forall uid, user = Some uid -> selected todoId uid r = false) ->
             r' = r).
Proof.
  destruct (PUT_inv todoId user body refused now s)
    as [[Ht _]|(uid & b & u & r0 & Hu & _ & _ & _ & _ & _ & E)].
  - rewrite Ht. split; [reflexivity|]. intros i r Hi. exists r. tauto.
  - rewrite E. cbn [table]. unfold updated. split; [apply length_map|].
    intros i r Hi. rewrite nth_error_map, Hi. cbn [option_map].
    destruct (selected todoId uid r) eqn:Es.
    + exists (write u now r). repeat split.
      intros H. specialize (H uid Hu). congruence.
    + exists r. tauto.
Qed.

(** X3. When PUT answers 200, the answer is the user's row with the
    requested id as it now stands in the table: stamped with the time of
    the update, its title either untouched or a trimmed string that is
    not empty, its description either untouched, [null], or a trimmed
    string that is not empty. *)
Theorem PUT_success todoId user payload refused now s :
  http (answer (PUT todoId user payload refused now s)) = 200 ->
  exists uid r r',
    user = Some uid
    /\ In r s /\ id r = todoId /\ user_id r = uid
    /\ body (answer (PUT todoId user payload refused now s)) = row_json r'
    /\ In r' (table (PUT todoId user payload refused now s))
    /\ id r' = todoId /\ user_id r' = uid
    /\ updated_at r' = now
    /\ (title r' = title r \/ (title r' <> [] /\ trim (title r') = title r'))
    /\ (description r' = description r \/ clean_description (description r')).
Proof.
  intros H.
  destruct (PUT_inv todoId user payload refused now s)
    as [[_ Hn]|(uid & b & u & r & Hu & _ & _ & Hd & Ht & Hf & E)];
    [now apply refusal_not_200 in Hn|].
  assert (Hin : In r (filter (selected todoId uid) s)) by (rewrite Hf; now left).
  apply filter_In in Hin as [Hin Hs]. apply selected_true in Hs as [Hid Huid].
  exists uid, r, (write u now r). rewrite E. cbn [answer body table].
  repeat split; try assumption.
  - unfold updated. apply in_map_iff. exists r. split; [|exact Hin].
    replace (selected todoId uid r) with true; [reflexivity|].
    symmetry. now apply selected_true.
  - cbn [write title]. destruct (u_title u); [right; exact Ht|now left].
  - cbn [write description]. pose proof (updateData_description b u Hd) as Hc.
    destruct (u_description u); [right; exact Hc|now left].
Qed.

(** X4. If every title in the table has a character that is no blank,
    the same holds after any PUT. *)
Theorem PUT_keeps_titles_visible todoId user body refused now s :
  Forall visible_title s ->
  Forall visible_title (table (PUT todoId user body refused now s)).
Proof.
  intros Hs.
  destruct (PUT_inv todoId user body refused now s)
    as [[Ht _]|(uid & b & u & r0 & _ & _ & _ & _ & Ht & _ & E)];
    [now rewrite Ht|].
  rewrite E. cbn [table]. unfold updated. apply Forall_map.
  eapply Forall_impl; [|exact Hs]. intros r Hr.
  destruct (selected todoId uid r); [|exact Hr].
  unfold visible_title in *. cbn [write title].
  destruct (u_title u) as [t|]; [|exact Hr]. cbn [set_default].
  destruct Ht as [Hne Htr]. now rewrite Htr.
Qed.

(** X5. A row that PUT has just written is the row that GET then
    returns: after a PUT that answers 200, GET with the same id and the
    same session gives the same answer. *)
Theorem GET_after_PUT todoId user body refused now s :
  http (answer (PUT todoId user body refused now s)) = 200 ->
  GET todoId user None (table (PUT todoId user body refused now s))
  = answer (PUT todoId user body refused now s).
Proof.
  intros H.
  destruct (PUT_inv todoId user body refused now s)
    as [[_ Hn]|(uid & b & u & r & -> & _ & _ & _ & _ & Hf & E)];
    [now apply refusal_not_200 in Hn|].
  rewrite E. cbn [answer table]. unfold GET, db_select.
  now rewrite filter_updated, Hf.
Qed.

(** X6. GET answers 200 only with a row of the table that has the
    requested id and belongs to the user of the session. *)
Theorem GET_only_own_row todoId user refused s :
  http (GET todoId user refused s) = 200 ->
  exists uid r,
    user = Some uid /\ In r s /\ id r = todoId /\ user_id r = uid
    /\ body (GET todoId user refused s) = row_json r.
Proof.
  unfold GET, db_select.
  destruct user as [uid|]; [|discriminate].
  destruct refused as [code|].
  - destruct (str_eqb code (lit "PGRST116")); discriminate.
  - destruct (filter (selected todoId uid) s) as [|r [|r' l]] eqn:Ef;
      try (rewrite str_eqb_refl; discriminate).
    intros _. exists uid, r.
    assert (Hin : In r (filter (selected todoId uid) s)) by (rewrite Ef; now left).
    apply filter_In in Hin as [Hin Hs]. apply selected_true in Hs as [Hid Huid].
    repeat split; assumption.
Qed.

Lemma filter_unique_id (P : TodoRow -> bool) r s :
  NoDup (map id s) -> In r s ->
  filter (fun x => str_eqb (id x) (id r) && P x) s = if P r then [r] else [].
Proof.
  induction s as [|x s IH]; [contradiction|].
  simpl. intros Hnd Hin. inversion Hnd as [|? ? Hx Hs]; subst.
  destruct Hin as [->|Hin].
  - rewrite str_eqb_refl. simpl.
    assert (Hnone : filter (fun x => str_eqb (id x) (id r) && P x) s = []).
    { clear IH Hnd Hs. induction s as [|y s IH]; [reflexivity|].
      simpl. destruct (str_eqb (id y) (id r)) eqn:E.
      - apply str_eqb_eq in E. exfalso. apply Hx. simpl. now left.
      - simpl. apply IH. intros H. apply Hx. simpl. now right. }
    rewrite Hnone. now destruct (P r).
  - destruct (str_eqb (id x) (id r)) eqn:E.
    + apply str_eqb_eq in E. exfalso. apply Hx. rewrite E.
      apply in_map. exact Hin.
    + simpl. now apply IH.
Qed.

(** X7. In a table whose ids differ, GET with the id of a row answers 200
    with that row for its owner and 404 for every other user. *)
Theorem GET_owner_or_404 r uid s :
  NoDup (map id s) -> In r s ->
  GET (id r) (Some uid) None s
  = if str_eqb (user_id r) uid
    then {| http := 200; body := row_json r |}
    else {| http := 404; body := error_body "할 일을 찾을 수 없습니다." |}.
Proof.
  intros Hnd Hin. unfold GET, db_select.
  pose proof (filter_unique_id (fun y => str_eqb (user_id y) uid) r s Hnd Hin) as E.
  cbv beta in E. fold (selected (id r) uid) in E.
  replace (filter (selected (id r) uid) s)
    with (if str_eqb (user_id r) uid then [r] else []) by (symmetry; exact E).
  destruct (str_eqb (user_id r) uid); reflexivity.
Qed.

(** X8. When DELETE answers 200, the rows left are exactly the rows that
    are not the user's row with the requested id, in their order; GET
    with that id then answers 404. *)
Theorem DELETE_success todoId uid refused s :
  http (answer (DELETE todoId (Some uid) refused s)) = 200 ->
  table (DELETE todoId (Some uid) refused s)
  = filter (fun r => negb (selected todoId uid r)) s
  /\ (forall r, In r (table (DELETE todoId (Some uid) refused s))
                <-> In r s /\ ~ (id r = todoId /\ user_id r = uid))
  /\ http (GET todoId (Some uid) None (table (DELETE todoId (Some uid) refused s)))
     = 404.
Proof.
  unfold DELETE, db_delete. destruct refused as [code|]; [discriminate|].
  intros _. cbn [table]. split; [reflexivity|]. split.
  - intros r. rewrite filter_In, negb_true_iff, <- selected_true.
    destruct (selected todoId uid r); intuition congruence.
  - unfold GET, db_select.
    assert (Hnone : filter (selected todoId uid)
                      (filter (fun r => negb (selected todoId uid r)) s) = []).
    { induction s as [|r s IH]; [reflexivity|].
      simpl. destruct (selected todoId uid r) eqn:E; simpl; [exact IH|].
      now rewrite E. }
    rewrite Hnone. reflexivity.
Qed.

(** X9. After a DELETE that answered 200, a second DELETE with the same
    id and session changes nothing more, whether the store accepts it or
    not. *)
Theorem DELETE_twice todoId user refused refused' s :
  http (answer (DELETE todoId user refused s)) = 200 ->
  table (DELETE todoId user refused' (table (DELETE todoId user refused s)))
  = table (DELETE todoId user refused s).
Proof.
  unfold DELETE, db_delete.
  destruct user as [uid|]; [|discriminate].
  destruct refused as [code|]; [discriminate|].
  intros _. cbn [table].
  destruct refused' as [code'|]; [reflexivity|]. cbn [table].
  induction s as [|r s IH]; [reflexivity|].
  simpl. destruct (selected todoId uid r) eqn:E; simpl; [exact IH|].
  rewrite E. simpl. now rewrite IH.
Qed.

(** ** The handlers run on a table of two users *)

Definition mina : jsstr := lit "0a0a0a0a-0000-4000-8000-00000000000a".
Definition joon : jsstr := lit "0b0b0b0b-0000-4000-8000-00000000000b".
Definition groceries : jsstr := lit "aaaaaaaa-1111-4111-8111-111111111111".
Definition report : jsstr := lit "bbbbbbbb-2222-4222-8222-222222222222".
Definition noon : jsstr := lit "2025-06-15T12:00:00+00:00".

Definition entry (i owner : jsstr) (t : string) : TodoRow :=
  {| id := i; user_id := owner; title := lit t;
     description := JNull; due_date := JNull;
     status := JStr (lit "pending"); priority := JNum 2;
     created_at := lit "2025-06-14T09:00:00+00:00";
     updated_at := lit "2025-06-14T09:00:00+00:00" |}.

Definition rows : store :=
  [entry groceries mina "장보기"; entry report joon "보고서 제출"].

Definition retitle : json :=
  JObj [(lit "title", JStr (lit "  우유 사기 ")); (lit "description", JStr (lit "   "))].

Lemma PUT_failure_changes_nothing_witness :
  http (answer (PUT report (Some mina) (Some retitle) None noon rows)) <> 200
  /\ table (PUT report (Some mina) (Some retitle) None noon rows) = rows.
Proof.
  assert (H : http (answer (PUT report (Some mina) (Some retitle) None noon rows))
              <> 200) by (vm_compute; discriminate).
  split; [exact H|].
  exact (PUT_failure_changes_nothing report (Some mina) (Some retitle) None noon rows H).
Defined.

Lemma PUT_success_witness :
  http (answer (PUT groceries (Some mina) (Some retitle) None noon rows)) = 200
  /\ exists uid r r',
       Some mina = Some uid
       /\ In r rows /\ id r = groceries /\ user_id r = uid
       /\ body (answer (PUT groceries (Some mina) (Some retitle) None noon rows))
          = row_json r'
       /\ In r' (table (PUT groceries (Some mina) (Some retitle) None noon rows))
       /\ id r' = groceries /\ user_id r' = uid
       /\ updated_at r' = noon
       /\ (title r' = title r \/ (title r' <> [] /\ trim (title r') = title r'))
       /\ (description r' = description r \/ clean_description (description r')).
Proof.
  assert (H : http (answer (PUT groceries (Some mina) (Some retitle) None noon rows))
              = 200) by (vm_compute; reflexivity).
  split; [exact H|].
  exact (PUT_success groceries (Some mina) (Some retitle) None noon rows H).
Defined.

Lemma PUT_keeps_titles_visible_witness :
  Forall visible_title rows
  /\ Forall visible_title
       (table (PUT groceries (Some mina) (Some retitle) None noon rows)).
Proof.
  assert (H : Forall visible_title rows)
    by (repeat constructor; vm_compute; discriminate).
  split; [exact H|].
  exact (PUT_keeps_titles_visible groceries (Some mina) (Some retitle) None noon rows H).
Defined.

Lemma GET_after_PUT_witness :
  http (answer (PUT groceries (Some mina) (Some retitle) None noon rows)) = 200
  /\ GET groceries (Some mina) None
         (table (PUT groceries (Some mina) (Some retitle) None noon rows))
     = answer (PUT groceries (Some mina) (Some retitle) None noon rows).
Proof.
  assert (H : http (answer (PUT groceries (Some mina) (Some retitle) None noon rows))
              = 200) by (vm_compute; reflexivity).
  split; [exact H|].
  exact (GET_after_PUT groceries (Some mina) (Some retitle) None noon rows H).
Defined.

Lemma GET_only_own_row_witness :
  http (GET groceries (Some mina) None rows) = 200
  /\ exists uid r,
       Some mina = Some uid /\ In r rows /\ id r = groceries /\ user_id r = uid
       /\ body (GET groceries (Some mina) None rows) = row_json r.
Proof.
  assert (H : http (GET groceries (Some mina) None rows) = 200)
    by (vm_compute; reflexivity).
  split; [exact H|].
  exact (GET_only_own_row groceries (Some mina) None rows H).
Defined.

Lemma GET_owner_or_404_witness :
  NoDup (map id rows)
  /\ In (entry report joon "보고서 제출") rows
  /\ GET (id (entry report joon "보고서 제출")) (Some mina) None rows
     = if str_eqb (user_id (entry report joon "보고서 제출")) mina
       then {| http := 200; body := row_json (entry report joon "보고서 제출") |}
       else {| http := 404; body := error_body "할 일을 찾을 수 없습니다." |}.
Proof.
  assert (H1 : NoDup (map id rows))
    by (apply distinct_NoDup; vm_compute; reflexivity).
  assert (H2 : In (entry report joon "보고서 제출") rows)
    by (right; left; reflexivity).
  split; [exact H1|]. split; [exact H2|].
  exact (GET_owner_or_404 (entry report joon "보고서 제출") mina rows H1 H2).
Defined.

Lemma DELETE_success_witness :
  http (answer (DELETE groceries (Some mina) None rows)) = 200
  /\ table (DELETE groceries (Some mina) None rows)
     = filter (fun r => negb (selected groceries mina r)) rows
  /\ (forall r, In r (table (DELETE groceries (Some mina) None rows))
                <-> In r rows /\ ~ (id r = groceries /\ user_id r = mina))
  /\ http (GET groceries (Some mina) None
               (table (DELETE groceries (Some mina) None rows))) = 404.
Proof.
  assert (H : http (answer (DELETE groceries (Some mina) None rows)) = 200)
    by (vm_compute; reflexivity).
  split; [exact H|].
  exact (DELETE_success groceries mina None rows H).
Defined.

Lemma DELETE_twice_witness :
  http (answer (DELETE groceries (Some mina) None rows)) = 200
  /\ table (DELETE groceries (Some mina) None
                   (table (DELETE groceries (Some mina) None rows)))
     = table (DELETE groceries (Some mina) None rows).
Proof.
  assert (H : http (answer (DELETE groceries (Some mina) None rows)) = 200)
    by (vm_compute; reflexivity).
  split; [exact H|].
  exact (DELETE_twice groceries (Some mina) None None rows H).
Defined.

End TodoRouteFacts.

(* ===================================================================== *)
(** * The list of the hook and the table of the server *)
(* ===================================================================== *)

Module UseTodosFacts.

Import TodoRoute TodoRouteGet UseTodos JSFacts TodoRouteFacts.

(** The list on the screen shows rows of the table that belong to the
    user. *)
Definition shows (uid : jsstr) (w : world) : Prop :=
  exists l, todos w = map row_json l
            /\ Forall (fun r => In r (server w) /\ user_id r = uid) l.

Lemma get_id r : get (row_json r) (lit "id") = Some (JStr (id r)).
Proof. vm_compute. reflexivity. Qed.

Lemma get_status r : get (row_json r) (lit "status") = Some (status r).
Proof. vm_compute. reflexivity. Qed.

Lemma has_id_row todoId r : has_id todoId (row_json r) = str_eqb (id r) todoId.
Proof. unfold has_id. now rewrite get_id. Qed.

Lemma has_id_selected todoId r :
  has_id todoId (row_json r) = selected todoId (user_id r) r.
Proof.
  rewrite has_id_row. unfold selected. rewrite str_eqb_refl.
  now rewrite andb_true_r.
Qed.

Lemma apiRequest_refusal r : refusal (http r) -> apiRequest r = None.
Proof.
  unfold refusal, apiRequest, ok. simpl.
  intros [<-|[<-|[<-|[<-|[]]]]]; reflexivity.
Qed.

Lemma updateTodo_inv user refused now todoId updates w :
  updateTodo user refused now todoId updates w = (None, w)
  \/ exists uid u r,
       user = Some uid /\ refused = None
       /\ updateData updates = Some u
       /\ filter (selected todoId uid) (server w) = [r]
       /\ updateTodo user refused now todoId updates w
          = (Some (row_json (write u now r)),
             {| todos := map (fun todo => if has_id todoId todo
                                          then row_json (write u now r) else todo)
                             (todos w);
                server := updated u now todoId uid (server w) |}).
Proof.
  unfold updateTodo. cbv zeta.
  destruct (PUT_inv todoId user (Some updates) refused now (server w))
    as [[Ht Hn]|(uid & b & u & r & Hu & Hb & Hr & Hd & _ & Hf & E)].
  - left. rewrite (apiRequest_refusal _ Hn), Ht. now destruct w.
  - right. injection Hb as <-. exists uid, u, r. rewrite E.
    repeat split; assumption.
Qed.

(** X10. [updateTodo] keeps the list on the screen in step with the
    table: if every todo shown is a row of the user in the table, the
    same holds afterwards, and when [updateTodo] returns [null] neither
    the list nor the table has changed. *)
Theorem updateTodo_keeps_view uid refused now todoId updates w :
  shows uid w ->
  shows uid (snd (updateTodo (Some uid) refused now todoId updates w))
  /\ (fst (updateTodo (Some uid) refused now todoId updates w) = None ->
      snd (updateTodo (Some uid) refused now todoId updates w) = w).
Proof.
  intros (l & Hl & Hview).
  destruct (updateTodo_inv (Some uid) refused now todoId updates w)
    as [->|(uid' & u & r & Hu & _ & _ & Hf & ->)].
  - split; [exists l; now split|reflexivity].
  - injection Hu as <-. cbn [fst snd]. split; [|discriminate].
    exists (map (fun x => if selected todoId uid x then write u now x else x) l).
    cbn [todos server]. split.
    + rewrite Hl, !map_map. apply map_ext_in. intros x Hx.
      rewrite Forall_forall in Hview. destruct (Hview x Hx) as [Hin Hown].
      rewrite has_id_selected, Hown.
      destruct (selected todoId uid x) eqn:Es; [|reflexivity].
      assert (Hx' : In x (filter (selected todoId uid) (server w)))
        by (apply filter_In; now split).
      rewrite Hf in Hx'. destruct Hx' as [->|[]]. reflexivity.
    + apply Forall_map. eapply Forall_impl; [|exact Hview].
      intros x [Hin Hown]. unfold updated. split.
      * apply in_map_iff. exists x. now split.
      * now destruct (selected todoId uid x).
Qed.

Lemma deleteTodo_inv uid refused todoId w :
  deleteTodo (Some uid) refused todoId w
  = match refused with
    | Some _ => (false, w)
    | None =>
      (true,
       {| todos := filter (fun todo => negb (has_id todoId todo)) (todos w);
          server := filter (fun r => negb (selected todoId uid r)) (server w) |})
    end.
Proof. destruct refused, w; reflexivity. Qed.

(** X11. [deleteTodo] keeps the list on the screen in step with the
    table as well; when it returns [false] nothing has changed, and when
    it returns [true] neither the list nor the user's rows in the table
    hold a todo with that id. *)
Theorem deleteTodo_keeps_view uid refused todoId w :
  shows uid w ->
  shows uid (snd (deleteTodo (Some uid) refused todoId w))
  /\ (fst (deleteTodo (Some uid) refused todoId w) = false ->
      snd (deleteTodo (Some uid) refused todoId w) = w)
  /\ (fst (deleteTodo (Some uid) refused todoId w) = true ->
      (forall todo, In todo (todos (snd (deleteTodo (Some uid) refused todoId w))) ->
                    has_id todoId todo = false)
      /\ filter (selected todoId uid)
                (server (snd (deleteTodo (Some uid) refused todoId w))) = []).
Proof.
  intros (l & Hl & Hview). rewrite deleteTodo_inv.
  destruct refused as [code|]; cbn [fst snd].
  - split; [exists l; now split|]. split; [reflexivity|discriminate].
  - split; [|split; [discriminate|intros _; split]].
    + exists (filter (fun r => negb (selected todoId uid r)) l).
      cbn [todos server]. split.
      * rewrite Hl. clear Hl. induction Hview as [|x l [Hin Hown] _ IH];
          [reflexivity|].
        simpl. rewrite IH, has_id_selected, Hown.
        now destruct (selected todoId uid x).
      * rewrite Forall_forall in *. intros x Hx.
        apply filter_In in Hx as [Hx Hs]. destruct (Hview x Hx) as [Hin Hown].
        split; [|exact Hown]. apply filter_In. now split.
    + cbn [todos]. intros todo Hin. apply filter_In in Hin as [_ Hn].
      now apply negb_true_iff.
    + cbn [server]. clear Hview Hl.
      induction (server w) as [|x t IH]; [reflexivity|].
      simpl. destruct (selected todoId uid x) eqn:E; simpl; [exact IH|].
      now rewrite E.
Qed.

(** The update that [toggleTodoStatus] sends. *)
Definition status_update (st : jsstr) : TodoUpdateData :=
  {| u_title := None; u_description := None; u_due_date := None;
     u_status := Some (JStr st); u_priority := None |}.

Definition toggled (todo : json) : jsstr :=
  if completed todo then lit "pending" else lit "completed".

Lemma updateData_status st :
  updateData (JObj [(lit "status", JStr st)]) = Some (status_update st).
Proof. vm_compute. reflexivity. Qed.

Lemma PUT_status todoId uid refused now st s :
  PUT todoId (Some uid) (Some (JObj [(lit "status", JStr st)])) refused now s
  = let (s', res) := db_update refused (status_update st) now todoId uid s in
    {| answer :=
         match res with
         | Single updatedTodo => {| http := 200; body := row_json updatedTodo |}
         | SingleError code =>
           if str_eqb code (lit "PGRST116") then
             {| http := 404;
                body := error_body "할 일을 찾을 수 없거나 수정 권한이 없습니다." |}
           else
             {| http := 500;
                body := error_body "할 일 수정 중 오류가 발생했습니다." |}
         end;
       table := s';
       issued := [Update (status_update st) todoId uid] |}.
Proof.
  unfold PUT. cbv zeta. rewrite updateData_status.
  replace (member (JObj [(lit "status", JStr st)]) "title") with (@None json)
    by (vm_compute; reflexivity).
  reflexivity.
Qed.

Lemma updateTodo_status uid now todoId st w r :
  filter (selected todoId uid) (server w) = [r] ->
  updateTodo (Some uid) None now todoId (JObj [(lit "status", JStr st)]) w
  = (Some (row_json (write (status_update st) now r)),
     {| todos := map (fun todo => if has_id todoId todo
                                  then row_json (write (status_update st) now r)
                                  else todo) (todos w);
        server := updated (status_update st) now todoId uid (server w) |}).
Proof.
  intros Hf. unfold updateTodo. cbv zeta. rewrite PUT_status.
  unfold db_update. rewrite Hf. reflexivity.
Qed.

Lemma toggle_basic uid now todoId w r todo :
  find (has_id todoId) (todos w) = Some todo ->
  filter (selected todoId uid) (server w) = [r] ->
  toggleTodoStatus (Some uid) None now todoId w
  = (true, snd (updateTodo (Some uid) None now todoId
                           (JObj [(lit "status", JStr (toggled todo))]) w)).
Proof.
  intros Hfind Hf. unfold toggleTodoStatus. rewrite Hfind. reflexivity.
Qed.

Lemma shown_row uid todoId w todo :
  shows uid w -> NoDup (map id (server w)) ->
  find (has_id todoId) (todos w) = Some todo ->
  exists r, todo = row_json r /\ In r (server w) /\ id r = todoId
            /\ user_id r = uid
            /\ filter (selected todoId uid) (server w) = [r].
Proof.
  intros (l & Hl & Hview) Hnd Hfind.
  apply find_some in Hfind as [Hin Hid]. rewrite Hl in Hin.
  apply in_map_iff in Hin as (r & <- & Hr).
  rewrite Forall_forall in Hview. destruct (Hview r Hr) as [Hs Hown].
  rewrite has_id_row in Hid. apply str_eqb_eq in Hid.
  exists r. repeat split; try assumption.
  pose proof (filter_unique_id (fun y => str_eqb (user_id y) uid) r (server w) Hnd Hs) as E.
  cbv beta in E. fold (selected (id r) uid) in E.
  rewrite Hid in E. rewrite E, Hown, str_eqb_refl. reflexivity.
Qed.

Lemma find_replaced todoId todo r l :
  id r = todoId ->
  find (has_id todoId) l = Some todo ->
  find (has_id todoId)
       (map (fun t => if has_id todoId t then row_json r else t) l)
  = Some (row_json r).
Proof.
  intros Hid. induction l as [|t l IH]; [discriminate|].
  simpl. destruct (has_id todoId t) eqn:E.
  - intros _. now rewrite has_id_row, Hid, str_eqb_refl.
  - rewrite E. exact IH.
Qed.

Lemma write_status_twice a b n1 n2 r :
  write (status_update a) n2 (write (status_update b) n1 r)
  = write (status_update a) n2 r.
Proof. reflexivity. Qed.

Lemma completed_toggled todo r now :
  toggled (row_json (write (status_update (toggled todo)) now r))
  = if completed todo then lit "completed" else lit "pending".
Proof.
  unfold toggled at 1. unfold completed at 1. rewrite get_status.
  cbn [write status status_update u_status set_default].
  unfold toggled. destruct (completed todo); vm_compute; reflexivity.
Qed.

(** X12. For a list of objects, [toggleTodoStatus] returns [true]
    whenever the todo is on the screen, also when the server turned the
    update down and nothing has changed: it never reports the failure of
    the update. It returns [false] only for an id that is not on the
    screen. *)
Theorem toggleTodoStatus_hides_failure user refused now todoId w :
  Forall (fun todo => todo <> JNull) (todos w) ->
  (fst (toggleTodoStatus user refused now todoId w) = true
   <-> exists todo, In todo (todos w) /\ has_id todoId todo = true)
  /\ (user = None \/ refused <> None ->
      snd (toggleTodoStatus user refused now todoId w) = w).
Proof.
  intros _. unfold toggleTodoStatus. split.
  - destruct (find (has_id todoId) (todos w)) as [todo|] eqn:E; cbn [fst].
    + split; [intros _|reflexivity]. exists todo. now apply find_some in E.
    + split; [discriminate|]. intros (todo & Hin & Hid).
      now rewrite (find_none _ _ E todo Hin) in Hid.
  - intros Hfail.
    destruct (find (has_id todoId) (todos w)) as [todo|]; [|reflexivity].
    cbn [snd].
    destruct (updateTodo_inv user refused now todoId
                (JObj [(lit "status", JStr (toggled todo))]) w)
      as [E|(uid & u & r & Hu & Hr & _)].
    + unfold toggled in E. now rewrite E.
    + destruct Hfail as [Hfail|Hfail]; [congruence|contradiction].
Qed.

(** X13. When the list shows rows of the user and the ids of the table
    differ, a toggle that the store accepts writes the other status to
    the row: GET then returns the row with status [pending] if it was
    [completed] and [completed] otherwise, and the list shows the same
    row. *)
Theorem toggleTodoStatus_flips uid now todoId w todo :
  shows uid w -> NoDup (map id (server w)) ->
  find (has_id todoId) (todos w) = Some todo ->
  exists r,
    todo = row_json r /\ In r (server w)
    /\ GET todoId (Some uid) None
           (server (snd (toggleTodoStatus (Some uid) None now todoId w)))
       = {| http := 200;
            body := row_json (write (status_update (toggled todo)) now r) |}
    /\ find (has_id todoId)
            (todos (snd (toggleTodoStatus (Some uid) None now todoId w)))
       = Some (row_json (write (status_update (toggled todo)) now r)).
Proof.
  intros Hview Hnd Hfind.
  destruct (shown_row uid todoId w todo Hview Hnd Hfind)
    as (r & -> & Hin & Hid & Hown & Hf).
  exists r. split; [reflexivity|]. split; [exact Hin|].
  rewrite (toggle_basic uid now todoId w r _ Hfind Hf).
  rewrite (updateTodo_status uid now todoId _ w r Hf). cbn [snd server todos].
  split.
  - unfold GET, db_select. now rewrite filter_updated, Hf.
  - now apply (find_replaced todoId (row_json r)).
Qed.

(** X14. Two toggles in a row leave the list and the table as one update
    of the status would: to [completed] if the todo was completed, to
    [pending] otherwise, with the time of the second toggle. *)
Theorem toggleTodoStatus_twice uid now1 now2 todoId w todo :
  shows uid w -> NoDup (map id (server w)) ->
  find (has_id todoId) (todos w) = Some todo ->
  snd (toggleTodoStatus (Some uid) None now2 todoId
         (snd (toggleTodoStatus (Some uid) None now1 todoId w)))
  = snd (updateTodo (Some uid) None now2 todoId
           (JObj [(lit "status",
                   JStr (if completed todo then lit "completed" else lit "pending"))])
           w).
Proof.
  intros Hview Hnd Hfind.
  destruct (shown_row uid todoId w todo Hview Hnd Hfind)
    as (r & -> & Hin & Hid & Hown & Hf).
  rewrite (toggle_basic uid now1 todoId w r _ Hfind Hf).
  rewrite (updateTodo_status uid now1 todoId _ w r Hf). cbn [snd].
  set (r1 := write (status_update (toggled (row_json r))) now1 r).
  set (w1 := {| todos := _; server := _ |}).
  assert (Hfind1 : find (has_id todoId) (todos w1) = Some (row_json r1))
    by (now apply (find_replaced todoId (row_json r))).
  assert (Hf1 : filter (selected todoId uid) (server w1) = [r1])
    by (unfold w1; cbn [server]; now rewrite filter_updated, Hf).
  rewrite (toggle_basic uid now2 todoId w1 r1 _ Hfind1 Hf1).
  rewrite (updateTodo_status uid now2 todoId _ w1 r1 Hf1).
  rewrite (updateTodo_status uid now2 todoId _ w r Hf). cbn [snd].
  unfold r1 at 1 3. rewrite completed_toggled.
  set (st := if completed (row_json r) then lit "completed" else lit "pending").
  unfold r1. rewrite write_status_twice.
  unfold w1. cbn [todos server]. f_equal.
  - rewrite map_map. apply map_ext. intros t.
    destruct (has_id todoId t) eqn:E; [|now rewrite E].
    rewrite has_id_row. change (id r1) with (id r).
    now rewrite Hid, str_eqb_refl.
  - unfold updated. rewrite map_map. apply map_ext. intros x.
    destruct (selected todoId uid x) eqn:E; [|now rewrite E].
    replace (selected todoId uid (write (status_update (toggled (row_json r))) now1 x))
      with true by (symmetry; exact E).
    apply write_status_twice.
Qed.

(** ** The hook run on the table of two users *)

Definition screen : world :=
  {| todos := [row_json (entry groceries mina "장보기")]; server := rows |}.

Definition done : json := JObj [(lit "status", JStr (lit "completed"))].

Lemma screen_shows : shows mina screen.
Proof.
  exists [entry groceries mina "장보기"]. split; [reflexivity|].
  constructor; [|constructor]. split; [left; reflexivity|reflexivity].
Qed.

Lemma rows_distinct : NoDup (map id (server screen)).
Proof. apply distinct_NoDup. vm_compute. reflexivity. Qed.

Lemma updateTodo_keeps_view_witness :
  shows mina screen
  /\ shows mina (snd (updateTodo (Some mina) None noon groceries done screen))
  /\ (fst (updateTodo (Some mina) None noon groceries done screen) = None ->
      snd (updateTodo (Some mina) None noon groceries done screen) = screen).
Proof.
  split; [exact screen_shows|].
  exact (updateTodo_keeps_view mina None noon groceries done screen screen_shows).
Defined.

Lemma deleteTodo_keeps_view_witness :
  shows mina screen
  /\ shows mina (snd (deleteTodo (Some mina) None groceries screen))
  /\ (fst (deleteTodo (Some mina) None groceries screen) = false ->
      snd (deleteTodo (Some mina) None groceries screen) = screen)
  /\ (fst (deleteTodo (Some mina) None groceries screen) = true ->
      (forall todo, In todo (todos (snd (deleteTodo (Some mina) None groceries screen))) ->
                    has_id groceries todo = false)
      /\ filter (selected groceries mina)
                (server (snd (deleteTodo (Some mina) None groceries screen))) = []).
Proof.
  split; [exact screen_shows|].
  exact (deleteTodo_keeps_view mina None groceries screen screen_shows).
Defined.

Lemma toggleTodoStatus_hides_failure_witness :
  Forall (fun todo => todo <> JNull) (todos screen)
  /\ (fst (toggleTodoStatus (Some mina) (Some (lit "57014")) noon groceries screen)
      = true
      <-> exists todo, In todo (todos screen) /\ has_id groceries todo = true)
  /\ (Some mina = None \/ Some (lit "57014") <> None ->
      snd (toggleTodoStatus (Some mina) (Some (lit "57014")) noon groceries screen)
      = screen).
Proof.
  assert (H : Forall (fun todo => todo <> JNull) (todos screen))
    by (repeat constructor; discriminate).
  split; [exact H|].
  exact (toggleTodoStatus_hides_failure (Some mina) (Some (lit "57014")) noon
           groceries screen H).
Defined.

Lemma toggleTodoStatus_flips_witness :
  shows mina screen /\ NoDup (map id (server screen))
  /\ find (has_id groceries) (todos screen)
     = Some (row_json (entry groceries mina "장보기"))
  /\ exists r,
       row_json (entry groceries mina "장보기") = row_json r /\ In r (server screen)
       /\ GET groceries (Some mina) None
              (server (snd (toggleTodoStatus (Some mina) None noon groceries screen)))
          = {| http := 200;
               body := row_json
                         (write (status_update
                                   (toggled (row_json (entry groceries mina "장보기"))))
                                noon r) |}
       /\ find (has_id groceries)
               (todos (snd (toggleTodoStatus (Some mina) None noon groceries screen)))
          = Some (row_json
                    (write (status_update
                              (toggled (row_json (entry groceries mina "장보기"))))
                           noon r)).
Proof.
  assert (H : find (has_id groceries) (todos screen)
              = Some (row_json (entry groceries mina "장보기")))
    by (vm_compute; reflexivity).
  split; [exact screen_shows|]. split; [exact rows_distinct|]. split; [exact H|].
  exact (toggleTodoStatus_flips mina noon groceries screen _
           screen_shows rows_distinct H).
Defined.

Lemma toggleTodoStatus_twice_witness :
  shows mina screen /\ NoDup (map id (server screen))
  /\ find (has_id groceries) (todos screen)
     = Some (row_json (entry groceries mina "장보기"))
  /\ snd (toggleTodoStatus (Some mina) None noon groceries
            (snd (toggleTodoStatus (Some mina) None noon groceries screen)))
     = snd (updateTodo (Some mina) None noon groceries
              (JObj [(lit "status",
                      JStr (if completed (row_json (entry groceries mina "장보기"))
                            then lit "completed" else lit "pending"))])
              screen).
Proof.
  assert (H : find (has_id groceries) (todos screen)
              = Some (row_json (entry groceries mina "장보기")))
    by (vm_compute; reflexivity).
  split; [exact screen_shows|]. split; [exact rows_distinct|]. split; [exact H|].
  exact (toggleTodoStatus_twice mina noon noon groceries screen _
           screen_shows rows_distinct H).
Defined.

End UseTodosFacts.

(* ===================================================================== *)
(** * POST /api/ai/parse-todo: the model call, the error codes, and
      [postprocessData] as a normal form *)
(* ===================================================================== *)

Module ParseTodoFacts.

Import ParseTodo JSFacts ParseTodoProps.

(** The status and the code of every answer that is an error. *)
Definition failures : list (Z * option jsstr) :=
  [ (400, Some (lit "MISSING_INPUT"));
    (400, Some (lit "INVALID_CONTENT"));
    (400, Some (lit "TOO_SHORT"));
    (400, Some (lit "TOO_LONG"));
    (429, Some (lit "RATE_LIMIT_EXCEEDED"));
    (401, Some (lit "AUTHENTICATION_FAILED"));
    (500, Some (lit "PARSE_ERROR"));
    (500, Some (lit "NETWORK_ERROR"));
    (500, Some (lit "INTERNAL_ERROR"));
    (500, None) ].

(** The object that [postprocessData] returns: [data] with the members
    it has after the assignments. *)
Definition member (k : string) (v : option json) : list (jsstr * json) :=
  match v with
  | Some x => [(lit k, x)]
  | None => []
  end.

Definition object_of (p : ParsedTodoData) : json :=
  JObj (member "title" (data_title p)
        ++ member "description" (data_description p)
        ++ member "due_date" (data_due_date p)
        ++ member "due_time" (data_due_time p)
        ++ member "priority" (data_priority p)
        ++ member "tags" (data_tags p)).

Lemma validateInput_Valid_inv s :
  validateInput (Some s) = Valid ->
  (2 <= length (meaningfulText s))%nat /\ (length s <= 500)%nat.
Proof.
  unfold validateInput.
  destruct (Nat.eqb (length s) 0); [discriminate|].
  destruct (Nat.eqb (length (meaningfulText s)) 0); [discriminate|].
  destruct (Nat.ltb_spec (length (meaningfulText s)) 2); [discriminate|].
  destruct (Nat.ltb_spec 500 (length s)); [discriminate|].
  intros _. lia.
Qed.

Lemma validateInput_codes c s e code :
  validateInput (Some (c :: s : jsstr)) = Invalid e code ->
  In (400, Some code) failures.
Proof.
  unfold validateInput.
  replace (Nat.eqb (length (c :: s : jsstr)) 0) with false by reflexivity.
  destruct (Nat.eqb (length (meaningfulText (c :: s))) 0);
    [intros H; injection H as <- <-; unfold failures; listed|].
  destruct (Nat.ltb (length (meaningfulText (c :: s))) 2);
    [intros H; injection H as <- <-; unfold failures; listed|].
  destruct (Nat.ltb 500 (length (c :: s : jsstr)));
    [intros H; injection H as <- <-; unfold failures; listed|discriminate].
Qed.

Lemma failures_no_EMPTY_INPUT st c :
  In (st, c) failures -> c <> Some (lit "EMPTY_INPUT").
Proof.
  unfold failures. cbn [In]. intros H E. subst c.
  repeat (destruct H as [H|H]; [vm_compute in H; discriminate H|]).
  exact H.
Qed.

Lemma upstream_failures_listed st c :
  In (st, c) upstream_failures -> In (st, c) failures.
Proof.
  unfold upstream_failures, failures. cbn [In]. intros H.
  repeat (destruct H as [H|H]; [rewrite <- H; listed|]). contradiction.
Qed.

Lemma on_throw_listed msg :
  exists st e c, on_throw msg = Fail st e c /\ In (st, c) failures /\ st <> 400.
Proof.
  destruct (on_throw_codes msg) as (st & e & c & E & Hin & Hst).
  exists st, e, (Some c). split; [exact E|].
  split; [now apply upstream_failures_listed|exact Hst].
Qed.

Lemma clean_tags_strings l :
  exists k, clean_tags l = map JStr k /\ (length k <= 3)%nat
            /\ Forall (fun s => trim s = s /\ s <> []) k.
Proof.
  unfold clean_tags. destruct (cleaned_strings l) as (strs & -> & HF).
  exists (firstn 3 strs). split; [apply firstn_map|].
  split; [apply firstn_le_length|].
  apply Forall_forall. intros x Hx. rewrite Forall_forall in HF.
  apply HF. eapply firstn_In. exact Hx.
Qed.

Lemma clean_tags_fixed k :
  (length k <= 3)%nat -> Forall (fun s => trim s = s /\ s <> []) k ->
  clean_tags (map JStr k) = map JStr k.
Proof.
  intros H3 HF. unfold clean_tags.
  assert (E : map (fun t => match t with JStr s => JStr (trim s) | _ => t end)
                (filter (fun t => match t with
                                  | JStr s => Nat.ltb 0 (length (trim s))
                                  | _ => false
                                  end) (map JStr k)) = map JStr k).
  { clear H3. induction HF as [|x k [Hx Hne] _ IH]; [reflexivity|].
    simpl. rewrite Hx.
    destruct x as [|c x]; [contradiction|]. simpl. now rewrite Hx, IH. }
  rewrite E. apply firstn_all2. now rewrite length_map.
Qed.

Lemma clean_tags_idem l : clean_tags (clean_tags l) = clean_tags l.
Proof.
  destruct (clean_tags_strings l) as (k & -> & H3 & HF).
  now apply clean_tags_fixed.
Qed.

Lemma adjust_tags_idem t : adjust_tags (Some (adjust_tags t)) = adjust_tags t.
Proof.
  destruct t as [[| | | |l|]|]; try reflexivity.
  cbn [adjust_tags]. now rewrite clean_tags_idem.
Qed.

Lemma get_object_of p :
  get (object_of p) (lit "title") = data_title p
  /\ get (object_of p) (lit "description") = data_description p
  /\ get (object_of p) (lit "due_date") = data_due_date p
  /\ get (object_of p) (lit "due_time") = data_due_time p
  /\ get (object_of p) (lit "priority") = data_priority p
  /\ get (object_of p) (lit "tags") = data_tags p.
Proof.
  destruct p as [[t|] [d|] [dd|] [dt|] [pr|] [tg|]]; repeat split; reflexivity.
Qed.

(** What the two statements on the title make of it. *)
Lemma title_result t r :
  (t1 <- shorten_title t ;; replace_short_title t1) = Returns r ->
  r = t \/ r = Some (JStr (lit "새 할 일"))
  \/ exists s, (200 < length s)%nat
               /\ r = Some (JStr (substring0 200 s ++ lit "...")).
Proof.
  destruct (truthy t) eqn:Etr;
    [|rewrite (title_falsy _ Etr); intros H; injection H as <-; now left].
  destruct t as [x|]; [|discriminate Etr].
  intros H. apply bind_Returns in H as (t1 & H1 & H).
  unfold shorten_title in H1. rewrite Etr in H1.
  apply bind_Returns in H1 as (long & Hl & H1).
  assert (Hrep : forall y, replace_short_title (Some y) = Returns r ->
            r = Some y \/ r = Some (JStr (lit "새 할 일"))).
  { intros y Hy. unfold replace_short_title in Hy.
    destruct (truthy (Some y)); [|injection Hy as <-; now left].
    apply bind_Returns in Hy as (short & _ & Hy). injection Hy as <-.
    destruct short; [now right|now left]. }
  destruct long.
  - destruct x as [| | |s| |]; try discriminate H1. injection H1 as <-.
    cbn [length_gt] in Hl. injection Hl as Hl. apply Nat.ltb_lt in Hl.
    destruct (Hrep _ H) as [->| ->]; [|right; now left].
    right. right. exists s. now split.
  - injection H1 as <-. destruct (Hrep _ H) as [->| ->]; [now left|right; now left].
Qed.

Lemma title_idem t r :
  (t1 <- shorten_title t ;; replace_short_title t1) = Returns r ->
  (t1 <- shorten_title r ;; replace_short_title t1) = Returns r.
Proof.
  intros H. destruct (title_result t r H) as [->|[->|(s & Hs & ->)]].
  - exact H.
  - reflexivity.
  - remember (substring0 200 s ++ lit "...") as X eqn:EX.
    assert (Hlen : length X = 203%nat).
    { rewrite EX, length_app. unfold substring0. rewrite length_firstn.
      change (length (lit "...")) with 3%nat. lia. }
    assert (Hfirst : substring0 200 X ++ lit "..." = X).
    { rewrite EX at 1. unfold substring0.
      rewrite firstn_app, firstn_firstn, length_firstn.
      replace (200 - Nat.min 200 (length s))%nat with 0%nat by lia.
      replace (Nat.min 200 200) with 200%nat by reflexivity.
      rewrite firstn_O, app_nil_r. symmetry. exact EX. }
    clear EX H. destruct X as [|c x]; [discriminate Hlen|].
    unfold shorten_title. cbn [truthy length_gt bind]. rewrite Hlen.
    change (Nat.ltb 200 203) with true. cbv iota. cbn [bind].
    rewrite Hfirst. unfold replace_short_title. cbn [truthy length_lt bind].
    rewrite Hlen. reflexivity.
Qed.

Lemma adjust_priority_idem p r :
  adjust_priority p = Returns r -> adjust_priority r = Returns r.
Proof.
  intros H.
  destruct (adjust_priority_inv _ _ H)
    as [[Hf ->]|[->|(x & n & -> & -> & Htr & Hn & H1 & H3)]].
  - unfold adjust_priority. now rewrite Hf.
  - reflexivity.
  - unfold adjust_priority, less_than, greater_than, to_number.
    rewrite Htr, Hn. cbn [bind]. rewrite H1. cbn [bind]. now rewrite H3.
Qed.

Section Handler.

Variable toLowerCase : jsstr -> jsstr.
Variable Date_parse_other : jsstr -> option Z.
Variable message : type_error -> jsstr.

Local Abbreviation POST := (ParseTodo.POST toLowerCase Date_parse_other message).
Local Abbreviation postprocessData := (ParseTodo.postprocessData Date_parse_other).
Local Abbreviation adjust_due_date := (ParseTodo.adjust_due_date Date_parse_other).
Local Abbreviation preprocessInput := (ParseTodo.preprocessInput toLowerCase).
Local Abbreviation Date_parse := (ParseTodo.Date_parse Date_parse_other).
Local Abbreviation Date_of := (ParseTodo.Date_of Date_parse_other).

(** The answer to a request for which the model is not called. *)
Lemma POST_without_call apiKey body today ai :
  model_calls (POST apiKey body today ai) = [] ->
  (forall ai', POST apiKey body today ai' = POST apiKey body today ai)
  /\ exists st e c,
       result (POST apiKey body today ai) = Fail st e c
       /\ In (st, c) failures
       /\ ((apiKey = false \/ exists b, body = JsonValue b /\ b <> JNull) ->
           st = 400 \/ st = 500).
Proof.
  destruct apiKey.
  2:{ intros _. split; [reflexivity|]. do 3 eexists.
      split; [reflexivity|]. split; [unfold failures; listed|]. tauto. }
  destruct body as [msg|b].
  { intros _. split; [reflexivity|].
    destruct (on_throw_listed msg) as (st & e & c & E & Hin & _).
    exists st, e, c. split; [exact E|]. split; [exact Hin|].
    intros [H|(b & H & _)]; discriminate H. }
  destruct (json_null_dec b) as [->|Hb].
  { intros _. split; [reflexivity|].
    destruct (on_throw_listed (Some (message DestructureNull)))
      as (st & e & c & E & Hin & _).
    exists st, e, c. split; [exact E|]. split; [exact Hin|].
    intros [H|(b & H & Hn)]; [discriminate H|]. injection H as <-. contradiction. }
  intros Hcalls.
  assert (Hsame : forall ai', POST true (JsonValue b) today ai'
                              = POST true (JsonValue b) today ai).
  { intros ai'.
    rewrite (POST_body _ _ _ b today ai' Hb), (POST_body _ _ _ b today ai Hb).
    rewrite (POST_body _ _ _ b today ai Hb) in Hcalls.
    destruct (get b (lit "input")) as [[| | |[|c s]| |]|]; try reflexivity.
    destruct (validateInput (Some (c :: s : jsstr)));
      [discriminate Hcalls|reflexivity]. }
  split; [exact Hsame|].
  rewrite (POST_body _ _ _ b today ai Hb) in Hcalls |- *.
  destruct (get b (lit "input")) as [[| | |[|c s]| |]|];
    try (do 3 eexists; split; [reflexivity|];
         split; [unfold failures; listed|]; intros _; now left).
  destruct (validateInput (Some (c :: s : jsstr))) eqn:Ev; [discriminate Hcalls|].
  do 3 eexists. split; [reflexivity|].
  split; [exact (validateInput_codes c s _ _ Ev)|]. intros _. now left.
Qed.

(** X15. The endpoint calls the model at most once, and exactly for a
    request that has the API key set and a body whose [input] is a string
    of at most 500 characters, two or more of them no blanks; it then
    sends the preprocessed input. For every other request the answer is
    an error that does not depend on the model; its status is 400 or 500
    when the key is not set or the body was read and is not [null], and
    some status of the [catch] block when reading the body threw. *)
Theorem POST_model_call apiKey body today ai :
  (forall b s, apiKey = true -> body = JsonValue b ->
             get b (lit "input") = Some (JStr s) ->
             (2 <= length (meaningfulText s))%nat -> (length s <= 500)%nat ->
             model_calls (POST apiKey body today ai) = [preprocessInput s])
  /\ (forall p, In p (model_calls (POST apiKey body today ai)) ->
                exists b s, apiKey = true /\ body = JsonValue b
                          /\ get b (lit "input") = Some (JStr s)
                          /\ (2 <= length (meaningfulText s))%nat
                          /\ (length s <= 500)%nat
                          /\ model_calls (POST apiKey body today ai)
                             = [preprocessInput s])
  /\ (model_calls (POST apiKey body today ai) = [] ->
      (forall ai', POST apiKey body today ai' = POST apiKey body today ai)
      /\ exists st e c,
           result (POST apiKey body today ai) = Fail st e c
           /\ In (st, c) failures
           /\ ((apiKey = false \/ exists b, body = JsonValue b /\ b <> JNull) ->
               st = 400 \/ st = 500)).
Proof.
  split; [|split].
  - intros b s -> -> Hb H2 H500.
    destruct (validateInput_valid s H2 H500) as [Hv (c & r & ->)].
    rewrite (POST_body _ _ _ _ _ _ (get_not_null _ _ _ Hb)), Hb, Hv. reflexivity.
  - destruct apiKey; [|contradiction].
    destruct body as [msg|b]; [contradiction|].
    destruct (json_null_dec b) as [->|Hb]; [contradiction|].
    rewrite (POST_body _ _ _ _ _ _ Hb).
    destruct (get b (lit "input")) as [[| | |[|c s]| |]|] eqn:Ein; try contradiction.
    destruct (validateInput (Some (c :: s : jsstr))) eqn:Ev; [|contradiction].
    cbn [model_calls]. intros p _. exists b, (c :: s).
    destruct (validateInput_Valid_inv _ Ev). repeat split; assumption.
  - apply POST_without_call.
Qed.

(** X16. Every error that the endpoint answers has one of ten pairs of
    status and code; [EMPTY_INPUT], which [validateInput] has, is not
    among them. Status 400 is answered only before the model is called;
    every other error status of a request with the API key set is
    answered after it, or for a body that could not be read or is
    [null]. *)
Theorem POST_error_codes apiKey body today ai :
  match result (POST apiKey body today ai) with
  | Fail st _ c =>
    In (st, c) failures
    /\ c <> Some (lit "EMPTY_INPUT")
    /\ (st = 400 -> model_calls (POST apiKey body today ai) = [])
    /\ (apiKey = true ->
        st = 400
        \/ length (model_calls (POST apiKey body today ai)) = 1%nat
        \/ (exists msg, body = JsonThrows msg) \/ body = JsonValue JNull)
  | Ok _ => True
  end.
Proof.
  assert (H : match result (POST apiKey body today ai) with
              | Fail st _ c =>
                In (st, c) failures
                /\ (st = 400 -> model_calls (POST apiKey body today ai) = [])
                /\ (apiKey = true ->
                    st = 400
                    \/ length (model_calls (POST apiKey body today ai)) = 1%nat
                    \/ (exists msg, body = JsonThrows msg) \/ body = JsonValue JNull)
              | Ok _ => True
              end).
  { destruct apiKey.
    2:{ cbn. split; [unfold failures; listed|]. split; [reflexivity|discriminate]. }
    destruct body as [msg|b].
    { change (result (POST true (JsonThrows msg) today ai)) with (on_throw msg).
      destruct (on_throw_listed msg) as (st & e & c & -> & Hin & Hst).
      split; [exact Hin|]. split; [intros E; contradiction|].
      intros _. right. right. left. eauto. }
    destruct (json_null_dec b) as [->|Hb].
    { change (result (POST true (JsonValue JNull) today ai))
        with (on_throw (Some (message DestructureNull))).
      destruct (on_throw_listed (Some (message DestructureNull)))
        as (st & e & c & -> & Hin & Hst).
      split; [exact Hin|]. split; [intros E; contradiction|].
      intros _. right. right. now right. }
    rewrite (POST_body _ _ _ _ _ _ Hb).
    destruct (get b (lit "input")) as [[| | |[|c s]| |]|];
      try (cbn [result model_calls]; split; [unfold failures; listed|];
           split; [reflexivity|now left]).
    destruct (validateInput (Some (c :: s : jsstr))) eqn:Ev.
    - cbn [result model_calls].
      assert (Hthrow : forall msg,
                match on_throw msg with
                | Fail st _ code =>
                  In (st, code) failures
                  /\ (st = 400 -> [preprocessInput (c :: s)] = [])
                  /\ (true = true ->
                      st = 400
                      \/ length [preprocessInput (c :: s)] = 1%nat
                      \/ (exists msg0, JsonValue b = JsonThrows msg0)
                      \/ JsonValue b = JsonValue JNull)
                | Ok _ => True
                end).
      { intros msg. destruct (on_throw_listed msg) as (st & e & code & -> & Hin & Hst).
        split; [exact Hin|]. split; [intros E; contradiction|].
        intros _. right. now left. }
      destruct ai as [msg|text]; [apply Hthrow|].
      destruct (JSON_parse (jsonString text)) as [v|].
      + destruct (p <- postprocessData today v ;;
                  validatedData today (preprocessInput (c :: s)) p) as [d|err];
          [exact I|apply Hthrow].
      + split; [unfold failures; listed|]. split; [discriminate|].
        intros _. right. now left.
    - cbn [result model_calls]. split; [exact (validateInput_codes c s _ _ Ev)|].
      split; [reflexivity|now left]. }
  destruct (result (POST apiKey body today ai)) as [d|st e c]; [exact I|].
  destruct H as (Hin & H400 & Hcall).
  split; [exact Hin|]. split; [exact (failures_no_EMPTY_INPUT st c Hin)|].
  split; assumption.
Qed.

(** ** [postprocessData] *)

Lemma time_lt_irrefl t : time_lt t t = false.
Proof. destruct t as [x|]; [|reflexivity]. cbn [time_lt]. apply Z.ltb_irrefl. Qed.

Lemma adjust_due_date_idem today data due p :
  adjust_due_date today data = Returns due ->
  data_due_date p = Some due ->
  adjust_due_date today (object_of p) = Returns due.
Proof.
  intros H Hp. unfold ParseTodo.adjust_due_date. cbv zeta.
  destruct (get_object_of p) as (_ & _ & -> & _). rewrite Hp.
  assert (Htoday : (if truthy (Some (JStr today))
                    then inputDate <- Date_of (JStr today) ;;
                         Returns (if time_lt inputDate (Date_parse today)
                                  then JStr today else JStr today)
                    else Returns (JStr today)) = Returns (JStr today)).
  { destruct (truthy (Some (JStr today))); [|reflexivity].
    cbn [ParseTodo.Date_of bind]. now destruct (time_lt _ _). }
  destruct (adjust_due_date_inv _ _ _ _ H) as [->|(tv & _ & Htr & Htv & Hlt)].
  - exact Htoday.
  - rewrite Htr, Htv. cbn [bind]. now rewrite Hlt.
Qed.

(** X17. [postprocessData] brings the parsed reply to a normal form:
    applied to the object it returns, it returns the same. *)
Theorem postprocessData_idempotent today data p :
  postprocessData today data = Returns p ->
  postprocessData today (object_of p) = Returns p.
Proof.
  intros H.
  destruct (postprocessData_inv _ _ _ _ H)
    as (_ & Ht & (due & Edue & Hdue) & Hprio & Hdesc & Htime & Htags).
  change (postprocessData today (object_of p))
    with (title1 <- shorten_title (get (object_of p) (lit "title")) ;;
          title2 <- replace_short_title title1 ;;
          due <- adjust_due_date today (object_of p) ;;
          prio <- adjust_priority (get (object_of p) (lit "priority")) ;;
          Returns {| data_title := title2;
                     data_description := get (object_of p) (lit "description");
                     data_due_date := Some due;
                     data_due_time := get (object_of p) (lit "due_time");
                     data_priority := prio;
                     data_tags :=
                       Some (adjust_tags (get (object_of p) (lit "tags"))) |}).
  destruct (get_object_of p) as (-> & -> & _ & -> & -> & ->).
  pose proof (title_idem _ _ Ht) as Ht'.
  apply bind_Returns in Ht' as (t1 & Ht1 & Ht2).
  rewrite Ht1. cbn [bind]. rewrite Ht2. cbn [bind].
  rewrite (adjust_due_date_idem _ _ _ _ Hdue Edue). cbn [bind].
  rewrite (adjust_priority_idem _ _ Hprio). cbn [bind].
  rewrite Htags at 1. rewrite adjust_tags_idem, <- Htags, <- Edue.
  destruct p. reflexivity.
Qed.

End Handler.

Lemma postprocessData_idempotent_witness :
  postprocessData no_other_dates today0 (JObj [(lit "priority", JNum 7)])
  = Returns {| data_title := None; data_description := None;
               data_due_date := Some (JStr today0); data_due_time := None;
               data_priority := Some (JNum 2); data_tags := Some (JArr []) |}
  /\ postprocessData no_other_dates today0
       (JObj [(lit "due_date", JStr today0); (lit "priority", JNum 2);
              (lit "tags", JArr [])])
     = Returns {| data_title := None; data_description := None;
                  data_due_date := Some (JStr today0); data_due_time := None;
                  data_priority := Some (JNum 2); data_tags := Some (JArr []) |}.
Proof.
  assert (H : postprocessData no_other_dates today0 (JObj [(lit "priority", JNum 7)])
              = Returns {| data_title := None; data_description := None;
                           data_due_date := Some (JStr today0); data_due_time := None;
                           data_priority := Some (JNum 2);
                           data_tags := Some (JArr []) |})
    by (vm_compute; reflexivity).
  split; [exact H|].
  exact (postprocessData_idempotent no_other_dates today0 _ _ H).
Defined.

End ParseTodoFacts.

(* ===================================================================== *)
(** * POST /api/ai/summary: the counts, the rates and the lists *)
(* ===================================================================== *)

Module SummaryFacts.

Import Summary SummaryAnalysis JSFacts SummaryProps.

Lemma rate_range c t :
  (c <= t)%nat -> Z.of_nat t < 2 ^ 32 -> 0 <= rate c t <= 100.
Proof.
  intros Hc Ht. unfold rate.
  destruct (Nat.ltb_spec 0 t) as [Hpos|]; [|lia].
  pose proof (percent_spec c t Hc Hpos Ht) as H.
  set (c' := Z.of_nat c) in *. set (t' := Z.of_nat t) in *.
  assert (Hc' : 0 <= c' <= t') by (unfold c', t'; lia).
  assert (Ht' : 0 < t') by (unfold t'; lia).
  assert (Hh : 0 <= half_up c' t' <= 100).
  { unfold half_up. split.
    - apply Z.div_pos; lia.
    - assert ((200 * c' + t') / (2 * t') < 101); [|lia].
      apply Z.div_lt_upper_bound; lia. }
  destruct H as [H|[H1 H2]].
  - lia.
  - assert (Hpos' : 0 < half_up c' t').
    { unfold half_up.
      pose proof (Z.div_mod (200 * c' + t') (2 * t')) as Hd.
      rewrite H2 in Hd. specialize (Hd ltac:(lia)).
      destruct (Z_lt_le_dec 0 ((200 * c' + t') / (2 * t'))) as [|Hle];
        [assumption|]. nia. }
    lia.
Qed.

Lemma filter_le {A} (f : A -> bool) l : (length (filter f l) <= length l)%nat.
Proof. apply filter_length_le. Qed.

Lemma count_split {A} (f g : A -> bool) l :
  (forall x, In x l -> f x = negb (g x)) ->
  (length (filter f l) + length (filter g l) = length l)%nat.
Proof.
  induction l as [|x l IH]; [reflexivity|].
  intros H. simpl. rewrite (H x (or_introl eq_refl)).
  destruct (g x); simpl; rewrite <- IH by (intros; apply H; now right); lia.
Qed.

Lemma count_three (P : Todo -> bool) (todos : list Todo) :
  Forall (fun t => priority t = 1 \/ priority t = 2 \/ priority t = 3) todos ->
  (length (filter (fun t => (priority t =? 1)%Z && P t) todos)
   + length (filter (fun t => (priority t =? 2)%Z && P t) todos)
   + length (filter (fun t => (priority t =? 3)%Z && P t) todos)
   = length (filter P todos))%nat.
Proof.
  induction 1 as [|x l Hx _ IH]; [reflexivity|].
  simpl. destruct (P x); rewrite ?andb_true_r, ?andb_false_r.
  - destruct Hx as [E|[E|E]]; rewrite E; simpl; lia.
  - lia.
Qed.

(** X18. The counts of the analysis add up: every row is either
    completed or pending, a bucket of [priorityAnalysis] has no more
    completed rows than rows, and when every priority is 1, 2 or 3 (the
    CHECK of the table) the three buckets hold each row once. *)
Theorem counts_add_up (todos : list Todo) :
  (length (completedTodos todos) + length (pendingTodos todos)
   = length todos)%nat
  /\ total (high (priorityAnalysis todos)) = length (urgentTodos todos)
  /\ (forall p, (completed_of (tally p todos) <= total (tally p todos))%nat)
  /\ (Forall (fun t => priority t = 1 \/ priority t = 2 \/ priority t = 3) todos ->
      (total (high (priorityAnalysis todos))
       + total (medium (priorityAnalysis todos))
       + total (low (priorityAnalysis todos)) = length todos)%nat
      /\ (completed_of (high (priorityAnalysis todos))
          + completed_of (medium (priorityAnalysis todos))
          + completed_of (low (priorityAnalysis todos))
          = length (completedTodos todos))%nat).
Proof.
  split; [|split; [reflexivity|split]].
  - unfold completedTodos, pendingTodos. apply count_split.
    intros x _. unfold is_completed, is_pending. now destruct (status x).
  - intros p. unfold tally. cbn [total completed_of].
    induction todos as [|x l IH]; [simpl; lia|].
    simpl. destruct (priority x =? p); simpl; [|exact IH].
    destruct (is_completed x); simpl; lia.
  - intros H. unfold priorityAnalysis, tally. cbn [high medium low total completed_of].
    split.
    + pose proof (count_three (fun _ => true) todos H) as E.
      assert (Hall : forall l : list Todo, filter (fun _ => true) l = l)
        by (induction l as [|? ? IHl]; simpl; [|rewrite IHl]; reflexivity).
      rewrite Hall in E.
      assert (Hext : forall p,
                 filter (fun t => (priority t =? p) && true) todos
                 = filter (fun t => priority t =? p) todos)
        by (intros; apply filter_ext; intros; apply andb_true_r).
      rewrite !Hext in E. exact E.
    + exact (count_three is_completed todos H).
Qed.

Section Handler.

Variable Date_parse : jsstr -> option Z.

Local Abbreviation focusTodos := (Summary.focusTodos Date_parse).
Local Abbreviation focusTasks := (Summary.focusTasks Date_parse).
Local Abbreviation focus_filter := (Summary.focus_filter Date_parse).
Local Abbreviation POST := (Summary.POST Date_parse).
Local Abbreviation overdueTodos := (SummaryAnalysis.overdueTodos Date_parse).
Local Abbreviation analysisData := (Summary.analysisData Date_parse).
Local Abbreviation onTimeTodos := (Summary.onTimeTodos Date_parse).
Local Abbreviation postponedTodos := (Summary.postponedTodos Date_parse).
Local Abbreviation deadlineComplianceRate := (Summary.deadlineComplianceRate Date_parse).
Local Abbreviation postponementRate := (Summary.postponementRate Date_parse).

(** X19. For the rows of two arrays (fewer than 2^32 each) the three
    rates of the analysis are percentages between 0 and 100, and the
    change of the completion rate lies between -100 and 100. *)
Theorem rates_are_percentages is_today (todos previousTodos : list Todo) :
  Z.of_nat (length todos) < 2 ^ 32 ->
  Z.of_nat (length previousTodos) < 2 ^ 32 ->
  0 <= a_completionRate (analysisData is_today todos previousTodos) <= 100
  /\ 0 <= a_deadlineComplianceRate (analysisData is_today todos previousTodos) <= 100
  /\ 0 <= a_postponementRate (analysisData is_today todos previousTodos) <= 100
  /\ -100 <= completionRateChange (analysisData is_today todos previousTodos) <= 100.
Proof.
  intros H1 H2.
  cbn [Summary.analysisData a_completionRate a_deadlineComplianceRate
       a_postponementRate completionRateChange].
  assert (Hc : forall l : list Todo, Z.of_nat (length l) < 2 ^ 32 ->
                 0 <= completionRate l <= 100).
  { intros l Hl. unfold completionRate. apply rate_range; [apply filter_le|exact Hl]. }
  pose proof (Hc todos H1). pose proof (Hc previousTodos H2).
  split; [assumption|]. split; [|split; [|lia]].
  - unfold Summary.deadlineComplianceRate. apply rate_range.
    + unfold Summary.onTimeTodos. apply filter_le.
    + pose proof (filter_le is_completed todos). unfold completedTodos. lia.
  - unfold Summary.postponementRate. apply rate_range; [|exact H1].
    unfold Summary.postponedTodos. apply filter_le.
Qed.

Lemma In_nth_split {A} (x : A) n l :
  In x l -> In x (firstn n l) \/ exists i, (n <= i)%nat /\ nth_error l i = Some x.
Proof.
  revert n. induction l as [|y l IH]; [contradiction|].
  intros [|n] Hin.
  - right. destruct (In_nth_error _ _ Hin) as [i Hi]. exists i. split; [lia|exact Hi].
  - destruct Hin as [->|Hin]; [left; now left|].
    destruct (IH n Hin) as [H|(i & Hi & Hn)].
    + left. now right.
    + right. exists (S i). split; [lia|exact Hn].
Qed.

Lemma firstn_nth {A} (x : A) n l :
  In x (firstn n l) -> exists i, (i < n)%nat /\ nth_error l i = Some x.
Proof.
  revert n. induction l as [|y l IH]; intros [|n]; simpl; try contradiction.
  intros [->|H].
  - exists 0%nat. split; [lia|reflexivity].
  - destruct (IH n H) as (i & Hi & Hn). exists (S i). split; [lia|exact Hn].
Qed.

Lemma qualifies_sorted now today todos t :
  In t todos -> status t = pending -> focus_filter now today t = true ->
  In t (Array_sort (focus_order today)
          (filter (focus_filter now today) (sortedPending todos))).
Proof.
  intros Hin Hp Hf.
  apply (Permutation_in _ (Array_sort_perm _ _)).
  apply filter_In. split; [|exact Hf].
  unfold sortedPending. apply (Permutation_in _ (Array_sort_perm _ _)).
  unfold pendingTodos. apply filter_In. split; [exact Hin|].
  now apply is_pending_true.
Qed.

(** X20. A pending row that qualifies for [focusTasks] (priority 1, due
    today, or due within two days) is left out only when the list is
    full with five rows that the order of the list puts no later: when at
    most five rows qualify all of them are listed, a row due today is
    left out only for five rows due today, and a row of priority 1 only
    for five rows that are due today or have a priority of 1 or less. *)
Theorem focusTasks_cut now today todos t :
  In t todos -> status t = pending -> focus_filter now today t = true ->
  ((length (filter (focus_filter now today) (pendingTodos todos)) <= 5)%nat ->
   In t (focusTodos now today todos))
  /\ (In t (focusTodos now today todos)
      \/ (length (focusTasks now today todos) = 5%nat
          /\ Forall (fun x => focus_order today x t <= 0) (focusTodos now today todos)
          /\ (due_date t = Some today ->
              Forall (fun x => due_date x = Some today) (focusTodos now today todos))
          /\ (priority t = 1 ->
              Forall (fun x => due_date x = Some today \/ priority x <= 1)
                     (focusTodos now today todos)))).
Proof.
  intros Hin Hp Hf.
  pose proof (qualifies_sorted now today todos t Hin Hp Hf) as Hs.
  unfold Summary.focusTasks, Summary.focusTodos.
  set (l := Array_sort (focus_order today)
              (filter (focus_filter now today) (sortedPending todos))) in *.
  assert (Hlen : length l
                 = length (filter (focus_filter now today) (pendingTodos todos))).
  { unfold l. rewrite Array_sort_length.
    apply Permutation_length.
    assert (Hperm : forall (f : Todo -> bool) a b,
               Permutation a b -> Permutation (filter f a) (filter f b)).
    { intros f a b H. induction H; simpl.
      - constructor.
      - destruct (f x); [now constructor|assumption].
      - destruct (f x), (f y); try reflexivity. apply perm_swap.
      - etransitivity; eassumption. }
    apply Hperm. apply Permutation_sym. apply Array_sort_perm. }
  split.
  - intros H5. rewrite firstn_all2 by lia. exact Hs.
  - destruct (In_nth_split t 5 l Hs) as [H|(i & Hi & Hn)]; [now left|right].
    assert (Hsorted : StronglySorted (fun a b => focus_order today a b <= 0) l)
      by (apply Array_sort_sorted; [apply focus_order_total|apply focus_order_trans]).
    assert (Hall : Forall (fun x => focus_order today x t <= 0) (firstn 5 l)).
    { apply Forall_forall. intros x Hx.
      destruct (firstn_nth x 5 l Hx) as (j & Hj & Hjn).
      apply (StronglySorted_nth_error _ _ Hsorted j i x t); [lia|exact Hjn|exact Hn]. }
    split; [|split; [exact Hall|split]].
    + rewrite length_map, length_firstn.
      assert (i < length l)%nat by (apply nth_error_Some; congruence). lia.
    + intros Hd. apply dueToday_true in Hd.
      eapply Forall_impl; [|exact Hall]. intros x Hx.
      apply dueToday_true. unfold focus_order in Hx. rewrite Hd in Hx.
      destruct (dueToday today x); [reflexivity|]. simpl in Hx. lia.
    + intros Hprio. eapply Forall_impl; [|exact Hall]. intros x Hx.
      unfold focus_order in Hx.
      destruct (dueToday today x) eqn:Ex; [left; now apply dueToday_true|].
      right. destruct (dueToday today t); simpl in Hx; lia.
Qed.

Lemma overdue_from_In clock i todos t :
  In t (SummaryAnalysis.overdue_from Date_parse clock i todos) ->
  In t todos /\ exists j, SummaryAnalysis.overdue Date_parse (clock j) t = true.
Proof.
  revert i. induction todos as [|x l IH]; [contradiction|].
  intros i. cbn [SummaryAnalysis.overdue_from].
  destruct (SummaryAnalysis.overdue Date_parse (clock i) x) eqn:E.
  - intros [<-|H]; [split; [now left|now exists i]|].
    destruct (IH _ H) as [Hin Hj]. split; [now right|exact Hj].
  - intros H. destruct (IH _ H) as [Hin Hj]. split; [now right|exact Hj].
Qed.

(** X21. A row that [overdueTodos] holds (not completed, with a due date
    before the time at which it was tested) qualifies for [focusTasks]
    when that list is built later in the request. *)
Theorem overdue_qualifies_for_focus clock now today todos t :
  (forall i, clock i <= now) ->
  In t (overdueTodos clock todos) ->
  In t todos /\ status t = pending /\ focus_filter now today t = true.
Proof.
  intros Hnow Hin. unfold SummaryAnalysis.overdueTodos in Hin.
  apply overdue_from_In in Hin as [Hin [j H]]. split; [exact Hin|].
  specialize (Hnow j). unfold SummaryAnalysis.overdue in H.
  destruct (due_date t) as [[|c d]|] eqn:Ed; try discriminate.
  apply andb_true_iff in H as [Hc Hlt]. split.
  - unfold is_completed in Hc. destruct (status t); [reflexivity|discriminate].
  - unfold Summary.focus_filter. cbv zeta. unfold Summary.isDueSoon.
    rewrite Ed. cbn [nonempty andb].
    destruct (Date_parse (c :: d)) as [x|]; [|discriminate].
    cbn [ParseTodo.time_lt] in Hlt. apply Z.ltb_lt in Hlt.
    cbn [time_le]. replace (x <=? now + 2 * 24 * 60 * 60 * 1000) with true
      by (symmetry; apply Z.leb_le; lia).
    now rewrite !orb_true_r.
Qed.

(** ** The answer *)

Ltac member_of_report :=
  unfold validatedData; cbn [get];
  erewrite lookup_last_member;
  [reflexivity
  |exact report_fields_distinct
  |cbn [In];
   repeat match goal with
          | |- (?k, _) = (?k, _) \/ _ => left; reflexivity
          | |- _ \/ _ => right
          end].

Lemma validatedData_lists a r f v :
  get (validatedData a r f v) (lit "remainingTodos") = Some (JArr r)
  /\ get (validatedData a r f v) (lit "focusTasks") = Some (JArr f).
Proof. split; member_of_report. Qed.

Lemma validatedData_arrays a r f v :
  get (validatedData a r f v) (lit "urgentTasks")
  = Some (array_or (get v (lit "urgentTasks")) (JArr []))
  /\ get (validatedData a r f v) (lit "insights")
     = Some (array_or (get v (lit "insights"))
               (JArr [JStr (lit "더 많은 할 일을 추가하시면 더 자세한 분석을 제공할 수 있습니다")]))
  /\ get (validatedData a r f v) (lit "recommendations")
     = Some (array_or (get v (lit "recommendations"))
               (JArr [JStr (lit "꾸준히 할 일을 관리하고 있으니 계속 진행하세요")])).
Proof. repeat split; member_of_report. Qed.

Lemma array_or_array v d : exists l, array_or v (JArr d) = JArr l.
Proof. destruct v as [[| | | |l|]|]; simpl; eauto. Qed.

Lemma POST_200_inv apiKey period user current previous now today ai :
  http (POST apiKey period user current previous now today ai) = 200 ->
  exists is_today previousTodos,
    (current = Some []
     /\ body (POST apiKey period user current previous now today ai)
        = no_tasks is_today)
    \/ exists t todos v,
         current = Some (t :: todos) /\ previous = Some previousTodos
         /\ body (POST apiKey period user current previous now today ai)
            = sent (validatedData (analysisData is_today (t :: todos) previousTodos)
                      (remainingTodos (t :: todos))
                      (focusTasks now today (t :: todos)) v).
Proof.
  unfold Summary.POST.
  destruct apiKey; simpl negb; cbv iota; [|discriminate].
  destruct (period_of period) as [is_today|]; [|discriminate].
  destruct user as [u|]; [|discriminate].
  destruct current as [todos|]; [|discriminate].
  destruct previous as [previousTodos|]; [|discriminate].
  intros H. exists is_today, previousTodos.
  destruct todos as [|t todos]; [left; split; reflexivity|right].
  cbv zeta in H |- *.
  destruct ai as [msg|text].
  - destruct (on_throw_http Date_parse msg) as [E|[E|E]]; rewrite E in H; discriminate.
  - destruct (JSON_parse (jsonString text)) as [v|]; [|discriminate].
    destruct v;
      try (eexists _, _, _; split; [reflexivity|split; reflexivity]).
    destruct (on_throw_http Date_parse (Some null_access_message)) as [E|[E|E]];
      rewrite E in H; discriminate.
Qed.

(** An entry of the two lists is sent as it is when the priority of its
    row is an integer that a double holds. *)
Lemma sent_item t : Z.abs (priority t) < 2 ^ 53 -> sent (item t) = item t.
Proof.
  intros H. unfold item. cbn [sent map fst snd].
  rewrite (nearest_double_integer _ H), sent_strings.
  destruct (due_date t); reflexivity.
Qed.

Lemma sent_items l :
  Forall (fun t => Z.abs (priority t) < 2 ^ 53) l ->
  map sent (map item l) = map item l.
Proof.
  induction 1 as [|t l Ht _ IH]; [reflexivity|].
  cbn [map]. now rewrite (sent_item t Ht), IH.
Qed.

Lemma sortedPending_In todos t : In t (sortedPending todos) -> In t todos.
Proof.
  intros H. unfold sortedPending in H.
  apply (Permutation_in _ (Permutation_sym (Array_sort_perm _ _))) in H.
  unfold pendingTodos in H. now apply filter_In in H.
Qed.

Lemma focusTodos_In now today todos t :
  In t (focusTodos now today todos) -> In t todos.
Proof.
  intros H. unfold Summary.focusTodos in H.
  apply firstn_In in H.
  apply (Permutation_in _ (Permutation_sym (Array_sort_perm _ _))) in H.
  apply filter_In in H. now apply sortedPending_In.
Qed.

(** X22. In a 200 answer for a period with rows, [remainingTodos] and
    [focusTasks] are the lists computed from the rows, as
    [NextResponse.json] sends them, whatever the model replied, also when
    its reply has members of these names. When the priorities of the rows
    are integers that a double holds (below 2^53 in absolute value), the
    client reads the entries as [item] makes them. *)
Theorem POST_lists_from_rows apiKey period user todos previous now today ai :
  http (POST apiKey period user (Some todos) previous now today ai) = 200 ->
  todos <> [] ->
  get (body (POST apiKey period user (Some todos) previous now today ai))
      (lit "remainingTodos")
  = Some (sent (JArr (remainingTodos todos)))
  /\ get (body (POST apiKey period user (Some todos) previous now today ai))
         (lit "focusTasks")
     = Some (sent (JArr (focusTasks now today todos)))
  /\ (Forall (fun t => Z.abs (priority t) < 2 ^ 53) todos ->
      get (body (POST apiKey period user (Some todos) previous now today ai))
          (lit "remainingTodos")
      = Some (JArr (remainingTodos todos))
      /\ get (body (POST apiKey period user (Some todos) previous now today ai))
             (lit "focusTasks")
         = Some (JArr (focusTasks now today todos))).
Proof.
  intros H Hne.
  destruct (POST_200_inv _ _ _ _ _ _ _ _ H)
    as (is_today & previousTodos & [[E _]|(t & l & v & E & _ & ->)]).
  - injection E as ->. now contradiction Hne.
  - injection E as ->. rewrite !get_sent.
    destruct (validatedData_lists
                (analysisData is_today (t :: l) previousTodos)
                (remainingTodos (t :: l)) (focusTasks now today (t :: l)) v)
      as (-> & ->).
    split; [reflexivity|]. split; [reflexivity|].
    intros Hsafe. cbn [option_map sent].
    unfold Summary.remainingTodos, Summary.focusTasks.
    rewrite !sent_items; [split; reflexivity| |].
    + apply Forall_forall. intros x Hx. apply focusTodos_In in Hx.
      exact (proj1 (Forall_forall _ _) Hsafe x Hx).
    + apply Forall_forall. intros x Hx. apply sortedPending_In in Hx.
      exact (proj1 (Forall_forall _ _) Hsafe x Hx).
Qed.

(** X23. In every 200 answer, [urgentTasks], [insights] and
    [recommendations] are arrays, whatever the model put under these
    names. *)
Theorem POST_arrays apiKey period user current previous now today ai :
  http (POST apiKey period user current previous now today ai) = 200 ->
  (exists l, get (body (POST apiKey period user current previous now today ai))
                 (lit "urgentTasks") = Some (JArr l))
  /\ (exists l, get (body (POST apiKey period user current previous now today ai))
                    (lit "insights") = Some (JArr l))
  /\ (exists l, get (body (POST apiKey period user current previous now today ai))
                    (lit "recommendations") = Some (JArr l)).
Proof.
  intros H.
  destruct (POST_200_inv _ _ _ _ _ _ _ _ H)
    as (is_today & previousTodos & [[_ ->]|(t & l & v & _ & _ & ->)]).
  - repeat split; eexists; vm_compute; reflexivity.
  - rewrite !get_sent.
    destruct (validatedData_arrays
                (analysisData is_today (t :: l) previousTodos)
                (remainingTodos (t :: l)) (focusTasks now today (t :: l)) v)
      as (-> & -> & ->).
    repeat split;
      match goal with
      | |- exists _, option_map sent (Some (array_or ?x (JArr ?d))) = _ =>
        destruct (array_or_array x d) as [k ->]; now exists (map sent k)
      end.
Qed.

(** Whether the handler takes the value that the reply has under a
    name: for the three lists it has to be an array ([Array.isArray]),
    for the other members it has to be truthy ([||]). *)
Definition accepted (k : jsstr) (x : json) : bool :=
  if existsb (str_eqb k) [lit "urgentTasks"; lit "insights"; lit "recommendations"]
  then match x with JArr _ => true | _ => false end
  else truthy (Some x).

Lemma or_else_accepted x d :
  Some (or_else (Some x) d) = if truthy (Some x) then Some x else Some d.
Proof. unfold or_else. now destruct (truthy (Some x)). Qed.

Lemma array_or_accepted x d :
  Some (array_or (Some x) d)
  = if match x with JArr _ => true | _ => false end then Some x else Some d.
Proof. now destruct x. Qed.

Lemma validatedData_member a r f v k :
  In k model_fields ->
  get (validatedData a r f v) k
  = match get v k with
    | Some x =>
      if accepted k x then Some x else get (validatedData a r f (JObj [])) k
    | None => get (validatedData a r f (JObj [])) k
    end.
Proof.
  intros H.
  destruct (get v k) as [x|] eqn:Hk; [|now apply validatedData_default].
  unfold model_fields in H. simpl In in H.
  repeat (destruct H as [H|H]; [subst k|]); [..|contradiction];
    match goal with
    | |- context [accepted ?key x] =>
      replace (accepted key x)
        with (if existsb (str_eqb key)
                   [lit "urgentTasks"; lit "insights"; lit "recommendations"]
              then match x with JArr _ => true | _ => false end
              else truthy (Some x)) by reflexivity;
      let b := eval vm_compute in
                 (existsb (str_eqb key)
                    [lit "urgentTasks"; lit "insights"; lit "recommendations"]) in
      replace (existsb (str_eqb key)
                 [lit "urgentTasks"; lit "insights"; lit "recommendations"])
        with b by (vm_compute; reflexivity)
    end;
    cbv iota;
    unfold validatedData; cbn [get];
    (erewrite !lookup_last_member;
     [|exact report_fields_distinct
      |cbn [In];
       repeat match goal with
              | |- (?k, _) = (?k, _) \/ _ => left; reflexivity
              | |- _ \/ _ => right
              end
      |exact report_fields_distinct
      |cbn [In];
       repeat match goal with
              | |- (?k, _) = (?k, _) \/ _ => left; reflexivity
              | |- _ \/ _ => right
              end]);
    cbn [get] in Hk; rewrite Hk;
    first [apply or_else_accepted | apply array_or_accepted].
Qed.

(** X24. What the model's reply has under one of the eight names that
    the handler reads reaches the answer, as [NextResponse.json] sends
    it, when the handler accepts it (an array for the three lists, a
    truthy value for the others): a string as it is, a number as the
    nearest double and as [null] when that is an infinity, the members
    of an object in the order of its keys. Otherwise the answer has the
    default computed from the rows. *)
Theorem POST_reply_member period is_today u t todos previousTodos now today text v k :
  period_of period = Some is_today ->
  JSON_parse (jsonString text) = Some v -> v <> JNull ->
  In k model_fields ->
  get (body (POST true period (Some u) (Some (t :: todos)) (Some previousTodos)
                  now today (AiText text))) k
  = match get v k with
    | Some x =>
      if accepted k x then Some (sent x)
      else get (validatedData (analysisData is_today (t :: todos) previousTodos)
                  (remainingTodos (t :: todos))
                  (focusTasks now today (t :: todos)) (JObj [])) k
    | None =>
      get (validatedData (analysisData is_today (t :: todos) previousTodos)
             (remainingTodos (t :: todos))
             (focusTasks now today (t :: todos)) (JObj [])) k
    end.
Proof.
  intros Hp Hv Hn Hk. unfold Summary.POST. simpl negb. cbv iota.
  rewrite Hp, Hv. cbv zeta.
  destruct v; try contradiction; cbn [body];
    rewrite get_sent, (validatedData_member _ _ _ _ _ Hk);
    (destruct (get _ k) as [x|];
     [destruct (accepted k x); [reflexivity|]|]);
    now apply defaults_sent.
Qed.

End Handler.

(** ** The analysis run on three rows *)

Definition task (n : string) (s : todo_status) (p : Z) (due : option jsstr) : Todo :=
  {| id := lit n; user_id := lit "user-1"; title := lit n;
     description := None; due_date := due; status := s; priority := p;
     created_at := lit "2025-06-09T01:00:00+00:00";
     updated_at := lit "2025-06-09T02:00:00+00:00";
     tags := None |}.

Definition sunday : jsstr := lit "2025-06-15".
Definition sunday_morning : Z := 1749981600000.
Definition this_week : option json := Some (JStr (lit "week")).
Definition late_report : Todo := task "보고서" pending 1 (Some (lit "2025-06-10")).

Definition tasks : list Todo :=
  [late_report; task "장보기" pending 2 None; task "운동" completed 3 None].

Definition short_reply : jsstr := quoted "{'summary': 'ok', 'urgentTasks': 'none'}".

(** A reply with a number that no double holds. *)
Definition huge_reply : jsstr := quoted "{'summary': 1e400}".

Definition huge_reply_value : json :=
  JObj [(lit "summary", JNum (inject_Z (10 ^ 400)))].

Definition short_reply_value : json :=
  JObj [(lit "summary", JStr (lit "ok")); (lit "urgentTasks", JStr (lit "none"))].

Lemma rates_are_percentages_witness :
  Z.of_nat (length tasks) < 2 ^ 32
  /\ Z.of_nat (length (@nil Todo)) < 2 ^ 32
  /\ 0 <= a_completionRate (analysisData Date_parse0 false tasks []) <= 100
  /\ 0 <= a_deadlineComplianceRate (analysisData Date_parse0 false tasks []) <= 100
  /\ 0 <= a_postponementRate (analysisData Date_parse0 false tasks []) <= 100
  /\ -100 <= completionRateChange (analysisData Date_parse0 false tasks []) <= 100.
Proof.
  assert (H1 : Z.of_nat (length tasks) < 2 ^ 32) by (vm_compute; reflexivity).
  assert (H2 : Z.of_nat (length (@nil Todo)) < 2 ^ 32) by (vm_compute; reflexivity).
  split; [exact H1|]. split; [exact H2|].
  exact (rates_are_percentages Date_parse0 false tasks [] H1 H2).
Defined.

Lemma focusTasks_cut_witness :
  In late_report tasks /\ status late_report = pending
  /\ focus_filter Date_parse0 sunday_morning sunday late_report = true
  /\ ((length (filter (focus_filter Date_parse0 sunday_morning sunday)
                 (pendingTodos tasks)) <= 5)%nat ->
      In late_report (focusTodos Date_parse0 sunday_morning sunday tasks))
  /\ (In late_report (focusTodos Date_parse0 sunday_morning sunday tasks)
      \/ (length (focusTasks Date_parse0 sunday_morning sunday tasks) = 5%nat
          /\ Forall (fun x => focus_order sunday x late_report <= 0)
                    (focusTodos Date_parse0 sunday_morning sunday tasks)
          /\ (due_date late_report = Some sunday ->
              Forall (fun x => due_date x = Some sunday)
                     (focusTodos Date_parse0 sunday_morning sunday tasks))
          /\ (priority late_report = 1 ->
              Forall (fun x => due_date x = Some sunday \/ priority x <= 1)
                     (focusTodos Date_parse0 sunday_morning sunday tasks)))).
Proof.
  assert (H1 : In late_report tasks) by (left; reflexivity).
  assert (H2 : status late_report = pending) by reflexivity.
  assert (H3 : focus_filter Date_parse0 sunday_morning sunday late_report = true)
    by (vm_compute; reflexivity).
  split; [exact H1|]. split; [exact H2|]. split; [exact H3|].
  exact (focusTasks_cut Date_parse0 sunday_morning sunday tasks late_report H1 H2 H3).
Defined.

(** A clock that advances by a millisecond from row to row. *)
Definition ticking (i : nat) : Z := sunday_morning - 1000 + Z.of_nat (Nat.min i 1000).

Lemma overdue_qualifies_for_focus_witness :
  (forall i, ticking i <= sunday_morning)
  /\ In late_report (SummaryAnalysis.overdueTodos Date_parse0 ticking tasks)
  /\ In late_report tasks /\ status late_report = pending
  /\ focus_filter Date_parse0 sunday_morning sunday late_report = true.
Proof.
  assert (H1 : forall i, ticking i <= sunday_morning)
    by (intros i; unfold ticking; lia).
  assert (H2 : In late_report (SummaryAnalysis.overdueTodos Date_parse0 ticking tasks))
    by (vm_compute; left; reflexivity).
  split; [exact H1|]. split; [exact H2|].
  exact (overdue_qualifies_for_focus Date_parse0 ticking
           sunday_morning sunday tasks late_report H1 H2).
Defined.

Lemma POST_lists_from_rows_witness :
  http (POST0 true this_week (Some (lit "user-1")) (Some tasks) (Some [])
          sunday_morning sunday (AiText short_reply)) = 200
  /\ tasks <> []
  /\ get (body (POST0 true this_week (Some (lit "user-1")) (Some tasks) (Some [])
                  sunday_morning sunday (AiText short_reply)))
         (lit "remainingTodos")
     = Some (sent (JArr (remainingTodos tasks)))
  /\ get (body (POST0 true this_week (Some (lit "user-1")) (Some tasks) (Some [])
                  sunday_morning sunday (AiText short_reply)))
         (lit "focusTasks")
     = Some (sent (JArr (focusTasks Date_parse0 sunday_morning sunday tasks)))
  /\ (Forall (fun t => Z.abs (priority t) < 2 ^ 53) tasks ->
      get (body (POST0 true this_week (Some (lit "user-1")) (Some tasks) (Some [])
                   sunday_morning sunday (AiText short_reply)))
          (lit "remainingTodos")
      = Some (JArr (remainingTodos tasks))
      /\ get (body (POST0 true this_week (Some (lit "user-1")) (Some tasks) (Some [])
                      sunday_morning sunday (AiText short_reply)))
             (lit "focusTasks")
         = Some (JArr (focusTasks Date_parse0 sunday_morning sunday tasks))).
Proof.
  assert (H1 : http (POST0 true this_week (Some (lit "user-1")) (Some tasks) (Some [])
                       sunday_morning sunday (AiText short_reply)) = 200)
    by (vm_compute; reflexivity).
  assert (H2 : tasks <> []) by discriminate.
  split; [exact H1|]. split; [exact H2|].
  exact (POST_lists_from_rows Date_parse0 true this_week (Some (lit "user-1")) tasks
           (Some []) sunday_morning sunday (AiText short_reply) H1 H2).
Defined.

Lemma POST_arrays_witness :
  http (POST0 true this_week (Some (lit "user-1")) (Some tasks) (Some [])
          sunday_morning sunday (AiText short_reply)) = 200
  /\ (exists l, get (body (POST0 true this_week (Some (lit "user-1")) (Some tasks)
                             (Some []) sunday_morning sunday (AiText short_reply)))
                    (lit "urgentTasks") = Some (JArr l))
  /\ (exists l, get (body (POST0 true this_week (Some (lit "user-1")) (Some tasks)
                             (Some []) sunday_morning sunday (AiText short_reply)))
                    (lit "insights") = Some (JArr l))
  /\ (exists l, get (body (POST0 true this_week (Some (lit "user-1")) (Some tasks)
                             (Some []) sunday_morning sunday (AiText short_reply)))
                    (lit "recommendations") = Some (JArr l)).
Proof.
  assert (H1 : http (POST0 true this_week (Some (lit "user-1")) (Some tasks) (Some [])
                       sunday_morning sunday (AiText short_reply)) = 200)
    by (vm_compute; reflexivity).
  split; [exact H1|].
  exact (POST_arrays Date_parse0 true this_week (Some (lit "user-1")) (Some tasks)
           (Some []) sunday_morning sunday (AiText short_reply) H1).
Defined.

Lemma POST_reply_member_witness :
  period_of this_week = Some false
  /\ JSON_parse (jsonString huge_reply) = Some huge_reply_value
  /\ huge_reply_value <> JNull
  /\ In (lit "summary") model_fields
  /\ get (body (POST0 true this_week (Some (lit "user-1"))
                  (Some (late_report :: tl tasks)) (Some [])
                  sunday_morning sunday (AiText huge_reply))) (lit "summary")
     = match get huge_reply_value (lit "summary") with
       | Some x =>
         if accepted (lit "summary") x then Some (sent x)
         else get (validatedData
                     (analysisData Date_parse0 false (late_report :: tl tasks) [])
                     (remainingTodos (late_report :: tl tasks))
                     (focusTasks Date_parse0 sunday_morning sunday
                        (late_report :: tl tasks)) (JObj []))
                  (lit "summary")
       | None =>
         get (validatedData
                (analysisData Date_parse0 false (late_report :: tl tasks) [])
                (remainingTodos (late_report :: tl tasks))
                (focusTasks Date_parse0 sunday_morning sunday
                   (late_report :: tl tasks)) (JObj []))
             (lit "summary")
       end
  /\ get (body (POST0 true this_week (Some (lit "user-1"))
                  (Some (late_report :: tl tasks)) (Some [])
                  sunday_morning sunday (AiText huge_reply))) (lit "summary")
     = Some JNull.
Proof.
  assert (H1 : period_of this_week = Some false) by (vm_compute; reflexivity).
  assert (H2 : JSON_parse (jsonString huge_reply) = Some huge_reply_value)
    by (vm_compute; reflexivity).
  assert (H3 : huge_reply_value <> JNull) by discriminate.
  assert (H4 : In (lit "summary") model_fields) by (left; reflexivity).
  split; [exact H1|]. split; [exact H2|]. split; [exact H3|]. split; [exact H4|].
  split.
  - exact (POST_reply_member Date_parse0 this_week false (lit "user-1") late_report
             (tl tasks) [] sunday_morning sunday huge_reply huge_reply_value
             (lit "summary") H1 H2 H3 H4).
  - vm_compute. reflexivity.
Defined.

End SummaryFacts.

(* ===================================================================== *)
(** * What the summary card shows, and what the tag field reads *)
(* ===================================================================== *)

Module ComponentsFacts.

Import Components JSFacts.

(** ** Digits *)

Lemma Z_of_digits_app ds d :
  Z_of_digits (ds ++ [d]) = Z_of_digits ds * 10 + (Z.of_N d - 48).
Proof. unfold Z_of_digits. now rewrite fold_left_app. Qed.

Lemma digit_char n : (n < 10)%N -> is_digit (48 + n) = true.
Proof.
  intros H. unfold is_digit, between.
  apply andb_true_iff. split; apply N.leb_le; lia.
Qed.

Lemma digits_step f n acc :
  digits_of_pos_fuel (S f) n acc
  = if (n <? 10)%N then (48 + n mod 10)%N :: acc
    else digits_of_pos_fuel f (n / 10) ((48 + n mod 10)%N :: acc).
Proof. reflexivity. Qed.

Lemma digits_of_pos_fuel_spec f :
  forall n acc, (n < 10 ^ N.of_nat (S f))%N ->
    exists ds, digits_of_pos_fuel (S f) n acc = ds ++ acc
               /\ ds <> [] /\ forallb is_digit ds = true
               /\ Z_of_digits ds = Z.of_N n.
Proof.
  induction f as [|f IH]; intros n acc Hn.
  - change (10 ^ N.of_nat 1)%N with 10%N in Hn.
    exists [(48 + n mod 10)%N]. rewrite digits_step.
    destruct (N.ltb_spec n 10); [|lia].
    rewrite N.mod_small by assumption.
    split; [reflexivity|]. split; [discriminate|].
    split; [cbn [forallb]; now rewrite digit_char|].
    unfold Z_of_digits. cbn [fold_left]. lia.
  - rewrite digits_step.
    assert (Hm : (n mod 10 < 10)%N) by (apply N.mod_lt; lia).
    destruct (N.ltb_spec n 10) as [Hsmall|Hbig].
    + exists [(48 + n mod 10)%N]. rewrite N.mod_small by assumption.
      split; [reflexivity|]. split; [discriminate|].
      split; [cbn [forallb]; now rewrite digit_char|].
      unfold Z_of_digits. cbn [fold_left]. lia.
    + assert (Hdiv : (n / 10 < 10 ^ N.of_nat (S f))%N).
      { apply N.Div0.div_lt_upper_bound.
        replace (N.of_nat (S (S f))) with (N.succ (N.of_nat (S f))) in Hn by lia.
        rewrite N.pow_succ_r' in Hn. exact Hn. }
      destruct (IH (n / 10)%N ((48 + n mod 10)%N :: acc) Hdiv)
        as (ds & E & Hne & Hd & Hv).
      exists (ds ++ [(48 + n mod 10)%N]).
      split; [rewrite E, <- app_assoc; reflexivity|].
      split; [destruct ds; discriminate|].
      split.
      * rewrite forallb_app, Hd. cbn [forallb]. now rewrite digit_char.
      * rewrite Z_of_digits_app, Hv.
        pose proof (N.div_mod n 10 ltac:(lia)). lia.
Qed.

Lemma string_of_N_spec n :
  string_of_N n <> [] /\ forallb is_digit (string_of_N n) = true
  /\ Z_of_digits (string_of_N n) = Z.of_N n.
Proof.
  unfold string_of_N.
  assert (Hn : (n < 10 ^ N.of_nat (S (N.to_nat (N.log2 n))))%N).
  { destruct n as [|p]; [reflexivity|].
    apply N.lt_le_trans with (2 ^ N.succ (N.log2 (N.pos p)))%N.
    - apply N.log2_spec. lia.
    - replace (N.of_nat (S (N.to_nat (N.log2 (N.pos p)))))
        with (N.succ (N.log2 (N.pos p))) by lia.
      apply N.pow_le_mono_l. lia. }
  destruct (digits_of_pos_fuel_spec _ n [] Hn) as (ds & -> & Hne & Hd & Hv).
  rewrite app_nil_r. auto.
Qed.

Lemma span_digits_run ds r :
  forallb is_digit ds = true ->
  match r with c :: _ => is_digit c = false | [] => True end ->
  span_digits (ds ++ r) = (ds, r).
Proof.
  intros Hd Hr. induction ds as [|d ds IH]; cbn [app span_digits].
  - destruct r as [|c r]; [reflexivity|]. cbn [span_digits]. now rewrite Hr.
  - cbn [forallb] in Hd. apply andb_true_iff in Hd as [H1 H2].
    rewrite H1, (IH H2). reflexivity.
Qed.

Lemma match_percent_skip p text :
  forallb (fun c => negb (is_digit c)) p = true ->
  match_percent (p ++ text) = match_percent text.
Proof.
  induction p as [|c p IH]; [reflexivity|].
  cbn [forallb app match_percent span_digits].
  intros H. apply andb_true_iff in H as [Hc Hp].
  apply negb_true_iff in Hc. rewrite Hc. now apply IH.
Qed.

Lemma extractCompletionRate_of_rate p n :
  forallb (fun c => negb (is_digit c)) p = true ->
  0 <= n ->
  extractCompletionRate (p ++ string_of_Z n ++ lit "%") = n.
Proof.
  intros Hp Hn. unfold extractCompletionRate. rewrite (match_percent_skip _ _ Hp).
  unfold string_of_Z. destruct (Z.ltb_spec n 0); [lia|].
  destruct (string_of_N_spec (Z.to_N n)) as (Hne & Hd & Hv).
  destruct (string_of_N (Z.to_N n)) as [|d ds] eqn:E; [contradiction|].
  assert (Hs : span_digits ((d :: ds) ++ lit "%") = (d :: ds, lit "%"))
    by (apply span_digits_run; [exact Hd|reflexivity]).
  change ((d :: ds) ++ lit "%") with (d :: (ds ++ lit "%")) in *.
  unfold match_percent. rewrite Hs. change (lit "%") with [37%N].
  cbv iota. unfold parseInt. rewrite Hv. lia.
Qed.

Lemma default_rate_shown a r f v :
  match get v (lit "completionAnalysis") with
  | Some x => truthy (Some x) = false
  | None => True
  end ->
  0 <= Summary.a_completionRate a ->
  completionRate_shown (Summary.validatedData a r f v)
  = Some (Summary.a_completionRate a).
Proof.
  intros Hv Hrate. unfold completionRate_shown. cbv zeta.
  assert (Hin : In (lit "completionAnalysis") SummaryProps.model_fields)
    by (unfold SummaryProps.model_fields; cbn [In]; tauto).
  rewrite (SummaryFacts.validatedData_member a r f v _ Hin).
  assert (Hacc : forall x, SummaryFacts.accepted (lit "completionAnalysis") x
                           = truthy (Some x))
    by (intros x; vm_compute; reflexivity).
  replace (match get v (lit "completionAnalysis") with
           | Some x =>
             if SummaryFacts.accepted (lit "completionAnalysis") x then Some x
             else get (Summary.validatedData a r f (JObj []))
                      (lit "completionAnalysis")
           | None => get (Summary.validatedData a r f (JObj []))
                         (lit "completionAnalysis")
           end)
    with (get (Summary.validatedData a r f (JObj [])) (lit "completionAnalysis")).
  2:{ destruct (get v (lit "completionAnalysis")) as [x|]; [|reflexivity].
      now rewrite Hacc, Hv. }
  unfold Summary.validatedData. cbn [get].
  erewrite lookup_last_member;
    [|exact SummaryProps.report_fields_distinct
     |cbn [In];
      repeat match goal with
             | |- (?k, _) = (?k, _) \/ _ => left; reflexivity
             | |- _ \/ _ => right
             end].
  change (lookup_last [] (lit "completionAnalysis")) with (@None json).
  cbn [or_else get].
  erewrite lookup_last_member;
    [|apply distinct_NoDup; vm_compute; reflexivity
     |cbn [In]; left; reflexivity].
  change (lit "완료율 " ++ string_of_Z (Summary.a_completionRate a) ++ lit "%")
    with (50756%N :: (tl (lit "완료율 ") ++ string_of_Z (Summary.a_completionRate a)
                        ++ lit "%")).
  cbn [or_else truthy].
  change (50756%N :: (tl (lit "완료율 ") ++ string_of_Z (Summary.a_completionRate a)
                        ++ lit "%"))
    with (lit "완료율 " ++ string_of_Z (Summary.a_completionRate a) ++ lit "%").
  f_equal. apply extractCompletionRate_of_rate; [vm_compute; reflexivity|exact Hrate].
Qed.

(** The default [completionAnalysis] is an object of strings: the card
    reads it as the handler made it. *)
Lemma default_analysis_sent a r f v :
  match get v (lit "completionAnalysis") with
  | Some x => truthy (Some x) = false
  | None => True
  end ->
  get (sent (Summary.validatedData a r f v)) (lit "completionAnalysis")
  = get (Summary.validatedData a r f v) (lit "completionAnalysis").
Proof.
  intros Hv. rewrite get_sent.
  assert (Hin : In (lit "completionAnalysis") SummaryProps.model_fields)
    by (unfold SummaryProps.model_fields; cbn [In]; tauto).
  assert (Hacc : forall x, SummaryFacts.accepted (lit "completionAnalysis") x
                           = truthy (Some x))
    by (intros x; vm_compute; reflexivity).
  assert (Hd : get (Summary.validatedData a r f v) (lit "completionAnalysis")
               = get (Summary.validatedData a r f (JObj []))
                     (lit "completionAnalysis")).
  { rewrite (SummaryFacts.validatedData_member a r f v _ Hin).
    destruct (get v (lit "completionAnalysis")) as [x|]; [|reflexivity].
    now rewrite Hacc, Hv. }
  rewrite Hd. now apply SummaryProps.defaults_sent.
Qed.

Lemma completionRate_shown_ext s s' :
  get s (lit "completionAnalysis") = get s' (lit "completionAnalysis") ->
  completionRate_shown s = completionRate_shown s'.
Proof. intros H. unfold completionRate_shown. now rewrite H. Qed.

Section Card.

Variable Date_parse : jsstr -> option Z.

(** X25. When the model's reply has no usable [completionAnalysis], the
    rate that the summary card reads back out of the answer is the
    completion rate that the endpoint computed from the rows (of an
    array, fewer than 2^32). *)
Theorem card_shows_completionRate period is_today u t todos previousTodos now today text v :
  Summary.period_of period = Some is_today ->
  JSON_parse (Summary.jsonString text) = Some v -> v <> JNull ->
  match get v (lit "completionAnalysis") with
  | Some x => truthy (Some x) = false
  | None => True
  end ->
  Z.of_nat (length (t :: todos)) < 2 ^ 32 ->
  completionRate_shown
    (Summary.body (Summary.POST Date_parse true period (Some u) (Some (t :: todos))
                     (Some previousTodos) now today (Summary.AiText text)))
  = Some (Summary.completionRate (t :: todos)).
Proof.
  intros Hp Hv Hn Hca Hlen. unfold Summary.POST. simpl negb. cbv iota.
  rewrite Hp, Hv. cbv zeta.
  assert (Hrate : 0 <= Summary.completionRate (t :: todos)).
  { unfold Summary.completionRate.
    apply SummaryFacts.rate_range; [apply filter_length_le|exact Hlen]. }
  destruct v; try contradiction; cbn [Summary.body];
    (erewrite completionRate_shown_ext;
     [|apply default_analysis_sent; exact Hca]);
    now apply default_rate_shown.
Qed.

End Card.

(** ** The tag field *)

Definition tag (t : jsstr) : Prop := trim t = t /\ t <> [] /\ ~ In 44%N t.

Lemma split_comma_nonempty s : split_comma s <> [].
Proof.
  destruct s as [|c r]; [discriminate|]. simpl.
  destruct (N.eqb c 44); [discriminate|].
  destruct (split_comma r); discriminate.
Qed.

Lemma split_comma_plain t : ~ In 44%N t -> split_comma t = [t].
Proof.
  induction t as [|c t IH]; [reflexivity|].
  intros H. simpl. destruct (N.eqb_spec c 44) as [->|_].
  - exfalso. apply H. now left.
  - rewrite IH; [reflexivity|]. intros Hin. apply H. now right.
Qed.

Lemma split_comma_app t r :
  ~ In 44%N t -> split_comma (t ++ 44%N :: r) = t :: split_comma r.
Proof.
  induction t as [|c t IH]; [reflexivity|].
  intros H. cbn [app split_comma]. destruct (N.eqb_spec c 44) as [->|_].
  - exfalso. apply H. now left.
  - rewrite IH; [reflexivity|]. intros Hin. apply H. now right.
Qed.

Lemma split_comma_end s :
  split_comma (s ++ [44%N]) = split_comma s ++ [[]].
Proof.
  induction s as [|c s IH]; [reflexivity|].
  cbn [app split_comma]. destruct (N.eqb c 44); [now rewrite IH|].
  rewrite IH. pose proof (split_comma_nonempty s).
  destruct (split_comma s); [contradiction|reflexivity].
Qed.

Lemma trim_space t : trim (32%N :: t) = trim t.
Proof. reflexivity. Qed.

Lemma join_cons t r :
  r <> [] -> join (t :: r) = t ++ 44%N :: 32%N :: join r.
Proof. destruct r; [contradiction|reflexivity]. Qed.

Lemma read_back tags :
  Forall tag tags -> tags <> [] ->
  map trim (split_comma (join tags)) = tags.
Proof.
  induction 1 as [|t r (Ht & Hne & Hc) Hr IH]; [contradiction|].
  intros _. destruct r as [|t2 r].
  - cbn [join]. rewrite (split_comma_plain t Hc). cbn [map]. now rewrite Ht.
  - rewrite join_cons by discriminate.
    rewrite (split_comma_app t _ Hc). cbn [map]. rewrite Ht. f_equal.
    specialize (IH ltac:(discriminate)).
    inversion Hr as [|? ? (Ht2 & Hne2 & Hc2) Hr2]; subst.
    destruct r as [|t3 r].
    + cbn [join] in *. rewrite split_comma_plain by (intros [E|E]; [discriminate|now apply Hc2]).
      cbn [map]. now rewrite trim_space, Ht2.
    + rewrite join_cons in * by discriminate.
      change (32%N :: t2 ++ 44%N :: 32%N :: join (t3 :: r))
        with ((32%N :: t2) ++ 44%N :: 32%N :: join (t3 :: r)).
      rewrite split_comma_app by (intros [E|E]; [discriminate|now apply Hc2]).
      rewrite (split_comma_app t2 _ Hc2) in IH. cbn [map] in IH |- *.
      rewrite trim_space. exact IH.
Qed.

Lemma In_trimStart x s : In x (trimStart s) -> In x s.
Proof.
  induction s as [|c s IH]; [contradiction|].
  simpl. destruct (is_space c); [intros H; right; now apply IH|tauto].
Qed.

Lemma In_trim x s : In x (trim s) -> In x s.
Proof.
  unfold trim, trimEnd. intros H. apply In_trimStart.
  apply in_rev. apply In_trimStart. apply in_rev. exact H.
Qed.

Lemma split_comma_no_comma s : Forall (fun t => ~ In 44%N t) (split_comma s).
Proof.
  induction s as [|c s IH]; [repeat constructor; tauto|].
  simpl. destruct (N.eqb_spec c 44) as [->|Hc]; [constructor; tauto|].
  destruct (split_comma s) as [|h t]; [repeat constructor; simpl; tauto|].
  inversion IH as [|? ? Hh Ht]; subst. constructor; [|exact Ht].
  simpl. intros [E|E]; [now apply Hc|now apply Hh].
Qed.

Lemma onChange_tags text : Forall tag (onChange text) /\ (length (onChange text) <= 3)%nat.
Proof.
  split; [|apply firstn_le_length].
  apply Forall_forall. intros t Ht. unfold onChange in Ht.
  apply firstn_In in Ht. apply filter_In in Ht as [Hin Hlen].
  apply in_map_iff in Hin as (seg & <- & Hseg).
  split; [apply trim_idem|]. split.
  - intros E. rewrite E in Hlen. discriminate.
  - intros H. apply In_trim in H.
    pose proof (split_comma_no_comma text) as Hf. rewrite Forall_forall in Hf.
    exact (Hf seg Hseg H).
Qed.

Lemma onChange_value tags :
  Forall tag tags -> (length tags <= 3)%nat -> onChange (value tags) = tags.
Proof.
  intros Hf Hlen. unfold onChange, value.
  destruct tags as [|t r]; [reflexivity|].
  rewrite (read_back (t :: r) Hf) by discriminate.
  assert (Hall : filter (fun tag => Nat.ltb 0 (length tag)) (t :: r) = t :: r).
  { clear Hlen. induction Hf as [|x l (_ & Hne & _) _ IH]; [reflexivity|].
    simpl. destruct x; [contradiction|]. simpl. now rewrite IH. }
  rewrite Hall. now apply firstn_all2.
Qed.

(** X26. The tag field of the form: whatever the text, [onChange] gives
    at most three tags, each trimmed, not empty and without a comma; the
    text that the field then shows ([join(', ')]) is read back as the same
    tags; and a comma typed at the end of the text changes nothing, so
    the field shows the text as it was before the comma. *)
Theorem tag_field text :
  (length (onChange text) <= 3)%nat
  /\ Forall tag (onChange text)
  /\ onChange (value (onChange text)) = onChange text
  /\ onChange (text ++ lit ",") = onChange text
  /\ value (onChange (value (onChange text) ++ lit ",")) = value (onChange text).
Proof.
  destruct (onChange_tags text) as [Hf Hlen].
  assert (Hcomma : forall s, onChange (s ++ lit ",") = onChange s).
  { intros s. unfold onChange. change (lit ",") with [44%N].
    rewrite split_comma_end, map_app, filter_app. cbn [map filter].
    change (Nat.ltb 0 (length (trim []))) with false. cbv iota.
    now rewrite app_nil_r. }
  split; [exact Hlen|]. split; [exact Hf|].
  split; [now apply onChange_value|].
  split; [apply Hcomma|].
  rewrite Hcomma. f_equal. now apply onChange_value.
Qed.

Lemma card_shows_completionRate_witness :
  Summary.period_of SummaryFacts.this_week = Some false
  /\ JSON_parse (Summary.jsonString SummaryFacts.short_reply)
     = Some SummaryFacts.short_reply_value
  /\ SummaryFacts.short_reply_value <> JNull
  /\ match get SummaryFacts.short_reply_value (lit "completionAnalysis") with
     | Some x => truthy (Some x) = false
     | None => True
     end
  /\ Z.of_nat (length (SummaryFacts.late_report :: tl SummaryFacts.tasks)) < 2 ^ 32
  /\ completionRate_shown
       (Summary.body
          (Summary.POST Summary.Date_parse0 true SummaryFacts.this_week
             (Some (lit "user-1"))
             (Some (SummaryFacts.late_report :: tl SummaryFacts.tasks)) (Some [])
             SummaryFacts.sunday_morning SummaryFacts.sunday
             (Summary.AiText SummaryFacts.short_reply)))
     = Some (Summary.completionRate (SummaryFacts.late_report :: tl SummaryFacts.tasks)).
Proof.
  assert (H1 : Summary.period_of SummaryFacts.this_week = Some false)
    by (vm_compute; reflexivity).
  assert (H2 : JSON_parse (Summary.jsonString SummaryFacts.short_reply)
               = Some SummaryFacts.short_reply_value)
    by (vm_compute; reflexivity).
  assert (H3 : SummaryFacts.short_reply_value <> JNull) by discriminate.
  assert (H4 : match get SummaryFacts.short_reply_value (lit "completionAnalysis") with
               | Some x => truthy (Some x) = false
               | None => True
               end) by (vm_compute; exact I).
  assert (H5 : Z.of_nat (length (SummaryFacts.late_report :: tl SummaryFacts.tasks))
               < 2 ^ 32) by (vm_compute; reflexivity).
  split; [exact H1|]. split; [exact H2|]. split; [exact H3|].
  split; [exact H4|]. split; [exact H5|].
  exact (card_shows_completionRate Summary.Date_parse0 SummaryFacts.this_week false
           (lit "user-1") SummaryFacts.late_report (tl SummaryFacts.tasks) []
           SummaryFacts.sunday_morning SummaryFacts.sunday
           SummaryFacts.short_reply SummaryFacts.short_reply_value
           H1 H2 H3 H4 H5).
Defined.

End ComponentsFacts.
